(** * Cohort analytics of the marketing-research utilities

    A shallow embedding of [get_profiles], [get_conversion], [get_retention],
    [get_ltv] and [filter_data], and the properties their description states
    about them.

    Conventions of the embedding:
    - a DataFrame is a list of rows, each row a record of its columns;
    - timestamps are whole seconds since the epoch, dates are whole days since
      the epoch, so [.dt.date] is the floor division by 86400 and the [.days]
      of a difference of timestamps is the floor division of the difference;
    - float64 cells are exact rationals ([Q]); a missing value (NaN produced by
      a left merge, a pivot or a rolling window) is [None]; the division by
      the mean acquisition cost, the one place where the source tests for an
      infinity, has the infinities and the NaN of float64 (a zero divisor, a
      quotient beyond the largest float);
    - a Python exception is an [Err] result. *)

From Stdlib Require Import ZArith QArith Qround String List Lia Permutation Sorted.
From stdpp Require Import base decidable option list.
Import ListNotations.

Local Open Scope string_scope.
Local Open Scope list_scope.
Local Open Scope Z_scope.

(** ** Results and errors *)

Inductive label :=
  | LName (s : string)
  | LDay (d : Z).

Inductive error :=
  | KeyError (missing : list label)
  | ValueError (what : string)
  | AttributeError (what : string)
  | TypeError (what : string).

Inductive result (A : Type) :=
  | Ok (a : A)
  | Err (e : error).
Arguments Ok {A} a.
Arguments Err {A} e.

#[global] Instance result_ret : MRet result := fun A a => Ok a.
#[global] Instance result_bind : MBind result := fun A B f m =>
  match m with
  | Ok a => f a
  | Err e => Err e
  end.

(** ** Cells of dimension columns *)

Inductive cell :=
  | CInt (z : Z)
  | CStr (s : string)
  | CBool (b : bool)
  | CDate (d : Z)
  | CStamp (t : Z)
  | CNum (q : Q).

#[global] Instance Q_eq_dec : EqDecision Q.
Proof. solve_decision. Defined.
#[global] Instance string_eq_dec' : EqDecision string := String.string_dec.
#[global] Instance cell_eq_dec : EqDecision cell.
Proof. solve_decision. Defined.
#[global] Instance label_eq_dec : EqDecision label.
Proof. solve_decision. Defined.

Definition cell_tag (c : cell) : Z :=
  match c with
  | CInt _ => 0 | CStr _ => 1 | CBool _ => 2
  | CDate _ => 3 | CStamp _ => 4 | CNum _ => 5
  end.

Definition bool_leb (a b : bool) : bool := implb a b.

(** Order used to sort group keys.  Cells of one column carry one
    constructor; the tag only makes the order total. *)
Definition cell_leb (a b : cell) : bool :=
  match a, b with
  | CInt x, CInt y => Z.leb x y
  | CStr x, CStr y => String.leb x y
  | CBool x, CBool y => bool_leb x y
  | CDate x, CDate y => Z.leb x y
  | CStamp x, CStamp y => Z.leb x y
  | CNum x, CNum y => Qle_bool x y
  | _, _ => Z.leb (cell_tag a) (cell_tag b)
  end.

Definition dimkey := list cell.

Fixpoint key_leb (a b : dimkey) : bool :=
  match a, b with
  | [], _ => true
  | _ :: _, [] => false
  | x :: a', y :: b' =>
      if decide (x = y) then key_leb a' b' else cell_leb x y
  end.

(** ** Sorting, grouping, counting *)

Section Sorting.
Context {A : Type} (leb : A -> A -> bool).

(** Stable insertion: [x] goes before the first element it is below. *)
Fixpoint insert_sorted (x : A) (l : list A) : list A :=
  match l with
  | [] => [x]
  | y :: l' => if leb x y then x :: y :: l' else y :: insert_sorted x l'
  end.

Fixpoint sort_by (l : list A) : list A :=
  match l with
  | [] => []
  | x :: l' => insert_sorted x (sort_by l')
  end.
End Sorting.

Section GroupBy.
Context {A K : Type} `{EqDecision K} (leb : K -> K -> bool) (key : A -> K).

(** The keys of [groupby], sorted ([sort=True]) and distinct. *)
Definition group_keys (l : list A) : list K :=
  sort_by leb (remove_dups (map key l)).

Definition group_rows (k : K) (l : list A) : list A :=
  filter (fun r => key r = k) l.

Definition groupby (l : list A) : list (K * list A) :=
  map (fun k => (k, group_rows k l)) (group_keys l).
End GroupBy.

(** [Series.nunique] *)
Definition nunique {A} `{EqDecision A} (l : list A) : nat :=
  length (remove_dups l).

(** [drop_duplicates], keeping first occurrences. *)
Fixpoint drop_duplicates_from {A} `{EqDecision A} (seen l : list A) : list A :=
  match l with
  | [] => []
  | x :: l' =>
      if decide (x ∈ seen) then drop_duplicates_from seen l'
      else x :: drop_duplicates_from (x :: seen) l'
  end.
Definition drop_duplicates {A} `{EqDecision A} (l : list A) : list A :=
  drop_duplicates_from [] l.

Definition Qsum (l : list Q) : Q := fold_right Qplus 0%Q l.

Definition Qmean (l : list Q) : Q := (Qsum l / inject_Z (Z.of_nat (length l)))%Q.

(** ** Calendar *)

Definition SECONDS_PER_DAY : Z := 86400.

(** [.dt.date] *)
Definition date_of (ts : Z) : Z := ts / SECONDS_PER_DAY.

(** [Timedelta.days] of [a - b] *)
Definition days_between (a b : Z) : Z := (a - b) / SECONDS_PER_DAY.

(** Month (1..12) of a day number in the proleptic Gregorian calendar. *)
Definition month_of_day (d : Z) : Z :=
  let z := d + 719468 in
  let era := z / 146097 in
  let doe := z - era * 146097 in
  let yoe := (doe - doe / 1460 + doe / 36524 - doe / 146096) / 365 in
  let doy := doe - (365 * yoe + yoe / 4 - yoe / 100) in
  let mp := (5 * doy + 2) / 153 in
  if Z.ltb mp 10 then mp + 3 else mp - 9.

(** [.dt.month] *)
Definition month_of (ts : Z) : Z := month_of_day (date_of ts).

(** ** Input tables *)

Record visit := {
  v_user_id : Z;
  v_session_start : Z;
  v_channel : string;
  v_device : string;
  v_region : string
}.

(** Rows of the orders / purchases table. *)
Record purchase := {
  p_user_id : Z;
  p_event_dt : Z;
  p_revenue : Q
}.

Record session := {
  s_user_id : Z;
  s_session_start : Z
}.

(** The [dt] column of the ad-cost table holds timestamps on entry to
    [get_profiles] and dates once [.dt.date] has been stored in it. *)
Inductive datecell :=
  | Stamp (ts : Z)
  | Day (d : Z).

Record ad_cost := {
  ac_dt : datecell;
  ac_channel : string;
  ac_costs : Q
}.

Record profile := {
  user_id : Z;
  first_ts : Z;
  channel : string;
  device : string;
  region : string;
  dt : Z;
  month : Z;
  payer : bool;
  acquisition_cost : Q
}.

#[global] Instance datecell_eq_dec : EqDecision datecell.
Proof. solve_decision. Defined.
#[global] Instance visit_eq_dec : EqDecision visit.
Proof. solve_decision. Defined.
#[global] Instance profile_eq_dec : EqDecision profile.
Proof. solve_decision. Defined.

(** ** Left merge *)

(** [left.merge(right, how='left')]: every left row once per matching right
    row, in the order of the left table, or once with missing right columns
    when nothing matches. *)
Definition merge_left {A B C} (matches : A -> B -> Prop)
    `{forall a b, Decision (matches a b)}
    (combine : A -> option B -> C) (left : list A) (right : list B) : list C :=
  flat_map (fun a =>
    match filter (matches a) right with
    | [] => [combine a None]
    | ms => map (fun b => combine a (Some b)) ms
    end) left.

(** ** Profile builder: [get_profiles] *)

Definition visit_leb (a b : visit) : bool :=
  Z.ltb (v_user_id a) (v_user_id b)
  || (Z.eqb (v_user_id a) (v_user_id b)
      && Z.leb (v_session_start a) (v_session_start b)).

(** [sort_values(by=['user_id','session_start']).groupby('user_id').agg('first')] *)
Definition first_visits (visits : list visit) : list visit :=
  omap (fun g => head (snd g))
       (groupby Z.leb v_user_id (sort_by visit_leb visits)).

Definition visit_dt (v : visit) : Z := date_of (v_session_start v).

(** [profiles['user_id'].isin(orders['user_id'].unique())] *)
Definition is_payer (orders : list purchase) (u : Z) : bool :=
  bool_decide (u ∈ remove_dups (map p_user_id orders)).

Definition acq_key : Type := Z * string.

Definition acq_key_leb (a b : acq_key) : bool :=
  Z.ltb (fst a) (fst b)
  || (Z.eqb (fst a) (fst b) && String.leb (snd a) (snd b)).

Definition visit_acq_key (v : visit) : acq_key := (visit_dt v, v_channel v).

(** [profiles.groupby(['dt','channel']).agg({'user_id': 'nunique'})] *)
Definition new_users (firsts : list visit) : list (acq_key * nat) :=
  map (fun g => (fst g, nunique (map v_user_id (snd g))))
      (groupby acq_key_leb visit_acq_key firsts).

(** [ad_costs['dt'].dt.date]: the [.dt] accessor exists on a timestamp column
    only. *)
Fixpoint dt_dates (ad_costs : list ad_cost) : result (list Z) :=
  match ad_costs with
  | [] => Ok []
  | a :: rest =>
      match ac_dt a with
      | Stamp ts => ds ← dt_dates rest; Ok (date_of ts :: ds)
      | Day _ => Err (AttributeError "Can only use .dt accessor with datetimelike values")
      end
  end.

(** [ad_costs['dt'] = ...]: the column is replaced in the table itself. *)
Definition set_dt (ad_costs : list ad_cost) (ds : list Z) : list ad_cost :=
  zip_with (fun a d =>
    {| ac_dt := Day d; ac_channel := ac_channel a; ac_costs := ac_costs a |})
    ad_costs ds.

(** Rows of [ad_costs] after the merge with [new_users] and the division. *)
Record ad_cost_row := {
  acr_dt : datecell;
  acr_channel : string;
  acr_costs : Q;
  acr_unique_users : option nat;
  acr_acquisition_cost : option Q
}.

Definition ad_matches_users (a : ad_cost) (n : acq_key * nat) : Prop :=
  ac_dt a = Day (fst (fst n)) /\ ac_channel a = snd (fst n).

#[global] Instance ad_matches_users_dec a n : Decision (ad_matches_users a n).
Proof. unfold ad_matches_users. apply _. Defined.

(** [ad_costs.merge(new_users, on=['dt','channel'], how='left')] followed by
    [ad_costs['costs'] / ad_costs['unique_users']]. *)
Definition with_acquisition_cost (ad_costs : list ad_cost)
    (users : list (acq_key * nat)) : list ad_cost_row :=
  merge_left ad_matches_users
    (fun a n =>
       let uu := snd <$> n in
       {| acr_dt := ac_dt a; acr_channel := ac_channel a;
          acr_costs := ac_costs a;
          acr_unique_users := uu;
          acr_acquisition_cost :=
            (fun k => (ac_costs a / inject_Z (Z.of_nat k))%Q) <$> uu |})
    ad_costs users.

Definition profile_matches_ad (v : visit) (a : ad_cost_row) : Prop :=
  acr_dt a = Day (visit_dt v) /\ acr_channel a = v_channel v.

#[global] Instance profile_matches_ad_dec v a : Decision (profile_matches_ad v a).
Proof. unfold profile_matches_ad. apply _. Defined.

(** [fillna(0)] on one cell *)
Definition fillna0 (c : option Q) : Q := default 0%Q c.

Definition mk_profile (orders : list purchase) (v : visit) (cost : option Q)
    : profile :=
  {| user_id := v_user_id v;
     first_ts := v_session_start v;
     channel := v_channel v;
     device := v_device v;
     region := v_region v;
     dt := visit_dt v;
     month := month_of (v_session_start v);
     payer := is_payer orders (v_user_id v);
     acquisition_cost := fillna0 cost |}.

(** The body of [get_profiles] after the [dt] column of [ad_costs] has been
    replaced by dates. *)
Definition build_profiles (visits : list visit) (orders : list purchase)
    (ad_costs : list ad_cost) : list profile :=
  let firsts := first_visits visits in
  let costs := with_acquisition_cost ad_costs (new_users firsts) in
  merge_left profile_matches_ad
    (fun v a => mk_profile orders v (a ≫= acr_acquisition_cost))
    firsts costs.

Definition get_profiles (visits : list visit) (orders : list purchase)
    (ad_costs : list ad_cost) : result (list profile) :=
  ds ← dt_dates ad_costs;
  Ok (build_profiles visits orders (set_dt ad_costs ds)).

(** ** Joined rows and the horizon filter *)

(** Rows of [result_raw]: a profile, the event merged onto it (if any, with
    its revenue when the event table has one) and its lifetime. *)
Record jrow := {
  j_profile : profile;
  j_event : option Z;
  j_revenue : option Q;
  j_lifetime : option Z
}.

Definition last_suitable_acquisition_date (observation_date horizon_days : Z)
    (ignore_horizon : bool) : Z :=
  if negb ignore_horizon then observation_date - (horizon_days - 1)
  else observation_date.

(** [profiles.query('dt <= @last_suitable_acquisition_date')] *)
Definition horizon_filter (profiles : list profile)
    (observation_date horizon_days : Z) (ignore_horizon : bool) : list profile :=
  filter (fun p => dt p <=
            last_suitable_acquisition_date observation_date horizon_days
              ignore_horizon)
         profiles.

Definition mk_jrow (p : profile) (event : option Z) (revenue : option Q) : jrow :=
  {| j_profile := p;
     j_event := event;
     j_revenue := revenue;
     (* (event - first_ts).dt.days, missing when the event is *)
     j_lifetime := (fun e => days_between e (first_ts p)) <$> event |}.

(** [result_raw]: the joined rows, and the constant [cohort] column when it
    was added. *)
Record raw_table := {
  rt_rows : list jrow;
  rt_cohort : option string
}.

(** ** Cohort aggregator: the pieces shared by the three [group_by_dimensions] *)

(** The columns a dimension may name: the profile attributes and [cohort].
    ([None]: no such column, a [KeyError] in the source.)  The columns the
    join adds to the raw table (the time of the event, its revenue, the
    lifetime) are left out: the engines group by attributes of the
    profiles. *)
Definition dim_cell (cohort : option string) (name : string) (r : jrow)
    : option cell :=
  let p := j_profile r in
  if String.eqb name "user_id" then Some (CInt (user_id p))
  else if String.eqb name "first_ts" then Some (CStamp (first_ts p))
  else if String.eqb name "channel" then Some (CStr (channel p))
  else if String.eqb name "device" then Some (CStr (device p))
  else if String.eqb name "region" then Some (CStr (region p))
  else if String.eqb name "dt" then Some (CDate (dt p))
  else if String.eqb name "month" then Some (CInt (month p))
  else if String.eqb name "payer" then Some (CBool (payer p))
  else if String.eqb name "acquisition_cost"
       then Some (CNum (Qred (acquisition_cost p)))
  else if String.eqb name "cohort" then CStr <$> cohort
  else None.

Definition dim_known (cohort : option string) (name : string) : bool :=
  (existsb (String.eqb name)
     ["user_id"; "first_ts"; "channel"; "device"; "region"; "dt"; "month";
      "payer"; "acquisition_cost"])
  || (String.eqb name "cohort" && bool_decide (is_Some cohort)).

Definition unknown_dims (cohort : option string) (dims : list string)
    : list string :=
  List.filter (fun n => negb (dim_known cohort n)) dims.

(** The dimension tuple of a row. *)
Definition row_key (cohort : option string) (dims : list string) (r : jrow)
    : dimkey :=
  omap (fun n => dim_cell cohort n r) dims.

Definition j_user_id (r : jrow) : Z := user_id (j_profile r).

Definition Qnat (n : nat) : Q := inject_Z (Z.of_nat n).

(** A pivoted table: lifetime columns and, per dimension tuple, one cell per
    column, missing where no row fell. *)
Record wide := {
  w_columns : list Z;
  w_rows : list (dimkey * list (option Q))
}.

(** A finished cohort table. *)
Record cohort_row := {
  cr_key : dimkey;
  cr_cohort_size : nat;
  cr_cells : list Q
}.

Record cohort_table := {
  ct_days : list Z;
  ct_rows : list cohort_row
}.

(** [list(range(horizon_days))] *)
Definition day_range (horizon_days : Z) : list Z :=
  map Z.of_nat (seq 0 (Z.to_nat horizon_days)).

Fixpoint lookup_col {A} (cols : list Z) (cells : list A) (d : Z) : option A :=
  match cols, cells with
  | c :: cols', x :: cells' =>
      if decide (c = d) then Some x else lookup_col cols' cells' d
  | _, _ => None
  end.

(** Running total left to right. *)
Fixpoint cumsum_from (acc : Q) (l : list Q) : list Q :=
  match l with
  | [] => []
  | x :: l' => (acc + x)%Q :: cumsum_from (acc + x)%Q l'
  end.
Definition cumsum (l : list Q) : list Q := cumsum_from 0%Q l.

Section Aggregator.
Context (cohort : option string) (dims : list string).

Definition key_of (r : jrow) : dimkey := row_key cohort dims r.

(** [pivot_table] ignores the rows whose [lifetime] is missing. *)
Definition event_rows (df : list jrow) : list jrow :=
  filter (fun r => is_Some (j_lifetime r)) df.

Definition pivot_columns (df : list jrow) : list Z :=
  sort_by Z.leb (remove_dups (omap j_lifetime df)).

Definition pivot_index (df : list jrow) : list dimkey :=
  group_keys key_leb key_of (event_rows df).

Definition cell_rows (df : list jrow) (k : dimkey) (c : Z) : list jrow :=
  filter (fun r => key_of r = k /\ j_lifetime r = Some c) df.

Definition pivot_cell (agg : list jrow -> Q) (df : list jrow)
    (k : dimkey) (c : Z) : option Q :=
  match cell_rows df k c with
  | [] => None
  | rs => Some (agg rs)
  end.

(** [df.pivot_table(index=dims, columns='lifetime', values=..., aggfunc=...)] *)
Definition pivot_table (agg : list jrow -> Q) (df : list jrow) : wide :=
  let cols := pivot_columns df in
  {| w_columns := cols;
     w_rows := map (fun k => (k, map (pivot_cell agg df k) cols))
                   (pivot_index df) |}.

(** [aggfunc='nunique'] on [user_id] *)
Definition agg_nunique (rs : list jrow) : Q :=
  Qnat (nunique (map j_user_id rs)).

(** [aggfunc='sum'] on [revenue] (missing values are skipped) *)
Definition agg_revenue (rs : list jrow) : Q :=
  Qsum (omap j_revenue rs).

(** [result.fillna(0).cumsum(axis=1)] *)
Definition fillna_cumsum (w : wide) : wide :=
  {| w_columns := w_columns w;
     w_rows := map (fun kr => (fst kr, map Some (cumsum (map fillna0 (snd kr)))))
                   (w_rows w) |}.

(** [df.groupby(dims).agg({'user_id': 'nunique'})] *)
Definition cohort_sizes (df : list jrow) : list (dimkey * nat) :=
  map (fun g => (fst g, nunique (map j_user_id (snd g))))
      (groupby key_leb key_of df).

Definition same_key {A B} (a : dimkey * A) (b : dimkey * B) : Prop :=
  fst a = fst b.

#[global] Instance same_key_dec {A B} (a : dimkey * A) (b : dimkey * B)
  : Decision (same_key a b).
Proof. unfold same_key. apply _. Defined.

(** [cohort_sizes.merge(result, on=dims, how='left').fillna(0)] *)
Definition merge_sizes (sizes : list (dimkey * nat)) (w : wide)
    : list (dimkey * nat * list Q) :=
  merge_left same_key
    (fun s r =>
       (fst s, snd s,
        map fillna0
            (match r with
             | Some kr => snd kr
             | None => map (fun _ => None) (w_columns w)
             end)))
    sizes (w_rows w).

(** [result.div(result['cohort_size'], axis=0)] on the lifetime columns *)
Definition div_by_size (n : nat) (cells : list Q) : list Q :=
  map (fun x => (x / Qnat n)%Q) cells.

Definition missing_days (cols : list Z) (horizon_days : Z) : list Z :=
  filter (fun d => d ∉ cols) (day_range horizon_days).

Definition select_days (cols : list Z) (horizon_days : Z) (cells : list Q)
    : list Q :=
  omap (lookup_col cols cells) (day_range horizon_days).

(** The merge, the division by the cohort size, the selection
    [result[['cohort_size'] + list(range(horizon_days))]] (a [KeyError]
    naming the labels that are no column), and the assignment that puts
    the cohort sizes back. *)
Definition finish_table (horizon_days : Z) (sizes : list (dimkey * nat))
    (w : wide) : result cohort_table :=
  let merged := merge_sizes sizes w in
  match missing_days (w_columns w) horizon_days with
  | [] =>
      Ok {| ct_days := day_range horizon_days;
            ct_rows :=
              map (fun r =>
                     let '(k, n, cells) := r in
                     {| cr_key := k;
                        cr_cohort_size := n;
                        cr_cells := select_days (w_columns w) horizon_days
                                      (div_by_size n cells) |})
                  merged |}
  | ms => Err (KeyError (map LDay ms))
  end.

(** What [pivot_table(index=dims, columns='lifetime', values=...)] does with
    the dimensions before it aggregates.  It keeps the columns
    [dims + ['lifetime', values]] of the frame, a label that comes twice
    selecting its column twice, and groups by the dimensions in their order:
    a dimension that is no column raises [KeyError], a dimension that now
    names two columns raises [ValueError] (the grouper is not 1-dimensional).
    The first dimension at fault decides. *)
Fixpoint first_bad_dimension (labels todo : list string) : option error :=
  match todo with
  | [] => None
  | n :: rest =>
      if negb (dim_known cohort n) then Some (KeyError [LName n])
      else if Nat.ltb 1 (count_occ String.string_dec labels n)
      then Some (ValueError ("Grouper for '" ++ n ++ "' not 1-dimensional"))
      else first_bad_dimension labels rest
  end.

Definition check_dims (values : string) : result unit :=
  match first_bad_dimension (dims ++ [values]) dims with
  | None => Ok tt
  | Some e => Err e
  end.

(** [group_by_dimensions] of [get_conversion] *)
Definition conversion_group_by_dimensions (df : list jrow) (horizon_days : Z)
    : result cohort_table :=
  _ ← check_dims "user_id";
  let result := pivot_table agg_nunique df in
  let result := fillna_cumsum result in
  finish_table horizon_days (cohort_sizes df) result.

(** [group_by_dimensions] of [get_retention]: no running total *)
Definition retention_group_by_dimensions (df : list jrow) (horizon_days : Z)
    : result cohort_table :=
  _ ← check_dims "user_id";
  let result := pivot_table agg_nunique df in
  finish_table horizon_days (cohort_sizes df) result.
End Aggregator.

(** ** Return on investment *)

(** A float that may have left the rationals, through a division by zero or
    through a quotient too large for a float64. *)
Inductive fcell :=
  | Fin (q : Q)
  | PosInf
  | NegInf
  | NaN.

(** The largest float64 is [2^1024 - 2^971]; a quotient whose size reaches
    [2^1024 - 2^970], half a step beyond it, is rounded to an infinity. *)
Definition float_overflow : Q := inject_Z (2 ^ 1024 - 2 ^ 970).

Definition fdiv (a b : Q) : fcell :=
  if Qeq_bool b 0 then
    match (a ?= 0)%Q with
    | Gt => PosInf
    | Lt => NegInf
    | Eq => NaN
    end
  else
    let q := (a / b)%Q in
    if Qle_bool float_overflow q then PosInf
    else if Qle_bool q (- float_overflow) then NegInf
    else Fin q.

(** Division by an index-aligned series: no partner, no value. *)
Definition fdiv_aligned (a : Q) (b : option Q) : fcell :=
  match b with
  | Some b => fdiv a b
  | None => NaN
  end.

Definition is_pos_inf (x : fcell) : bool :=
  match x with PosInf => true | _ => false end.

Record roi_row := {
  rr_key : dimkey;
  rr_cohort_size : nat;
  rr_cac : option Q;
  rr_cells : list fcell
}.

Record roi_table := {
  roi_days : list Z;
  roi_rows : list roi_row
}.

Section Roi.
Context (cohort : option string) (dims : list string).

(** [df[['user_id','acquisition_cost'] + dims].drop_duplicates()] then
    [groupby(dims).agg({'acquisition_cost': 'mean'})] *)
Definition cac_table (df : list jrow) : list (dimkey * Q) :=
  let cac :=
    drop_duplicates
      (map (fun r => (j_user_id r, Qred (acquisition_cost (j_profile r)),
                      key_of cohort dims r)) df) in
  map (fun g => (fst g, Qmean (map (fun t => snd (fst t)) (snd g))))
      (groupby key_leb (fun t : Z * Q * dimkey => snd t) cac).

(** The entry of [cac['cac']] aligned with the row labelled [k]. *)
Definition cac_at (cac : list (dimkey * Q)) (k : dimkey) : option Q :=
  snd <$> head (filter (fun kc => fst kc = k) cac).

(** [result.div(cac['cac'], axis=0)], [roi[~roi['cohort_size'].isin([np.inf])]],
    then the [cohort_size] and [cac] columns are assigned.  The assignment
    [roi['cohort_size'] = cohort_sizes] aligns the sizes with the rows that
    are left; on a frame the filter has left without rows it gives the frame
    the index of [cohort_sizes], the other columns missing. *)
Definition roi_of (sizes : list (dimkey * nat)) (cac : list (dimkey * Q))
    (result : cohort_table) : roi_table :=
  let divided :=
    map (fun r =>
           let c := cac_at cac (cr_key r) in
           (r, fdiv_aligned (Qnat (cr_cohort_size r)) c,
            map (fun x => fdiv_aligned x c) (cr_cells r)))
        (ct_rows result) in
  let kept :=
    List.filter (fun t => negb (is_pos_inf (snd (fst t)))) divided in
  {| roi_days := ct_days result;
     roi_rows :=
       match kept with
       | [] =>
           map (fun s =>
                  {| rr_key := fst s;
                     rr_cohort_size := snd s;
                     rr_cac := cac_at cac (fst s);
                     rr_cells := map (fun _ => NaN) (ct_days result) |})
               sizes
       | _ =>
           map (fun t =>
                  let r := fst (fst t) in
                  {| rr_key := cr_key r;
                     rr_cohort_size := cr_cohort_size r;
                     rr_cac := cac_at cac (cr_key r);
                     rr_cells := snd t |})
               kept
       end |}.

(** [group_by_dimensions] of [get_ltv] *)
Definition ltv_group_by_dimensions (df : list jrow) (horizon_days : Z)
    : result (cohort_table * roi_table) :=
  _ ← check_dims cohort dims "revenue";
  let result := pivot_table cohort dims agg_revenue df in
  let result := fillna_cumsum result in
  result ← finish_table horizon_days (cohort_sizes cohort dims df) result;
  let cac := cac_table df in
  Ok (result, roi_of (cohort_sizes cohort dims df) cac result).
End Roi.

(** ** The three engines *)

Definition purchase_leb (a b : purchase) : bool :=
  Z.ltb (p_user_id a) (p_user_id b)
  || (Z.eqb (p_user_id a) (p_user_id b)
      && Z.leb (p_event_dt a) (p_event_dt b)).

(** [purchases.sort_values(by=['user_id','event_dt']).groupby('user_id')
    .agg({'event_dt': 'first'}).reset_index()] *)
Definition first_purchases (purchases : list purchase) : list (Z * Z) :=
  omap (fun g => (fun p => (p_user_id p, p_event_dt p)) <$> head (snd g))
       (groupby Z.leb p_user_id (sort_by purchase_leb purchases)).

(** The [cohort] column and the dimensions of the static table. *)
Definition cohort_column (dimensions : list string) : option string :=
  match dimensions with
  | [] => Some "All users"
  | _ => None
  end.

Definition static_dimensions (dimensions : list string) : list string :=
  match dimensions with
  | [] => dimensions ++ ["cohort"]
  | _ => dimensions
  end.

(** The dimensions of the dynamics table: [cohort] gives way, [dt] is added. *)
Definition dynamic_dimensions (dimensions : list string) : list string :=
  (if decide ("cohort" ∈ dimensions) then [] else dimensions) ++ ["dt"].

(** The join condition of [merge(..., on='user_id')]. *)
Definition on_user_id {B} (uid : B -> Z) (p : profile) (b : B) : Prop :=
  user_id p = uid b.

#[global] Instance on_user_id_dec {B} (uid : B -> Z) p b
  : Decision (on_user_id uid p b).
Proof. unfold on_user_id. apply _. Defined.

Section Engines.
Context (observation_date horizon_days : Z) (ignore_horizon : bool).

Definition conversion_rows (profiles : list profile)
    (purchases : list purchase) : list jrow :=
  let result_raw :=
    horizon_filter profiles observation_date horizon_days ignore_horizon in
  merge_left (on_user_id fst)
    (fun p e => mk_jrow p (snd <$> e) None)
    result_raw (first_purchases purchases).

Definition get_conversion (profiles : list profile)
    (purchases : list purchase) (dimensions : list string)
    : result (raw_table * cohort_table * cohort_table) :=
  let result_raw := conversion_rows profiles purchases in
  let cohort := cohort_column dimensions in
  let dimensions := static_dimensions dimensions in
  result_grouped ←
    conversion_group_by_dimensions cohort dimensions result_raw horizon_days;
  result_in_time ←
    conversion_group_by_dimensions cohort (dynamic_dimensions dimensions)
      result_raw horizon_days;
  Ok ({| rt_rows := result_raw; rt_cohort := cohort |},
      result_grouped, result_in_time).

Definition retention_rows (profiles : list profile)
    (sessions : list session) : list jrow :=
  let result_raw :=
    horizon_filter profiles observation_date horizon_days ignore_horizon in
  merge_left (on_user_id s_user_id)
    (fun p s => mk_jrow p (s_session_start <$> s) None)
    result_raw sessions.

Definition get_retention (profiles : list profile)
    (sessions : list session) (dimensions : list string)
    : result (raw_table * cohort_table * cohort_table) :=
  let dimensions := "payer" :: dimensions in
  let result_raw := retention_rows profiles sessions in
  result_grouped ←
    retention_group_by_dimensions None dimensions result_raw horizon_days;
  result_in_time ←
    retention_group_by_dimensions None (dimensions ++ ["dt"])
      result_raw horizon_days;
  Ok ({| rt_rows := result_raw; rt_cohort := None |},
      result_grouped, result_in_time).

Definition ltv_rows (profiles : list profile)
    (purchases : list purchase) : list jrow :=
  let result_raw :=
    horizon_filter profiles observation_date horizon_days ignore_horizon in
  merge_left (on_user_id p_user_id)
    (fun p e => mk_jrow p (p_event_dt <$> e) (p_revenue <$> e))
    result_raw purchases.

Definition get_ltv (profiles : list profile)
    (purchases : list purchase) (dimensions : list string)
    : result (raw_table * cohort_table * cohort_table
              * roi_table * roi_table) :=
  let result_raw := ltv_rows profiles purchases in
  let cohort := cohort_column dimensions in
  let dimensions := static_dimensions dimensions in
  grouped ←
    ltv_group_by_dimensions cohort dimensions result_raw horizon_days;
  in_time ←
    ltv_group_by_dimensions cohort (dynamic_dimensions dimensions)
      result_raw horizon_days;
  Ok ({| rt_rows := result_raw; rt_cohort := cohort |},
      fst grouped, fst in_time, snd grouped, snd in_time).
End Engines.

(** ** Time smoother: [filter_data] *)

(** A numeric table: named columns of equally many cells. *)
Definition num_table := list (string * list (option Q)).

(** The last [w] cells ending at row [i], when there are that many. *)
Definition window_at (w : nat) (col : list (option Q)) (i : nat)
    : option (list (option Q)) :=
  if decide (w <= S i)%nat then Some (take w (drop (S i - w) col)) else None.

(** [rolling(window).mean()] at row [i]: defined when the window is full and
    holds no missing value. *)
Definition rolling_mean_at (w : nat) (col : list (option Q)) (i : nat)
    : option Q :=
  cells ← window_at w col i;
  xs ← mapM id cells;
  if decide (w = 0)%nat then None else Some (Qmean xs).

Definition rolling_mean (w : nat) (col : list (option Q)) : list (option Q) :=
  map (rolling_mean_at w col) (seq 0 (length col)).

(** One turn of the loop [for column in df.columns.values:
    df[column] = df[column].rolling(window).mean()].  [df[column]] is every
    column labelled [column], and the assignment replaces them all. *)
Definition smooth_column (w : nat) (df : num_table) (column : string)
    : num_table :=
  map (fun nc => if decide (fst nc = column)
                 then (fst nc, rolling_mean w (snd nc)) else nc) df.

(** The loop, over the labels the table had when it started: the sequence
    of tables the variable [df] goes through. *)
Definition smooth_columns (w : nat) (df : num_table) : num_table :=
  fold_left (smooth_column w) (map fst df) df.

Definition filter_data_table (df : num_table) (window : nat) : num_table :=
  smooth_columns window df.

(** ** Tables as objects

    The functions above compute on table values.  To speak about which table
    objects a call writes to, the tables the caller can reach live in a heap,
    a reference is a position in it, [df[column] = ...] on a parameter is a
    write at the reference that was passed, and an operation that builds a
    DataFrame ([query], [merge], [pivot_table], [groupby] ...) yields a fresh
    object.  Objects a call builds and does not return stay out of the heap. *)

Inductive table :=
  | TVisits (rows : list visit)
  | TPurchases (rows : list purchase)
  | TSessions (rows : list session)
  | TAdCosts (rows : list ad_cost)
  | TProfiles (rows : list profile)
  | TRaw (t : raw_table)
  | TCohort (t : cohort_table)
  | TRoi (t : roi_table)
  | TNum (t : num_table).

Abbreviation heap := (list table).
Definition ref := nat.

Definition prog (A : Type) : Type := heap -> result (A * heap).

#[global] Instance prog_ret : MRet prog := fun A a h => Ok (a, h).
#[global] Instance prog_bind : MBind prog := fun A B f m h =>
  match m h with
  | Ok (a, h') => f a h'
  | Err e => Err e
  end.

Module Obj.

Definition alloc (t : table) : prog ref :=
  fun h => Ok (length h, h ++ [t]).

Definition load (r : ref) : prog table :=
  fun h =>
    match h !! r with
    | Some t => Ok (t, h)
    | None => Err (TypeError "no such object")
    end.

Definition store (r : ref) (t : table) : prog unit :=
  fun h => Ok (tt, <[r := t]> h).

Definition lift {A} (m : result A) : prog A :=
  fun h =>
    match m with
    | Ok a => Ok (a, h)
    | Err e => Err e
    end.

Definition expect {A} (sel : table -> option A) (r : ref) : prog A :=
  t ← load r;
  match sel t with
  | Some a => mret a
  | None => lift (Err (TypeError "not the expected table"))
  end.

Definition as_visits t := match t with TVisits l => Some l | _ => None end.
Definition as_purchases t := match t with TPurchases l => Some l | _ => None end.
Definition as_sessions t := match t with TSessions l => Some l | _ => None end.
Definition as_ad_costs t := match t with TAdCosts l => Some l | _ => None end.
Definition as_profiles t := match t with TProfiles l => Some l | _ => None end.
Definition as_num t := match t with TNum l => Some l | _ => None end.

Definition get_profiles (visits orders ad_costs : ref) : prog ref :=
  vs ← expect as_visits visits;
  os ← expect as_purchases orders;
  ac ← expect as_ad_costs ad_costs;
  ds ← lift (dt_dates ac);
  (* ad_costs['dt'] = ad_costs['dt'].dt.date *)
  _ ← store ad_costs (TAdCosts (set_dt ac ds));
  ac ← expect as_ad_costs ad_costs;
  alloc (TProfiles (build_profiles vs os ac)).

Definition get_conversion (profiles purchases : ref)
    (observation_date horizon_days : Z) (dimensions : list string)
    (ignore_horizon : bool) : prog (ref * ref * ref) :=
  ps ← expect as_profiles profiles;
  es ← expect as_purchases purchases;
  out ← lift (get_conversion observation_date horizon_days ignore_horizon
                ps es dimensions);
  let '(raw, grouped, in_time) := out in
  r1 ← alloc (TRaw raw);
  r2 ← alloc (TCohort grouped);
  r3 ← alloc (TCohort in_time);
  mret (r1, r2, r3).

Definition get_retention (profiles sessions : ref)
    (observation_date horizon_days : Z) (dimensions : list string)
    (ignore_horizon : bool) : prog (ref * ref * ref) :=
  ps ← expect as_profiles profiles;
  ss ← expect as_sessions sessions;
  out ← lift (get_retention observation_date horizon_days ignore_horizon
                ps ss dimensions);
  let '(raw, grouped, in_time) := out in
  r1 ← alloc (TRaw raw);
  r2 ← alloc (TCohort grouped);
  r3 ← alloc (TCohort in_time);
  mret (r1, r2, r3).

Definition get_ltv (profiles purchases : ref)
    (observation_date horizon_days : Z) (dimensions : list string)
    (ignore_horizon : bool) : prog (ref * ref * ref * ref * ref) :=
  ps ← expect as_profiles profiles;
  es ← expect as_purchases purchases;
  out ← lift (get_ltv observation_date horizon_days ignore_horizon
                ps es dimensions);
  let '(raw, grouped, in_time, roi_grouped, roi_in_time) := out in
  r1 ← alloc (TRaw raw);
  r2 ← alloc (TCohort grouped);
  r3 ← alloc (TCohort in_time);
  r4 ← alloc (TRoi roi_grouped);
  r5 ← alloc (TRoi roi_in_time);
  mret (r1, r2, r3, r4, r5).

(** One turn of the loop of [filter_data]: [df[column] = ...] writes into
    the object [df] refers to. *)
Definition smooth_step (df : ref) (window : nat) (column : string)
    : prog unit :=
  t ← expect as_num df;
  store df (TNum (smooth_column window t column)).

Fixpoint for_each {A} (body : A -> prog unit) (l : list A) : prog unit :=
  match l with
  | [] => mret tt
  | i :: l' => _ ← body i; for_each body l'
  end.

Definition filter_data (df : ref) (window : nat) : prog ref :=
  t ← expect as_num df;
  _ ← for_each (smooth_step df window) (map fst t);
  mret df.

(** A call leaves the objects that existed before it as they were. *)
Definition leaves_heap_unmodified {A} (call : prog A) : Prop :=
  forall h a h', call h = Ok (a, h') ->
    forall r : ref, (r < length h)%nat -> h' !! r = h !! r.

End Obj.

(** ** Vocabulary of the statements *)

(** The acquisition date an ad-cost row is about. *)
Definition ad_cost_date (a : ad_cost) : Z :=
  match ac_dt a with
  | Stamp ts => date_of ts
  | Day d => d
  end.

(** The dimension tuple a profile maps to. *)
Definition profile_key (cohort : option string) (dims : list string)
    (p : profile) : dimkey :=
  row_key cohort dims (mk_jrow p None None).

(** The number of distinct users among [eligible] mapping to tuple [k]. *)
Definition cohort_size_of (eligible : list profile) (cohort : option string)
    (dims : list string) (k : dimkey) : nat :=
  nunique (map user_id
             (filter (fun p => profile_key cohort dims p = k) eligible)).

Definition table_sizes (t : cohort_table) : list (dimkey * nat) :=
  map (fun r => (cr_key r, cr_cohort_size r)) (ct_rows t).

Definition roi_sizes (t : roi_table) : list (dimkey * nat) :=
  map (fun r => (rr_key r, rr_cohort_size r)) (roi_rows t).

(** Every listed size is the count of the users of its tuple. *)
Definition sizes_exact (eligible : list profile) (cohort : option string)
    (dims : list string) (sizes : list (dimkey * nat)) : Prop :=
  forall k n, (k, n) ∈ sizes -> n = cohort_size_of eligible cohort dims k.

(** Every profile's tuple is listed, whether or not the profile has events. *)
Definition sizes_cover (eligible : list profile) (cohort : option string)
    (dims : list string) (sizes : list (dimkey * nat)) : Prop :=
  forall p, p ∈ eligible ->
    exists n, (profile_key cohort dims p, n) ∈ sizes.

(** The cohort of the row [r] of an LTV table has a mean acquisition cost
    that [isin([np.inf])] lets through: it is not 0, and not so small that
    the cohort size divided by it is beyond the floats. *)
Definition cac_usable (cac : list (dimkey * Q)) (r : cohort_row) : Prop :=
  exists c, (cr_key r, c) ∈ cac /\ ~ (c == 0)%Q /\
            ~ (float_overflow <= inject_Z (Z.of_nat (cr_cohort_size r)) / c)%Q.

(** The filter [~roi['cohort_size'].isin([np.inf])] keeps the row made from
    the row [r] of the LTV table. *)
Definition roi_keeps (cac : list (dimkey * Q)) (r : cohort_row) : Prop :=
  is_pos_inf (fdiv_aligned (Qnat (cr_cohort_size r)) (cac_at cac (cr_key r)))
  = false.

#[global] Instance roi_keeps_dec cac r : Decision (roi_keeps cac r).
Proof. unfold roi_keeps. apply _. Defined.

(** The ROI row made from the row [r] of the LTV table. *)
Definition roi_row_of (cac : list (dimkey * Q)) (r : cohort_row) : roi_row :=
  {| rr_key := cr_key r;
     rr_cohort_size := cr_cohort_size r;
     rr_cac := cac_at cac (cr_key r);
     rr_cells := map (fun x => fdiv_aligned x (cac_at cac (cr_key r)))
                     (cr_cells r) |}.

(** The row the ROI table has for the cohort [s] when the filter has kept
    no row at all. *)
Definition blank_roi_row (cac : list (dimkey * Q)) (days : list Z)
    (s : dimkey * nat) : roi_row :=
  {| rr_key := fst s;
     rr_cohort_size := snd s;
     rr_cac := cac_at cac (fst s);
     rr_cells := map (fun _ => NaN) days |}.

(** What the ROI table [roi] derived from the LTV table [ltv] and the mean
    acquisition costs [cac] does with cohorts of zero cost: they have no row;
    the rows it has carry a nonzero [cac]; and no cohort of [ltv] with a
    usable [cac] is dropped. *)
Definition roi_excludes_zero_cac (cac : list (dimkey * Q))
    (ltv : cohort_table) (roi : roi_table) : Prop :=
  (forall k c, (k, c) ∈ cac -> (c == 0)%Q -> k ∉ map rr_key (roi_rows roi)) /\
  (forall row, row ∈ roi_rows roi ->
     exists c, rr_cac row = Some c /\ (rr_key row, c) ∈ cac /\ ~ (c == 0)%Q) /\
  (forall r, r ∈ ct_rows ltv -> cac_usable cac r ->
     cr_key r ∈ map rr_key (roi_rows roi)).

(** Cells that never decrease from one lifetime day to the next. *)
Definition nondecreasing (cells : list Q) : Prop :=
  forall (i j : nat) (x y : Q), (i <= j)%nat ->
    cells !! i = Some x -> cells !! j = Some y -> (x <= y)%Q.

(** Cells that are rates. *)
Definition within_unit (cells : list Q) : Prop :=
  Forall (fun x => (0 <= x)%Q /\ (x <= 1)%Q) cells.

(** The heap [h'] is [h] followed by the new [tables], and [refs] are the
    positions of these. *)
Definition fresh_results (h h' : heap) (refs : list ref)
    (tables : list table) : Prop :=
  h' = h ++ tables /\ refs = seq (length h) (length tables).

(** The profile attributes, the names a caller may pass as dimensions. *)
Definition profile_columns : list string :=
  ["user_id"; "first_ts"; "channel"; "device"; "region"; "dt"; "month";
   "payer"; "acquisition_cost"].

(** The dimension lists the engines are meant for: distinct names of profile
    attributes, [user_id] apart, which is the column the cohorts count. *)
Definition dimensions_valid (dimensions : list string) : Prop :=
  NoDup dimensions /\
  Forall (fun n => n ∈ profile_columns /\ n <> "user_id") dimensions.

(** Every lifetime day below the horizon is the lifetime of some joined row. *)
Definition days_covered (rows : list jrow) (horizon_days : Z) : Prop :=
  forall d, 0 <= d < horizon_days ->
    exists r, r ∈ rows /\ j_lifetime r = Some d.

Definition is_Ok {A} (m : result A) : Prop := exists a, m = Ok a.

(** The rows of a pivot hold one cell per column. *)
Definition aligned (w : wide) : Prop :=
  ∀ kr, kr ∈ w_rows w → length (snd kr) = length (w_columns w).

Definition table_shape (h : Z) (tbl : cohort_table) : Prop :=
  ct_days tbl = map Z.of_nat (seq 0 (Z.to_nat h)) ∧
  ∀ row, row ∈ ct_rows tbl → length (cr_cells row) = Z.to_nat h.

Definition roi_shape (h : Z) (tbl : roi_table) : Prop :=
  roi_days tbl = map Z.of_nat (seq 0 (Z.to_nat h)) ∧
  ∀ row, row ∈ roi_rows tbl → length (rr_cells row) = Z.to_nat h.

(** The row's event came no later than lifetime day [d]. *)
Definition lifetime_le (d : Z) (r : jrow) : Prop :=
  match j_lifetime r with
  | Some c => c <= d
  | None => False
  end.

#[global] Instance lifetime_le_dec d r : Decision (lifetime_le d r).
Proof. unfold lifetime_le. destruct (j_lifetime r); apply _. Defined.

(** The joined rows of cohort [k] whose event came by lifetime day [d]. *)
Definition rows_by_day (cohort : option string) (dims : list string)
    (rows : list jrow) (k : dimkey) (d : Z) : list jrow :=
  filter (fun r => key_of cohort dims r = k /\ lifetime_le d r) rows.

(** Cell [i] of every row is the share of the cohort's distinct users with
    an event on lifetime day [i] exactly. *)
Definition daily_share_cells (cohort : option string) (dims : list string)
    (rows : list jrow) (h : Z) (tbl : cohort_table) : Prop :=
  forall row, row ∈ ct_rows tbl ->
    forall i : nat, (i < Z.to_nat h)%nat ->
      cr_cells row !! i =
      Some (inject_Z (Z.of_nat (length (remove_dups (map j_user_id
              (filter (fun r => key_of cohort dims r = cr_key row
                                /\ j_lifetime r = Some (Z.of_nat i)) rows)))))
            / inject_Z (Z.of_nat (cr_cohort_size row)))%Q.

(** Cell [i] of every row is, up to the representation of the rational,
    [total] of the cohort's rows with an event by day [i], per user. *)
Definition cumulative_cells (total : list jrow -> Q)
    (cohort : option string) (dims : list string)
    (rows : list jrow) (h : Z) (tbl : cohort_table) : Prop :=
  forall row, row ∈ ct_rows tbl ->
    forall i : nat, (i < Z.to_nat h)%nat ->
      exists x, cr_cells row !! i = Some x /\
        (x == total (rows_by_day cohort dims rows (cr_key row) (Z.of_nat i))
              / inject_Z (Z.of_nat (cr_cohort_size row)))%Q.

(** How many rows; how much revenue. *)
Definition count_rows (rs : list jrow) : Q :=
  inject_Z (Z.of_nat (length rs)).
Definition revenue_of (rs : list jrow) : Q :=
  fold_right Qplus 0%Q (omap j_revenue rs).

(** The total of a per-row quantity over rows. *)
Definition total_of (m : jrow -> Q) (rs : list jrow) : Q :=
  fold_right Qplus 0%Q (map m rs).


(** The rows of the ad-cost table for acquisition date [d], channel [ch]. *)
Definition matching_ads (ad_costs : list ad_cost) (d : Z) (ch : string)
    : list ad_cost :=
  filter (fun a => ad_cost_date a = d /\ ac_channel a = ch) ad_costs.

(** The profiles acquired on date [d] through channel [ch]. *)
Definition acquired_on (profiles : list profile) (d : Z) (ch : string)
    : list profile :=
  filter (fun q => dt q = d /\ channel q = ch) profiles.

(** The rows of a user in a profile table. *)
Definition rows_of_user (profiles : list profile) (u : Z) : list profile :=
  filter (fun q => user_id q = u) profiles.

(** ** Worked inputs *)

Module Example.

Definition DAY : Z := 86400.

Definition visit_a : visit :=
  {| v_user_id := 1; v_session_start := 100; v_channel := "ads";
     v_device := "Mac"; v_region := "US" |}.
Definition visit_b : visit :=
  {| v_user_id := 2; v_session_start := 7200; v_channel := "ads";
     v_device := "PC"; v_region := "US" |}.
Definition visit_c : visit :=
  {| v_user_id := 3; v_session_start := 300; v_channel := "organic";
     v_device := "PC"; v_region := "UK" |}.

(** 10 spent on channel ads on day 0 *)
Definition ad_costs : list ad_cost :=
  [ {| ac_dt := Stamp 0; ac_channel := "ads"; ac_costs := 10%Q |} ].

(** Two users acquired on day 0 through ads; user 1 buys for 20 on
    lifetime day 2. *)
Definition visits_two : list visit := [visit_a; visit_b].
Definition one_purchase : list purchase :=
  [ {| p_user_id := 1; p_event_dt := 2 * DAY + 500; p_revenue := 20%Q |} ].
Definition profiles_two : list profile :=
  Eval vm_compute in
    match get_profiles visits_two one_purchase ad_costs with
    | Ok ps => ps
    | Err _ => []
    end.

(** The same two users and an organic third; events on lifetime days 0
    and 1. *)
Definition visits_three : list visit := [visit_a; visit_b; visit_c].
Definition purchases_full : list purchase :=
  [ {| p_user_id := 1; p_event_dt := 200; p_revenue := 20%Q |};
    {| p_user_id := 2; p_event_dt := DAY + 7300; p_revenue := 10%Q |};
    {| p_user_id := 3; p_event_dt := 400; p_revenue := 5%Q |};
    {| p_user_id := 1; p_event_dt := DAY + 200; p_revenue := 4%Q |} ].
Definition sessions_full : list session :=
  [ {| s_user_id := 1; s_session_start := 100 |};
    {| s_user_id := 1; s_session_start := DAY + 100 |};
    {| s_user_id := 2; s_session_start := 7200 |};
    {| s_user_id := 3; s_session_start := 300 |} ].
Definition profiles_three : list profile :=
  Eval vm_compute in
    match get_profiles visits_three one_purchase ad_costs with
    | Ok ps => ps
    | Err _ => []
    end.

(** The organic user alone, with a purchase of 5 on lifetime day 0: every
    cohort costs nothing. *)
Definition visits_organic : list visit := [visit_c].
Definition purchases_organic : list purchase :=
  [ {| p_user_id := 3; p_event_dt := 400; p_revenue := 5%Q |} ].
Definition profiles_organic : list profile :=
  Eval vm_compute in
    match get_profiles visits_organic purchases_organic ad_costs with
    | Ok ps => ps
    | Err _ => []
    end.

(** A profile table that lists user 1 twice, with first visits a day
    apart, and the one purchase of that user. *)
Definition profiles_repeated : list profile :=
  [ {| user_id := 1; first_ts := 0; channel := "ads"; device := "Mac";
       region := "US"; dt := 0; month := 1; payer := true;
       acquisition_cost := 0%Q |};
    {| user_id := 1; first_ts := DAY; channel := "ads"; device := "Mac";
       region := "US"; dt := 1; month := 1; payer := true;
       acquisition_cost := 0%Q |} ].
Definition purchase_of_repeated : list purchase :=
  [ {| p_user_id := 1; p_event_dt := DAY + 10; p_revenue := 1%Q |} ].

(** A dynamics table before smoothing, as the only object of a heap. *)
Definition dynamics : num_table :=
  [("conversion", [Some 1%Q; Some 3%Q; Some 5%Q])].
Definition heap_with_dynamics : heap := [TNum dynamics].

(** Profiles and purchases as objects 0 and 1. *)
Definition heap_with_profiles : heap :=
  [TProfiles profiles_three; TPurchases purchases_full].

(** The three input tables of the profile builder as objects 0, 1, 2. *)
Definition heap_with_inputs : heap :=
  [TVisits visits_two; TPurchases one_purchase; TAdCosts ad_costs].

End Example.

(** * Properties *)

(** ** Sorting and grouping *)

Section SortingFacts.
Context {A : Type} (leb : A -> A -> bool).

Lemma insert_sorted_perm x l : insert_sorted leb x l ≡ₚ x :: l.
Proof.
  induction l as [|y l IH]; simpl; [done|].
  destruct (leb x y); [done|].
  rewrite IH. apply Permutation_swap.
Qed.

Lemma sort_by_perm l : sort_by leb l ≡ₚ l.
Proof.
  induction l as [|x l IH]; simpl; [done|].
  by rewrite insert_sorted_perm, IH.
Qed.

Lemma elem_of_sort_by x l : x ∈ sort_by leb l ↔ x ∈ l.
Proof. by rewrite sort_by_perm. Qed.

Lemma NoDup_sort_by l : NoDup l → NoDup (sort_by leb l).
Proof. by rewrite sort_by_perm. Qed.

Lemma length_sort_by l : length (sort_by leb l) = length l.
Proof. by rewrite sort_by_perm. Qed.
End SortingFacts.

Lemma insert_sorted_Z_sorted x l :
  StronglySorted Z.le l → StronglySorted Z.le (insert_sorted Z.leb x l).
Proof.
  induction 1 as [|y l Hs IH Hall]; simpl.
  - repeat constructor.
  - destruct (Z.leb_spec x y) as [Hxy|Hxy].
    + constructor; [by constructor|].
      constructor; [done|].
      eapply Forall_impl; [exact Hall|]. simpl. lia.
    + constructor; [done|].
      apply Forall_forall. intros z Hz.
      rewrite (insert_sorted_perm Z.leb x l) in Hz.
      apply elem_of_cons in Hz as [->|Hz]; [lia|].
      by eapply Forall_forall in Hall.
Qed.

Lemma sort_by_Z_sorted l : StronglySorted Z.le (sort_by Z.leb l).
Proof.
  induction l; simpl; [constructor|]. by apply insert_sorted_Z_sorted.
Qed.

Section GroupByFacts.
Context {A K : Type} `{EqDecision K} (leb : K -> K -> bool) (key : A -> K).

Lemma elem_of_group_keys k l : k ∈ group_keys leb key l ↔ ∃ r, r ∈ l ∧ key r = k.
Proof.
  unfold group_keys. rewrite elem_of_sort_by, elem_of_remove_dups.
  change (map key l) with (key <$> l). rewrite list_elem_of_fmap.
  split; intros (r & ? & ?); eauto.
Qed.

Lemma NoDup_group_keys l : NoDup (group_keys leb key l).
Proof. apply NoDup_sort_by, NoDup_remove_dups. Qed.

Lemma elem_of_groupby k g l :
  (k, g) ∈ groupby leb key l ↔
  (∃ r, r ∈ l ∧ key r = k) ∧ g = group_rows key k l.
Proof.
  unfold groupby. change (map ?f ?x) with (f <$> x).
  rewrite list_elem_of_fmap. setoid_rewrite elem_of_group_keys.
  split.
  - intros (k' & [= -> ->] & Hk). done.
  - intros (Hk & ->). eauto.
Qed.

End GroupByFacts.

Lemma elem_of_group_rows {A K : Type} `{EqDecision K} (key : A -> K) r k l :
  r ∈ group_rows key k l ↔ r ∈ l ∧ key r = k.
Proof. unfold group_rows. rewrite list_elem_of_filter. tauto. Qed.

(** ** Counting distinct values *)

Section Nunique.
Context {A : Type} `{EqDecision A}.

Lemma nunique_subseteq (l k : list A) :
  (∀ x, x ∈ l → x ∈ k) → (nunique l ≤ nunique k)%nat.
Proof.
  intros Hsub. unfold nunique. apply submseteq_length, NoDup_submseteq.
  - apply NoDup_remove_dups.
  - intros x. rewrite !elem_of_remove_dups. auto.
Qed.

Lemma nunique_ext (l k : list A) :
  (∀ x, x ∈ l ↔ x ∈ k) → nunique l = nunique k.
Proof.
  intros Heq. apply Nat.le_antisymm; apply nunique_subseteq;
    intros x; apply Heq.
Qed.

Lemma nunique_NoDup (l : list A) : NoDup l → nunique l = length l.
Proof.
  unfold nunique. induction 1 as [|x l Hx Hl IH]; simpl; [done|].
  destruct (decide_rel elem_of x l); [done|]. simpl. by rewrite IH.
Qed.

Lemma nunique_pos (l : list A) x : x ∈ l → (0 < nunique l)%nat.
Proof.
  intros Hx. unfold nunique. apply elem_of_remove_dups in Hx.
  destruct (remove_dups l); [by apply elem_of_nil in Hx|simpl; lia].
Qed.
End Nunique.

(** ** Left merge *)

Section MergeFacts.
Context {A B C : Type} (matches : A -> B -> Prop)
  `{forall a b, Decision (matches a b)} (combine : A -> option B -> C).

Lemma elem_of_merge_left c left right :
  c ∈ merge_left matches combine left right ↔
  ∃ a, a ∈ left ∧
    ((∃ b, b ∈ right ∧ matches a b ∧ c = combine a (Some b)) ∨
     ((∀ b, b ∈ right → ¬ matches a b) ∧ c = combine a None)).
Proof.
  unfold merge_left. rewrite list_elem_of_In, in_flat_map.
  setoid_rewrite <- list_elem_of_In.
  split.
  - intros (a & Ha & Hc). exists a. split; [done|].
    destruct (filter (matches a) right) as [|b ms] eqn:Hf.
    + right. apply list_elem_of_singleton in Hc. split; [|done].
      intros b Hb Hm.
      assert (b ∈ filter (matches a) right) as Hin
        by (apply list_elem_of_filter; done).
      rewrite Hf in Hin. by apply elem_of_nil in Hin.
    + left. change (map ?f ?x) with (f <$> x) in Hc.
      apply list_elem_of_fmap in Hc as (b' & -> & Hb').
      rewrite <- Hf in Hb'. apply list_elem_of_filter in Hb' as [? ?].
      eauto.
  - intros (a & Ha & [(b & Hb & Hm & ->)|(Hno & ->)]); exists a; (split; [done|]).
    + assert (b ∈ filter (matches a) right) as Hin
        by (apply list_elem_of_filter; done).
      destruct (filter (matches a) right) as [|b' ms]; [by apply elem_of_nil in Hin|].
      change (map ?f ?x) with (f <$> x). apply list_elem_of_fmap. eauto.
    + destruct (filter (matches a) right) as [|b ms] eqn:Hf.
      * apply list_elem_of_singleton. done.
      * exfalso. assert (b ∈ filter (matches a) right) as Hin
          by (rewrite Hf; left).
        apply list_elem_of_filter in Hin as [Hm Hb]. by apply (Hno b).
Qed.
End MergeFacts.

(** ** Horizon filter *)

Lemma elem_of_horizon_filter profiles obs h ign p :
  p ∈ horizon_filter profiles obs h ign ↔
  p ∈ profiles ∧ dt p <= last_suitable_acquisition_date obs h ign.
Proof. unfold horizon_filter. rewrite list_elem_of_filter. tauto. Qed.

Section RawRows.
Context (obs h : Z) (ign : bool) (profiles : list profile).

Lemma conversion_rows_profiles purchases p :
  p ∈ map j_profile (conversion_rows obs h ign profiles purchases) ↔
  p ∈ horizon_filter profiles obs h ign.
Proof.
  unfold conversion_rows. change (map ?f ?x) with (f <$> x).
  rewrite list_elem_of_fmap. setoid_rewrite elem_of_merge_left.
  split.
  - intros (r & -> & a & Ha & [(b & _ & _ & ->)|(_ & ->)]); done.
  - intros Hp.
    destruct (decide (Exists (on_user_id fst p) (first_purchases purchases)))
      as [Hex|Hno].
    + apply Exists_exists in Hex as (b & Hb & Hm).
      exists (mk_jrow p (snd <$> Some b) None). split; [done|].
      exists p. split; [done|]. left. eauto.
    + exists (mk_jrow p None None). split; [done|].
      exists p. split; [done|]. right. split; [|done].
      intros b Hb Hm. apply Hno, Exists_exists. eauto.
Qed.

Lemma retention_rows_profiles sessions p :
  p ∈ map j_profile (retention_rows obs h ign profiles sessions) ↔
  p ∈ horizon_filter profiles obs h ign.
Proof.
  unfold retention_rows. change (map ?f ?x) with (f <$> x).
  rewrite list_elem_of_fmap. setoid_rewrite elem_of_merge_left.
  split.
  - intros (r & -> & a & Ha & [(b & _ & _ & ->)|(_ & ->)]); done.
  - intros Hp.
    destruct (decide (Exists (on_user_id s_user_id p) sessions))
      as [Hex|Hno].
    + apply Exists_exists in Hex as (b & Hb & Hm).
      exists (mk_jrow p (s_session_start <$> Some b) None). split; [done|].
      exists p. split; [done|]. left. eauto.
    + exists (mk_jrow p None None). split; [done|].
      exists p. split; [done|]. right. split; [|done].
      intros b Hb Hm. apply Hno, Exists_exists. eauto.
Qed.

Lemma ltv_rows_profiles purchases p :
  p ∈ map j_profile (ltv_rows obs h ign profiles purchases) ↔
  p ∈ horizon_filter profiles obs h ign.
Proof.
  unfold ltv_rows. change (map ?f ?x) with (f <$> x).
  rewrite list_elem_of_fmap. setoid_rewrite elem_of_merge_left.
  split.
  - intros (r & -> & a & Ha & [(b & _ & _ & ->)|(_ & ->)]); done.
  - intros Hp.
    destruct (decide (Exists (on_user_id p_user_id p) purchases))
      as [Hex|Hno].
    + apply Exists_exists in Hex as (b & Hb & Hm).
      exists (mk_jrow p (p_event_dt <$> Some b) (p_revenue <$> Some b)).
      split; [done|].
      exists p. split; [done|]. left. eauto.
    + exists (mk_jrow p None None).
      split; [done|].
      exists p. split; [done|]. right. split; [|done].
      intros b Hb Hm. apply Hno, Exists_exists. eauto.
Qed.
End RawRows.

(** C5. The horizon filter keeps exactly the profiles acquired no later than
    [observation_date - (horizon_days - 1)] days, or no later than
    [observation_date] when [ignore_horizon] is set; the rows each of the
    three engines joins events onto are the rows of exactly these profiles. *)
Theorem horizon_filter_keeps_exactly
    (profiles : list profile) (observation_date horizon_days : Z)
    (ignore_horizon : bool) (purchases : list purchase)
    (sessions : list session) (p : profile) :
  let kept := horizon_filter profiles observation_date horizon_days
                ignore_horizon in
  (p ∈ kept ↔
     p ∈ profiles ∧
     dt p <= (if ignore_horizon then observation_date
              else observation_date - (horizon_days - 1))) ∧
  (p ∈ map j_profile (conversion_rows observation_date horizon_days
                        ignore_horizon profiles purchases) ↔ p ∈ kept) ∧
  (p ∈ map j_profile (retention_rows observation_date horizon_days
                        ignore_horizon profiles sessions) ↔ p ∈ kept) ∧
  (p ∈ map j_profile (ltv_rows observation_date horizon_days
                        ignore_horizon profiles purchases) ↔ p ∈ kept).
Proof.
  intros kept. subst kept. split; [|split; [|split]].
  - rewrite elem_of_horizon_filter. unfold last_suitable_acquisition_date.
    by destruct ignore_horizon.
  - apply conversion_rows_profiles.
  - apply retention_rows_profiles.
  - apply ltv_rows_profiles.
Qed.

(** ** Profile builder *)

Lemma set_dt_dates ad_costs ds a' :
  dt_dates ad_costs = Ok ds → a' ∈ set_dt ad_costs ds →
  ∃ a, a ∈ ad_costs ∧ ac_dt a' = Day (ad_cost_date a)
       ∧ ac_channel a' = ac_channel a ∧ ac_costs a' = ac_costs a.
Proof.
  revert ds. induction ad_costs as [|a l IH]; intros ds Hds Ha'.
  - simpl in Ha'. by apply elem_of_nil in Ha'.
  - simpl in Hds. destruct (ac_dt a) as [ts|d] eqn:Hdt; [|done].
    destruct (dt_dates l) as [ds'|e] eqn:Hl; simpl in Hds; [|done].
    injection Hds as <-. unfold set_dt in Ha'. simpl in Ha'.
    apply elem_of_cons in Ha' as [->|Ha'].
    + exists a. split; [left|]. unfold ad_cost_date. by rewrite Hdt.
    + destruct (IH ds' eq_refl Ha') as (a0 & ? & ?).
      exists a0. split; [by right|done].
Qed.

Lemma with_acquisition_cost_row ad_costs users b :
  b ∈ with_acquisition_cost ad_costs users →
  ∃ a, a ∈ ad_costs ∧ acr_dt b = ac_dt a ∧ acr_channel b = ac_channel a.
Proof.
  unfold with_acquisition_cost. rewrite elem_of_merge_left.
  intros (a & Ha & [(n & _ & _ & ->)|(_ & ->)]); exists a; done.
Qed.

(** C9. A profile whose (acquisition date, channel) pair matches no row of
    the ad-cost table has an acquisition cost of exactly 0. *)
Theorem organic_profile_costs_nothing
    (visits : list visit) (orders : list purchase) (ad_costs : list ad_cost)
    (profiles : list profile) (p : profile) :
  get_profiles visits orders ad_costs = Ok profiles →
  p ∈ profiles →
  (∀ a, a ∈ ad_costs →
        ¬ (ad_cost_date a = dt p ∧ ac_channel a = channel p)) →
  acquisition_cost p = 0%Q.
Proof.
  unfold get_profiles. intros Hget Hp Hno.
  destruct (dt_dates ad_costs) as [ds|e] eqn:Hds; simpl in Hget; [|done].
  injection Hget as <-. unfold build_profiles in Hp.
  apply elem_of_merge_left in Hp
    as (v & _ & [(b & Hb & [Hdt Hch] & ->)|(_ & ->)]); [|done].
  exfalso.
  apply with_acquisition_cost_row in Hb as (a' & Ha' & Hdt' & Hch').
  destruct (set_dt_dates _ _ _ Hds Ha') as (a & Ha & Hday & Hchan & _).
  apply (Hno a Ha). simpl. split.
  - rewrite Hdt' in Hdt. rewrite Hday in Hdt. by injection Hdt.
  - by rewrite <- Hchan, <- Hch', Hch.
Qed.

(** ** Time smoother *)

Lemma smooth_column_labels w (df : num_table) column :
  map fst (smooth_column w df column) = map fst df.
Proof.
  unfold smooth_column. rewrite map_map. apply map_ext.
  intros [name col]. simpl. by destruct (decide (name = column)).
Qed.

(** The loop over distinct labels smooths the columns that carry one of
    them, once each. *)
Lemma smooth_columns_of w (labels : list string) (df : num_table) :
  NoDup labels →
  fold_left (smooth_column w) labels df =
  map (fun nc => if decide (fst nc ∈ labels)
                 then (fst nc, rolling_mean w (snd nc)) else nc) df.
Proof.
  intros Hnd. revert df.
  induction Hnd as [|c labels Hc Hnd IH]; intros df.
  - cbn [fold_left]. rewrite <- (map_id df) at 1. apply map_ext.
    intros nc. destruct (decide (fst nc ∈ [])) as [Hin|_]; [|done].
    by apply elem_of_nil in Hin.
  - cbn [fold_left]. rewrite IH. unfold smooth_column. rewrite map_map.
    apply map_ext. intros [name col]. simpl.
    destruct (decide (name = c)) as [->|Hne]; simpl.
    + destruct (decide (c ∈ labels)) as [?|_]; [done|].
      destruct (decide (c ∈ c :: labels)) as [_|Hout]; [done|].
      exfalso. apply Hout. left.
    + destruct (decide (name ∈ labels)) as [Hin|Hout];
        destruct (decide (name ∈ c :: labels)) as [Hin'|Hout']; try done.
      * exfalso. apply Hout'. by right.
      * exfalso. apply elem_of_cons in Hin' as [?|?]; done.
Qed.

Lemma smooth_columns_map w (df : num_table) :
  NoDup (map fst df) →
  smooth_columns w df =
  map (fun nc => (fst nc, rolling_mean w (snd nc))) df.
Proof.
  intros Hnd. unfold smooth_columns. rewrite smooth_columns_of by done.
  apply map_ext_in. intros [name col] Hin. simpl.
  rewrite decide_True; [done|].
  change (map ?f ?x) with (f <$> x). apply list_elem_of_fmap.
  exists (name, col). split; [done|]. by apply list_elem_of_In.
Qed.

Lemma mapM_id_defined (l : list (option Q)) :
  Forall is_Some l → ∃ xs, mapM id l = Some xs ∧ l = Some <$> xs.
Proof.
  induction 1 as [|o l [x ->] _ (xs & Hxs & ->)].
  - by exists [].
  - exists (x :: xs). split; [|done].
    apply mapM_Some. constructor; [done|]. by apply mapM_Some.
Qed.

Lemma rolling_mean_lookup w col i :
  (i < length col)%nat →
  rolling_mean w col !! i = Some (rolling_mean_at w col i).
Proof.
  intros Hi. unfold rolling_mean. change (map ?f ?x) with (f <$> x).
  by rewrite list_lookup_fmap, lookup_seq_lt.
Qed.




(** ** Columns of the pivot and the selection of the horizon *)

Lemma elem_of_day_range d h : d ∈ day_range h ↔ 0 <= d < h.
Proof.
  unfold day_range. change (map ?f ?x) with (f <$> x).
  rewrite list_elem_of_fmap. setoid_rewrite elem_of_seq. split.
  - intros (i & -> & Hi). lia.
  - intros Hd. exists (Z.to_nat d). lia.
Qed.

Lemma elem_of_pivot_columns df d :
  d ∈ pivot_columns df ↔ ∃ r, r ∈ df ∧ j_lifetime r = Some d.
Proof.
  unfold pivot_columns.
  by rewrite elem_of_sort_by, elem_of_remove_dups, list_elem_of_omap.
Qed.

Lemma finish_table_missing h sizes w d :
  0 <= d < h → d ∉ w_columns w →
  ∃ ms, finish_table h sizes w = Err (KeyError (map LDay ms)) ∧ d ∈ ms.
Proof.
  intros Hd Hcol. unfold finish_table.
  assert (d ∈ missing_days (w_columns w) h) as Hin.
  { unfold missing_days. apply list_elem_of_filter. split; [done|].
    by apply elem_of_day_range. }
  destruct (missing_days (w_columns w) h) as [|m ms];
    [by apply elem_of_nil in Hin|].
  by exists (m :: ms).
Qed.

(** ** Dimensions *)

Lemma dim_known_spec cohort n :
  dim_known cohort n = true ↔
  n ∈ profile_columns ∨ (n = "cohort" ∧ is_Some cohort).
Proof.
  unfold dim_known. rewrite orb_true_iff, andb_true_iff, existsb_exists.
  rewrite String.eqb_eq, bool_decide_eq_true.
  split.
  - intros [(x & Hx & Heq)|H]; [left|by right].
    apply String.eqb_eq in Heq. subst x. by apply list_elem_of_In.
  - intros [Hn|H]; [left|by right].
    exists n. split; [by apply list_elem_of_In|]. apply String.eqb_refl.
Qed.

Lemma unknown_dims_nil cohort dims :
  unknown_dims cohort dims = [] ↔
  Forall (fun n => dim_known cohort n = true) dims.
Proof.
  unfold unknown_dims. induction dims as [|n dims IH]; simpl.
  - split; [constructor|done].
  - destruct (dim_known cohort n) eqn:Hn; simpl.
    + rewrite IH. split; [by constructor|]. by inversion 1.
    + split; [done|]. inversion 1. congruence.
Qed.

Lemma cohort_not_profile_column : "cohort" ∉ profile_columns.
Proof.
  unfold profile_columns. rewrite !elem_of_cons, elem_of_nil.
  intros H. repeat (destruct H as [H|H]; [discriminate H|]). done.
Qed.

Lemma static_dimensions_known dims :
  unknown_dims (cohort_column dims) (static_dimensions dims) = [] ↔
  Forall (fun n => n ∈ profile_columns) dims.
Proof.
  rewrite unknown_dims_nil. destruct dims as [|n dims].
  - simpl. split; [constructor|]. intros _. constructor; [|constructor].
    apply dim_known_spec. right. split; [done|]. by eexists.
  - simpl. apply Forall_iff. intros m. rewrite dim_known_spec. split.
    + intros [?|[_ []]]; [done|discriminate].
    + by left.
Qed.

Lemma dynamic_dimensions_known cohort dims :
  unknown_dims cohort dims = [] →
  unknown_dims cohort (dynamic_dimensions dims) = [].
Proof.
  rewrite !unknown_dims_nil. intros Hk. unfold dynamic_dimensions.
  apply Forall_app. split.
  - destruct (decide ("cohort" ∈ dims)); [constructor|done].
  - constructor; [|constructor]. apply dim_known_spec. left.
    unfold profile_columns. do 5 right. left.
Qed.

Lemma retention_dimensions_known dims :
  unknown_dims None ("payer" :: dims) = [] ↔
  Forall (fun n => n ∈ profile_columns) dims.
Proof.
  rewrite unknown_dims_nil, Forall_cons. split.
  - intros [_ H]. eapply Forall_impl; [exact H|]. intros m.
    rewrite dim_known_spec. intros [?|[_ []]]; [done|discriminate].
  - intros H. split.
    + apply dim_known_spec. left. unfold profile_columns. do 7 right. left.
    + eapply Forall_impl; [exact H|]. intros m Hm.
      apply dim_known_spec. by left.
Qed.

Lemma retention_dynamic_known dims :
  unknown_dims None ("payer" :: dims) = [] →
  unknown_dims None (("payer" :: dims) ++ ["dt"]) = [].
Proof.
  rewrite !unknown_dims_nil. intros H. apply Forall_app. split; [done|].
  constructor; [|constructor]. apply dim_known_spec. left.
  unfold profile_columns. do 5 right. left.
Qed.

Lemma first_bad_dimension_None cohort labels todo :
  first_bad_dimension cohort labels todo = None ↔
  Forall (fun n => dim_known cohort n = true ∧
                   (count_occ String.string_dec labels n ≤ 1)%nat) todo.
Proof.
  induction todo as [|n todo IH]; simpl.
  - split; [constructor|done].
  - destruct (dim_known cohort n) eqn:Hk; simpl.
    + destruct (Nat.ltb_spec 1 (count_occ String.string_dec labels n))
        as [Hc|Hc].
      * split; [done|]. inversion 1 as [|? ? [_ Hle]]. lia.
      * rewrite IH. split; [by constructor|]. by inversion 1.
    + split; [done|]. inversion 1 as [|? ? [Hf _]]. congruence.
Qed.

Lemma labels_once (dims : list string) (values : string) :
  Forall (fun n => (count_occ String.string_dec (dims ++ [values]) n ≤ 1)%nat)
         dims ↔
  NoDup dims ∧ values ∉ dims.
Proof.
  rewrite Forall_forall. split.
  - intros Hall. split.
    + apply NoDup_ListNoDup, (NoDup_count_occ String.string_dec). intros n.
      destruct (decide (n ∈ dims)) as [Hin|Hout].
      * specialize (Hall n Hin). rewrite count_occ_app in Hall. lia.
      * assert (count_occ String.string_dec dims n = 0%nat) as ->; [|lia].
        apply count_occ_not_In. intros Hin. apply Hout.
        by apply list_elem_of_In.
    + intros Hin. specialize (Hall values Hin).
      rewrite count_occ_app in Hall. simpl in Hall.
      destruct (String.string_dec values values); [|done].
      assert (0 < count_occ String.string_dec dims values)%nat; [|lia].
      apply count_occ_In. by apply list_elem_of_In.
  - intros [Hnd Hv] n Hin. rewrite count_occ_app. simpl.
    apply NoDup_ListNoDup in Hnd.
    pose proof (proj1 (NoDup_count_occ String.string_dec dims) Hnd n) as Hle.
    destruct (String.string_dec values n) as [->|]; [done|lia].
Qed.

(** The dimensions pass the pivot exactly when they are distinct names of
    columns, none of them the column the pivot aggregates. *)
Lemma check_dims_Ok cohort dims values :
  check_dims cohort dims values = Ok tt ↔
  unknown_dims cohort dims = [] ∧ NoDup dims ∧ values ∉ dims.
Proof.
  unfold check_dims.
  destruct (first_bad_dimension cohort (dims ++ [values]) dims) as [e|] eqn:Hb.
  - split; [done|]. intros (Hk & Hnd).
    assert (first_bad_dimension cohort (dims ++ [values]) dims = None)
      as Hnone; [|congruence].
    apply first_bad_dimension_None.
    apply unknown_dims_nil in Hk. apply labels_once in Hnd.
    rewrite Forall_forall in Hk, Hnd. apply Forall_forall.
    intros n Hn. split; auto.
  - split; [|done]. intros _. apply first_bad_dimension_None in Hb.
    rewrite unknown_dims_nil, <- labels_once.
    rewrite Forall_forall in Hb.
    split; apply Forall_forall; intros n Hn; by apply Hb.
Qed.

Lemma check_dims_cases cohort dims values :
  (check_dims cohort dims values = Ok tt ∧ unknown_dims cohort dims = []
   ∧ NoDup dims ∧ values ∉ dims) ∨
  (∃ e, check_dims cohort dims values = Err e
        ∧ ¬ (unknown_dims cohort dims = [] ∧ NoDup dims ∧ values ∉ dims)).
Proof.
  destruct (check_dims cohort dims values) as [[]|e] eqn:Hc.
  - left. split; [done|]. by apply check_dims_Ok.
  - right. exists e. split; [done|]. intros Hok.
    apply check_dims_Ok in Hok. congruence.
Qed.

Lemma dimensions_valid_columns dims :
  dimensions_valid dims → Forall (fun n => n ∈ profile_columns) dims.
Proof. intros [_ H]. eapply Forall_impl; [exact H|]. by intros n [? _]. Qed.

Lemma dimensions_valid_not_in dims v :
  dimensions_valid dims → v = "user_id" ∨ v ∉ profile_columns → v ∉ dims.
Proof.
  intros [_ H] Hv Hin. rewrite Forall_forall in H.
  destruct (H v Hin) as [Hc Hu]. by destruct Hv.
Qed.

Lemma revenue_not_profile_column : "revenue" ∉ profile_columns.
Proof.
  unfold profile_columns. rewrite !elem_of_cons, elem_of_nil.
  intros H. repeat (destruct H as [H|H]; [discriminate H|]). done.
Qed.

(** A valid dimension list passes the pivot of the static table. *)
Lemma static_check_Ok dims v :
  dimensions_valid dims → v = "user_id" ∨ v = "revenue" →
  check_dims (cohort_column dims) (static_dimensions dims) v = Ok tt.
Proof.
  intros Hv Hval. apply check_dims_Ok. split; [|split].
  - by apply static_dimensions_known, dimensions_valid_columns.
  - destruct dims as [|n dims]; [|by destruct Hv].
    simpl. apply NoDup_singleton.
  - destruct dims as [|n dims].
    + simpl. intros Hin%list_elem_of_singleton.
      destruct Hval; subst; discriminate.
    + simpl. apply dimensions_valid_not_in; [done|].
      destruct Hval as [->| ->]; [by left|right].
      apply revenue_not_profile_column.
Qed.

Lemma retention_check_Ok dims :
  dimensions_valid dims → "payer" ∉ dims →
  check_dims None ("payer" :: dims) "user_id" = Ok tt.
Proof.
  intros Hv Hp. apply check_dims_Ok. split; [|split].
  - by apply retention_dimensions_known, dimensions_valid_columns.
  - apply NoDup_cons. split; [done|]. by destruct Hv.
  - intros [Heq|Hin]%elem_of_cons; [discriminate|].
    revert Hin. apply dimensions_valid_not_in; [done|by left].
Qed.

Section MissingDay.
Context (cohort : option string) (dims : list string)
        (df : list jrow) (h d : Z).
Hypothesis Hd : 0 <= d < h.
Hypothesis Hno : ∀ r, r ∈ df → j_lifetime r ≠ Some d.

Lemma missing_day_not_column : d ∉ pivot_columns df.
Proof. rewrite elem_of_pivot_columns. intros (r & Hr & Hl). by apply (Hno r). Qed.

Lemma conversion_group_missing :
  check_dims cohort dims "user_id" = Ok tt →
  ∃ ms, conversion_group_by_dimensions cohort dims df h
          = Err (KeyError (map LDay ms)) ∧ d ∈ ms.
Proof.
  intros Hc. unfold conversion_group_by_dimensions. rewrite Hc.
  cbn [mbind result_bind].
  apply (finish_table_missing h (cohort_sizes cohort dims df)
           (fillna_cumsum (pivot_table cohort dims agg_nunique df)) d);
    [done|apply missing_day_not_column].
Qed.

Lemma retention_group_missing :
  check_dims cohort dims "user_id" = Ok tt →
  ∃ ms, retention_group_by_dimensions cohort dims df h
          = Err (KeyError (map LDay ms)) ∧ d ∈ ms.
Proof.
  intros Hc. unfold retention_group_by_dimensions. rewrite Hc.
  cbn [mbind result_bind].
  apply (finish_table_missing h (cohort_sizes cohort dims df)
           (pivot_table cohort dims agg_nunique df) d);
    [done|apply missing_day_not_column].
Qed.

Lemma ltv_group_missing :
  check_dims cohort dims "revenue" = Ok tt →
  ∃ ms, ltv_group_by_dimensions cohort dims df h
          = Err (KeyError (map LDay ms)) ∧ d ∈ ms.
Proof.
  intros Hc. unfold ltv_group_by_dimensions. rewrite Hc.
  cbn [mbind result_bind].
  destruct (finish_table_missing h (cohort_sizes cohort dims df)
              (fillna_cumsum (pivot_table cohort dims agg_revenue df)) d)
    as (ms & -> & Hin); [done|apply missing_day_not_column|].
  by exists ms.
Qed.
End MissingDay.

(** C3. On a valid dimension list, when some lifetime day [d] below the
    horizon is the lifetime of no joined row, none of the three engines
    returns a table with a zero column for [d]: the selection of the horizon
    columns raises a [KeyError] that names day [d] among the labels it did
    not find.  ([get_retention] groups by [payer] itself, so for it the
    dimensions leave [payer] out.) *)
Theorem missing_lifetime_day_raises
    (observation_date horizon_days : Z) (ignore_horizon : bool)
    (profiles : list profile) (purchases : list purchase)
    (sessions : list session) (dimensions : list string) (d : Z) :
  0 <= d < horizon_days →
  dimensions_valid dimensions →
  ((∀ r, r ∈ conversion_rows observation_date horizon_days ignore_horizon
               profiles purchases → j_lifetime r ≠ Some d) →
   ∃ ms, get_conversion observation_date horizon_days ignore_horizon
           profiles purchases dimensions = Err (KeyError (map LDay ms))
         ∧ d ∈ ms) ∧
  ("payer" ∉ dimensions →
   (∀ r, r ∈ retention_rows observation_date horizon_days ignore_horizon
               profiles sessions → j_lifetime r ≠ Some d) →
   ∃ ms, get_retention observation_date horizon_days ignore_horizon
           profiles sessions dimensions = Err (KeyError (map LDay ms))
         ∧ d ∈ ms) ∧
  ((∀ r, r ∈ ltv_rows observation_date horizon_days ignore_horizon
               profiles purchases → j_lifetime r ≠ Some d) →
   ∃ ms, get_ltv observation_date horizon_days ignore_horizon
           profiles purchases dimensions = Err (KeyError (map LDay ms))
         ∧ d ∈ ms).
Proof.
  intros Hd Hv. split; [|split].
  - intros Hno. unfold get_conversion.
    destruct (conversion_group_missing (cohort_column dimensions)
                (static_dimensions dimensions) _ horizon_days d Hd Hno)
      as (ms & -> & Hms); [apply static_check_Ok; auto|].
    by exists ms.
  - intros Hp Hno. unfold get_retention.
    destruct (retention_group_missing None ("payer" :: dimensions)
                _ horizon_days d Hd Hno) as (ms & -> & Hms);
      [by apply retention_check_Ok|].
    by exists ms.
  - intros Hno. unfold get_ltv.
    destruct (ltv_group_missing (cohort_column dimensions)
                (static_dimensions dimensions) _ horizon_days d Hd Hno)
      as (ms & -> & Hms); [apply static_check_Ok; auto|].
    by exists ms.
Qed.

Lemma missing_lifetime_day_raises_example :
  get_conversion 2 3 false Example.profiles_two Example.one_purchase
    ["channel"] = Err (KeyError [LDay 0; LDay 1]) ∧
  get_retention 2 3 false Example.profiles_three Example.sessions_full
    ["channel"] = Err (KeyError [LDay 2]) ∧
  get_ltv 2 3 false Example.profiles_two Example.one_purchase
    ["channel"] = Err (KeyError [LDay 0; LDay 1]) ∧
  ((∃ ms, get_conversion 2 3 false Example.profiles_two Example.one_purchase
            ["channel"] = Err (KeyError (map LDay ms)) ∧ 0 ∈ ms) ∧
   (∃ ms, get_retention 2 3 false Example.profiles_three
            Example.sessions_full ["channel"]
          = Err (KeyError (map LDay ms)) ∧ 2 ∈ ms) ∧
   (∃ ms, get_ltv 2 3 false Example.profiles_two Example.one_purchase
            ["channel"] = Err (KeyError (map LDay ms)) ∧ 0 ∈ ms)).
Proof.
  split; [reflexivity|]. split; [reflexivity|]. split; [reflexivity|].
  assert (Hvalid : dimensions_valid ["channel"]).
  { split; [apply NoDup_singleton|].
    constructor; [|constructor]. split; [|discriminate].
    unfold profile_columns. do 2 right. left. }
  destruct (missing_lifetime_day_raises 2 3 false Example.profiles_two
              Example.one_purchase [] ["channel"] 0 ltac:(lia) Hvalid)
    as (Hc & _ & Hl).
  destruct (missing_lifetime_day_raises 2 3 false Example.profiles_three
              Example.one_purchase Example.sessions_full ["channel"] 2
              ltac:(lia) Hvalid) as (_ & Hr & _).
  assert (Hrows : ∀ (d : Z) (rows : list jrow),
            Forall (fun r => j_lifetime r ≠ Some d) rows →
            ∀ r, r ∈ rows → j_lifetime r ≠ Some d).
  { intros d rows Hall r Hr'. by eapply Forall_forall in Hall. }
  split; [|split].
  - apply Hc, Hrows. vm_compute. repeat constructor; discriminate.
  - apply Hr; [|apply Hrows; vm_compute; repeat constructor; discriminate].
    intros Hin%list_elem_of_singleton. discriminate.
  - apply Hl, Hrows. vm_compute. repeat constructor; discriminate.
Defined.

Lemma organic_profile_costs_nothing_example :
  ∃ p, p ∈ Example.profiles_three ∧ channel p = "organic"
       ∧ acquisition_cost p = 0%Q.
Proof.
  exists {| user_id := 3; first_ts := 300; channel := "organic";
            device := "PC"; region := "UK"; dt := 0; month := 1;
            payer := false; acquisition_cost := 0 |}.
  assert (Hin : {| user_id := 3; first_ts := 300; channel := "organic";
            device := "PC"; region := "UK"; dt := 0; month := 1;
            payer := false; acquisition_cost := 0 |} ∈ Example.profiles_three).
  { unfold Example.profiles_three. do 2 right. left. }
  split; [exact Hin|]. split; [reflexivity|].
  apply (organic_profile_costs_nothing Example.visits_three
           Example.one_purchase Example.ad_costs Example.profiles_three).
  - reflexivity.
  - exact Hin.
  - intros a Ha. unfold Example.ad_costs in Ha.
    apply list_elem_of_singleton in Ha as ->. simpl. intros [_ Hc]. discriminate Hc.
Defined.

(** C2. On the worked input (two users acquired on day 0 through ads for a
    spend of 10, one purchase of 20 on lifetime day 2, a horizon of 3 days)
    the profiles cost 5 each, and [get_ltv] returns no table: the selection
    of the columns 0, 1, 2 fails because no row has lifetime 0 or 1. *)
Theorem ltv_worked_example_raises :
  get_profiles Example.visits_two Example.one_purchase Example.ad_costs
    = Ok Example.profiles_two ∧
  length Example.profiles_two = 2%nat ∧
  Forall (fun p => dt p = 0 ∧ channel p = "ads"
                   ∧ (acquisition_cost p == 5)%Q) Example.profiles_two ∧
  map j_lifetime (ltv_rows 2 3 false Example.profiles_two Example.one_purchase)
    = [Some 2; None] ∧
  get_ltv 2 3 false Example.profiles_two Example.one_purchase ["channel"]
    = Err (KeyError [LDay 0; LDay 1]).
Proof.
  split; [reflexivity|]. split; [reflexivity|]. split.
  - unfold Example.profiles_two. repeat constructor.
  - split; vm_compute; reflexivity.
Qed.

(** ** Cohort sizes *)

Lemma finish_table_Ok h sizes w tbl :
  finish_table h sizes w = Ok tbl →
  missing_days (w_columns w) h = [] ∧
  ct_days tbl = day_range h ∧
  ct_rows tbl =
    map (fun r : dimkey * nat * list Q =>
           {| cr_key := fst (fst r);
              cr_cohort_size := snd (fst r);
              cr_cells := select_days (w_columns w) h
                            (div_by_size (snd (fst r)) (snd r)) |})
        (merge_sizes sizes w).
Proof.
  unfold finish_table.
  destruct (missing_days (w_columns w) h) as [|m ms]; [|done].
  intros [= <-]. simpl. split; [done|]. split; [done|].
  apply map_ext. by intros [[k n] cells].
Qed.

Lemma elem_of_merge_sizes sizes w k n cells :
  (k, n, cells) ∈ merge_sizes sizes w ↔
  (k, n) ∈ sizes ∧
  ((∃ cs, (k, cs) ∈ w_rows w ∧ cells = map fillna0 cs) ∨
   ((∀ kr, kr ∈ w_rows w → fst kr ≠ k) ∧
    cells = map fillna0 (map (fun _ => None) (w_columns w)))).
Proof.
  unfold merge_sizes. rewrite elem_of_merge_left. split.
  - intros ([k' n'] & Hs & [([k'' cs] & Hr & Hm & Heq)|(Hno & Heq)]);
      simpl in *; injection Heq as -> -> ->.
    + unfold same_key in Hm. simpl in Hm. subst k''. split; [done|]. left. eauto.
    + split; [done|]. right. split; [|done].
      intros kr Hkr Hk. apply (Hno kr Hkr). unfold same_key. by simpl.
  - intros (Hs & [(cs & Hr & ->)|(Hno & ->)]); exists (k, n); (split; [done|]).
    + left. exists (k, cs). done.
    + right. split; [|done]. intros kr Hkr Hm. by apply (Hno kr Hkr).
Qed.

Lemma finish_table_sizes h sizes w tbl :
  finish_table h sizes w = Ok tbl →
  ∀ k n, (k, n) ∈ table_sizes tbl ↔ (k, n) ∈ sizes.
Proof.
  intros Hok k n. apply finish_table_Ok in Hok as (_ & _ & Hrows).
  unfold table_sizes. rewrite Hrows, map_map. simpl.
  change (map ?f ?x) with (f <$> x). rewrite list_elem_of_fmap. split.
  - intros ([[k' n'] cells] & [= -> ->] & Hin).
    by apply elem_of_merge_sizes in Hin as [? _].
  - intros Hs.
    destruct (decide (Exists (fun kr => fst kr = k) (w_rows w))) as [Hex|Hno].
    + apply Exists_exists in Hex as ([k' cs] & Hin & Hk). simpl in Hk. subst k'.
      exists (k, n, map fillna0 cs). split; [done|].
      apply elem_of_merge_sizes. split; [done|]. left. eauto.
    + exists (k, n, map fillna0 (map (fun _ => None) (w_columns w))).
      split; [done|]. apply elem_of_merge_sizes. split; [done|]. right.
      split; [|done]. intros kr Hkr Hk. apply Hno, Exists_exists. eauto.
Qed.

Lemma elem_of_cohort_sizes cohort dims df k n :
  (k, n) ∈ cohort_sizes cohort dims df ↔
  (∃ r, r ∈ df ∧ key_of cohort dims r = k) ∧
  n = nunique (map j_user_id (group_rows (key_of cohort dims) k df)).
Proof.
  unfold cohort_sizes. change (map ?f ?x) with (f <$> x) at 1.
  rewrite list_elem_of_fmap. split.
  - intros ([k' g] & [= -> ->] & Hg). by apply elem_of_groupby in Hg as [? ->].
  - intros (Hk & ->). eexists (k, _). split; [done|].
    apply elem_of_groupby. done.
Qed.

Lemma key_of_profile cohort dims r :
  key_of cohort dims r = profile_key cohort dims (j_profile r).
Proof. reflexivity. Qed.

Section Conservation.
Context (eligible : list profile) (rows : list jrow).
Hypothesis Hrows : ∀ p, p ∈ map j_profile rows ↔ p ∈ eligible.
Context (cohort : option string) (dims : list string).

Lemma group_users k :
  nunique (map j_user_id (group_rows (key_of cohort dims) k rows)) =
  cohort_size_of eligible cohort dims k.
Proof.
  unfold cohort_size_of. apply nunique_ext. intros u.
  change (map ?f ?x) with (f <$> x). rewrite !list_elem_of_fmap. split.
  - intros (r & -> & Hr). apply elem_of_group_rows in Hr as [Hr Hk].
    exists (j_profile r). split; [done|].
    apply list_elem_of_filter. split; [done|].
    apply Hrows. change (map ?f ?x) with (f <$> x).
    by apply list_elem_of_fmap_2.
  - intros (p & -> & Hp). apply list_elem_of_filter in Hp as [Hk Hp].
    apply Hrows in Hp. change (map ?f ?x) with (f <$> x) in Hp.
    apply list_elem_of_fmap in Hp as (r & -> & Hr).
    exists r. split; [done|]. by apply elem_of_group_rows.
Qed.

Lemma cohort_sizes_exact :
  sizes_exact eligible cohort dims (cohort_sizes cohort dims rows).
Proof.
  intros k n Hin. apply elem_of_cohort_sizes in Hin as [_ ->].
  apply group_users.
Qed.

Lemma cohort_sizes_cover :
  sizes_cover eligible cohort dims (cohort_sizes cohort dims rows).
Proof.
  intros p Hp. apply Hrows in Hp. change (map ?f ?x) with (f <$> x) in Hp.
  apply list_elem_of_fmap in Hp as (r & -> & Hr).
  eexists. apply elem_of_cohort_sizes. split; [|done]. eauto.
Qed.

Lemma finish_table_conserves h w tbl :
  finish_table h (cohort_sizes cohort dims rows) w = Ok tbl →
  sizes_exact eligible cohort dims (table_sizes tbl) ∧
  sizes_cover eligible cohort dims (table_sizes tbl).
Proof.
  intros Hok. pose proof (finish_table_sizes _ _ _ _ Hok) as Hs. split.
  - intros k n Hin. apply Hs in Hin. by apply cohort_sizes_exact.
  - intros p Hp. destruct (cohort_sizes_cover p Hp) as (n & Hn).
    exists n. by apply Hs.
Qed.

Lemma conversion_group_conserves h tbl :
  conversion_group_by_dimensions cohort dims rows h = Ok tbl →
  sizes_exact eligible cohort dims (table_sizes tbl) ∧
  sizes_cover eligible cohort dims (table_sizes tbl).
Proof.
  unfold conversion_group_by_dimensions.
  destruct (check_dims cohort dims _) as [[]|e]; [|done]. simpl.
  apply finish_table_conserves.
Qed.

Lemma retention_group_conserves h tbl :
  retention_group_by_dimensions cohort dims rows h = Ok tbl →
  sizes_exact eligible cohort dims (table_sizes tbl) ∧
  sizes_cover eligible cohort dims (table_sizes tbl).
Proof.
  unfold retention_group_by_dimensions.
  destruct (check_dims cohort dims _) as [[]|e]; [|done]. simpl.
  apply finish_table_conserves.
Qed.

Lemma roi_of_sizes sizes cac tbl k n :
  (k, n) ∈ roi_sizes (roi_of sizes cac tbl) →
  (k, n) ∈ table_sizes tbl ∨ (k, n) ∈ sizes.
Proof.
  unfold roi_sizes, roi_of, table_sizes. cbn [roi_rows].
  destruct (List.filter _ _) as [|t0 kept] eqn:Hkept.
  - right. change (map ?f ?x) with (f <$> x) in H.
    apply list_elem_of_fmap in H as (rr & -> & Hrr).
    apply list_elem_of_fmap in Hrr as ([k' n'] & -> & Hs). done.
  - left. rewrite <- Hkept in H. clear Hkept.
    change (map ?f ?x) with (f <$> x) in *.
    apply list_elem_of_fmap in H as (rr & -> & Hrr).
    apply list_elem_of_fmap in Hrr as (t & -> & Ht).
    apply list_elem_of_In, filter_In in Ht as [Ht _].
    apply list_elem_of_In, list_elem_of_fmap in Ht as (r & -> & Hr).
    simpl. apply list_elem_of_fmap. exists r. done.
Qed.

Lemma ltv_group_conserves h tbl roi :
  ltv_group_by_dimensions cohort dims rows h = Ok (tbl, roi) →
  (sizes_exact eligible cohort dims (table_sizes tbl) ∧
   sizes_cover eligible cohort dims (table_sizes tbl)) ∧
  sizes_exact eligible cohort dims (roi_sizes roi).
Proof.
  unfold ltv_group_by_dimensions.
  destruct (check_dims cohort dims _) as [[]|e]; [|done]. simpl.
  destruct (finish_table h _ _) as [t|e] eqn:Hf; [|done]. simpl.
  intros [= <- <-].
  pose proof (finish_table_conserves _ _ _ Hf) as [Hex Hcov].
  split; [done|]. intros k n Hin.
  apply roi_of_sizes in Hin as [Hin|Hin]; [by apply Hex|].
  by apply cohort_sizes_exact.
Qed.
End Conservation.

(** ** What a successful call of an engine went through *)

Lemma get_conversion_Ok obs h ign profiles purchases dims raw grouped in_time :
  get_conversion obs h ign profiles purchases dims = Ok (raw, grouped, in_time) →
  conversion_group_by_dimensions (cohort_column dims) (static_dimensions dims)
    (conversion_rows obs h ign profiles purchases) h = Ok grouped ∧
  conversion_group_by_dimensions (cohort_column dims)
    (dynamic_dimensions (static_dimensions dims))
    (conversion_rows obs h ign profiles purchases) h = Ok in_time.
Proof.
  unfold get_conversion.
  destruct (conversion_group_by_dimensions (cohort_column dims)
              (static_dimensions dims) _ h) as [g|e]; [|done]. cbn [mbind result_bind].
  destruct (conversion_group_by_dimensions (cohort_column dims)
              (dynamic_dimensions (static_dimensions dims)) _ h) as [t|e];
    [|done]. cbn [mbind result_bind].
  by intros [= <- <- <-].
Qed.

Lemma get_retention_Ok obs h ign profiles sessions dims raw grouped in_time :
  get_retention obs h ign profiles sessions dims = Ok (raw, grouped, in_time) →
  retention_group_by_dimensions None ("payer" :: dims)
    (retention_rows obs h ign profiles sessions) h = Ok grouped ∧
  retention_group_by_dimensions None (("payer" :: dims) ++ ["dt"])
    (retention_rows obs h ign profiles sessions) h = Ok in_time.
Proof.
  unfold get_retention.
  destruct (retention_group_by_dimensions None ("payer" :: dims) _ h)
    as [g|e]; [|done]. cbn [mbind result_bind].
  destruct (retention_group_by_dimensions None (("payer" :: dims) ++ ["dt"])
              _ h) as [t|e]; [|done]. cbn [mbind result_bind].
  by intros [= <- <- <-].
Qed.

Lemma get_ltv_Ok obs h ign profiles purchases dims raw grouped in_time
    roi_grouped roi_in_time :
  get_ltv obs h ign profiles purchases dims
    = Ok (raw, grouped, in_time, roi_grouped, roi_in_time) →
  ltv_group_by_dimensions (cohort_column dims) (static_dimensions dims)
    (ltv_rows obs h ign profiles purchases) h = Ok (grouped, roi_grouped) ∧
  ltv_group_by_dimensions (cohort_column dims)
    (dynamic_dimensions (static_dimensions dims))
    (ltv_rows obs h ign profiles purchases) h = Ok (in_time, roi_in_time).
Proof.
  unfold get_ltv.
  destruct (ltv_group_by_dimensions (cohort_column dims)
              (static_dimensions dims) _ h) as [[g rg]|e]; [|done]. cbn [mbind result_bind].
  destruct (ltv_group_by_dimensions (cohort_column dims)
              (dynamic_dimensions (static_dimensions dims)) _ h)
    as [[t rt]|e]; [|done]. cbn [mbind result_bind].
  by intros [= <- <- <- <- <-].
Qed.

(** C7. In every cohort table the three engines return, the [cohort_size] of
    a row is the number of distinct [user_id]s among the horizon-eligible
    profiles mapping to the row's dimension tuple, and every eligible
    profile's tuple has a row, whether or not the profile has an event. *)
Theorem cohort_size_conservation
    (observation_date horizon_days : Z) (ignore_horizon : bool)
    (profiles : list profile) (purchases : list purchase)
    (sessions : list session) (dimensions : list string) :
  let eligible :=
    horizon_filter profiles observation_date horizon_days ignore_horizon in
  let cohort := cohort_column dimensions in
  let static := static_dimensions dimensions in
  let dynamic := dynamic_dimensions static in
  (∀ raw grouped in_time,
     get_conversion observation_date horizon_days ignore_horizon
       profiles purchases dimensions = Ok (raw, grouped, in_time) →
     (sizes_exact eligible cohort static (table_sizes grouped) ∧
      sizes_cover eligible cohort static (table_sizes grouped)) ∧
     (sizes_exact eligible cohort dynamic (table_sizes in_time) ∧
      sizes_cover eligible cohort dynamic (table_sizes in_time))) ∧
  (∀ raw grouped in_time,
     get_retention observation_date horizon_days ignore_horizon
       profiles sessions dimensions = Ok (raw, grouped, in_time) →
     (sizes_exact eligible None ("payer" :: dimensions) (table_sizes grouped) ∧
      sizes_cover eligible None ("payer" :: dimensions) (table_sizes grouped)) ∧
     (sizes_exact eligible None (("payer" :: dimensions) ++ ["dt"])
        (table_sizes in_time) ∧
      sizes_cover eligible None (("payer" :: dimensions) ++ ["dt"])
        (table_sizes in_time))) ∧
  (∀ raw grouped in_time roi_grouped roi_in_time,
     get_ltv observation_date horizon_days ignore_horizon
       profiles purchases dimensions
       = Ok (raw, grouped, in_time, roi_grouped, roi_in_time) →
     (sizes_exact eligible cohort static (table_sizes grouped) ∧
      sizes_cover eligible cohort static (table_sizes grouped)) ∧
     (sizes_exact eligible cohort dynamic (table_sizes in_time) ∧
      sizes_cover eligible cohort dynamic (table_sizes in_time)) ∧
     sizes_exact eligible cohort static (roi_sizes roi_grouped) ∧
     sizes_exact eligible cohort dynamic (roi_sizes roi_in_time)).
Proof.
  intros eligible cohort static dynamic. split; [|split].
  - intros raw grouped in_time Hok.
    apply get_conversion_Ok in Hok as [Hg Ht]. split.
    + eapply conversion_group_conserves; [|exact Hg].
      apply conversion_rows_profiles.
    + eapply conversion_group_conserves; [|exact Ht].
      apply conversion_rows_profiles.
  - intros raw grouped in_time Hok.
    apply get_retention_Ok in Hok as [Hg Ht]. split.
    + eapply retention_group_conserves; [|exact Hg].
      apply retention_rows_profiles.
    + eapply retention_group_conserves; [|exact Ht].
      apply retention_rows_profiles.
  - intros raw grouped in_time roi_grouped roi_in_time Hok.
    apply get_ltv_Ok in Hok as [Hg Ht].
    eapply ltv_group_conserves in Hg as [Hg1 Hg2];
      [|apply ltv_rows_profiles].
    eapply ltv_group_conserves in Ht as [Ht1 Ht2];
      [|apply ltv_rows_profiles].
    done.
Qed.

(** ** Return on investment *)

Lemma Qnat_pos n : (0 < n)%nat → (0 < Qnat n)%Q.
Proof. intros Hn. unfold Qnat, Qlt. simpl. lia. Qed.

Lemma Qnat_nonneg n : (0 <= Qnat n)%Q.
Proof. unfold Qnat, Qle. simpl. lia. Qed.

Lemma Qnat_le n m : (n ≤ m)%nat → (Qnat n <= Qnat m)%Q.
Proof. intros Hn. unfold Qnat, Qle. simpl. lia. Qed.

Lemma float_overflow_pos : (0 < float_overflow)%Q.
Proof. unfold float_overflow. by vm_compute. Qed.

(** A positive numerator gives [+inf] exactly over a zero divisor and over a
    divisor so small that the quotient is beyond the floats. *)
Lemma fdiv_pos_inf a b :
  (0 < a)%Q →
  (is_pos_inf (fdiv a b) = true ↔
   (b == 0)%Q ∨ (float_overflow <= a / b)%Q).
Proof.
  intros Ha. unfold fdiv. destruct (Qeq_bool b 0) eqn:Hb.
  - apply Qeq_bool_iff in Hb.
    assert ((a ?= 0)%Q = Gt) as -> by by apply Qgt_alt.
    split; [by left|done].
  - assert (¬ (b == 0)%Q) as Hnz
      by (intros Hz; apply Qeq_bool_iff in Hz; congruence).
    cbv zeta. destruct (Qle_bool float_overflow (a / b)) eqn:Hov.
    + apply Qle_bool_iff in Hov. split; [by right|done].
    + assert (¬ (float_overflow <= a / b)%Q) as Hlt
        by (intros Hle; apply Qle_bool_iff in Hle; congruence).
      destruct (Qle_bool (a / b) (- float_overflow)); simpl;
        (split; [done|]); intros [?|?]; done.
Qed.

Lemma fdiv_zero_divisor a b :
  (0 < a)%Q → (b == 0)%Q → fdiv a b = PosInf.
Proof.
  intros Ha Hb. unfold fdiv.
  assert (Qeq_bool b 0 = true) as -> by by apply Qeq_bool_iff.
  by assert ((a ?= 0)%Q = Gt) as -> by by apply Qgt_alt.
Qed.

Lemma elem_of_drop_duplicates_from {A} `{EqDecision A} (seen l : list A) x :
  x ∈ drop_duplicates_from seen l ↔ x ∈ l ∧ x ∉ seen.
Proof.
  revert seen. induction l as [|y l IH]; intros seen; simpl.
  - rewrite elem_of_nil. tauto.
  - destruct (decide (y ∈ seen)) as [Hy|Hy].
    + rewrite IH, elem_of_cons. split; [tauto|].
      intros [[->|?] ?]; tauto.
    + rewrite !elem_of_cons, IH, elem_of_cons. split.
      * intros [->|[? ?]]; tauto.
      * intros [[->|?] ?]; [tauto|].
        destruct (decide (x = y)) as [->|?]; tauto.
Qed.

Lemma elem_of_drop_duplicates {A} `{EqDecision A} (l : list A) x :
  x ∈ drop_duplicates l ↔ x ∈ l.
Proof.
  unfold drop_duplicates. rewrite elem_of_drop_duplicates_from, elem_of_nil.
  tauto.
Qed.

Lemma cac_at_unique (cac : list (dimkey * Q)) k c :
  NoDup (map fst cac) → (k, c) ∈ cac → cac_at cac k = Some c.
Proof.
  unfold cac_at. induction cac as [|[k' c'] cac IH]; intros Hnd Hin.
  - by apply elem_of_nil in Hin.
  - simpl in Hnd. apply NoDup_cons in Hnd as [Hk' Hnd].
    rewrite filter_cons. simpl.
    apply elem_of_cons in Hin as [[= -> ->]|Hin].
    + by rewrite decide_True.
    + rewrite decide_False; [by apply IH|].
      intros ->. apply Hk'. change (map ?f ?x) with (f <$> x).
      apply list_elem_of_fmap. by exists (k, c).
Qed.

Lemma cac_at_elem (cac : list (dimkey * Q)) k c :
  cac_at cac k = Some c → (k, c) ∈ cac.
Proof.
  unfold cac_at. intros Hc.
  destruct (filter (fun kc => fst kc = k) cac) as [|[k' c'] l] eqn:Hf; [done|].
  simpl in Hc. injection Hc as ->.
  assert ((k', c) ∈ filter (fun kc : dimkey * Q => fst kc = k) cac) as Hin
    by (rewrite Hf; left).
  apply list_elem_of_filter in Hin as [Hk Hin]. simpl in Hk. by subst k'.
Qed.

Section RoiFacts.
Context (cohort : option string) (dims : list string) (df : list jrow).

Lemma cac_table_keys : map fst (cac_table cohort dims df) =
  group_keys key_leb (fun t : Z * Q * dimkey => snd t)
    (drop_duplicates
       (map (fun r => (j_user_id r, Qred (acquisition_cost (j_profile r)),
                       key_of cohort dims r)) df)).
Proof.
  unfold cac_table, groupby. rewrite !map_map. simpl. apply map_id.
Qed.

Lemma NoDup_cac_table : NoDup (map fst (cac_table cohort dims df)).
Proof. rewrite cac_table_keys. apply NoDup_group_keys. Qed.

Lemma cac_table_covers r :
  r ∈ df → ∃ c, (key_of cohort dims r, c) ∈ cac_table cohort dims df.
Proof.
  intros Hr.
  assert (key_of cohort dims r ∈ map fst (cac_table cohort dims df)) as Hk.
  { rewrite cac_table_keys. apply elem_of_group_keys.
    exists (j_user_id r, Qred (acquisition_cost (j_profile r)),
            key_of cohort dims r).
    split; [|done]. apply elem_of_drop_duplicates.
    change (map ?f ?x) with (f <$> x). apply list_elem_of_fmap. eauto. }
  change (map ?f ?x) with (f <$> x) in Hk.
  apply list_elem_of_fmap in Hk as ([k c] & Hk & Hin). simpl in Hk.
  exists c. by rewrite Hk.
Qed.

Lemma cohort_sizes_pos k n :
  (k, n) ∈ cohort_sizes cohort dims df →
  (0 < n)%nat ∧ ∃ r, r ∈ df ∧ key_of cohort dims r = k.
Proof.
  intros Hin. apply elem_of_cohort_sizes in Hin as [(r & Hr & Hk) ->].
  split; [|eauto]. apply (nunique_pos _ (j_user_id r)).
  change (map ?f ?x) with (f <$> x). apply list_elem_of_fmap_2.
  by apply elem_of_group_rows.
Qed.

Lemma roi_of_rows sizes cac tbl :
  roi_rows (roi_of sizes cac tbl) =
  match filter (roi_keeps cac) (ct_rows tbl) with
  | [] => map (blank_roi_row cac (ct_days tbl)) sizes
  | kept => map (roi_row_of cac) kept
  end.
Proof.
  unfold roi_of. cbn [roi_rows].
  set (triple := fun r : cohort_row =>
         (r, fdiv_aligned (Qnat (cr_cohort_size r)) (cac_at cac (cr_key r)),
          map (fun x => fdiv_aligned x (cac_at cac (cr_key r))) (cr_cells r))).
  assert (List.filter
            (fun t : cohort_row * fcell * list fcell =>
               negb (is_pos_inf (snd (fst t))))
            (map triple (ct_rows tbl))
          = map triple (filter (roi_keeps cac) (ct_rows tbl))) as ->.
  { induction (ct_rows tbl) as [|r l IH]; [done|].
    cbn [map List.filter]. rewrite filter_cons, IH.
    destruct (decide (roi_keeps cac r)) as [Hk|Hk].
    - unfold roi_keeps in Hk. unfold triple at 1. cbn [fst snd].
      by rewrite Hk.
    - unfold roi_keeps in Hk. apply not_false_is_true in Hk.
      unfold triple at 1. cbn [fst snd]. by rewrite Hk. }
  destruct (filter (roi_keeps cac) (ct_rows tbl)) as [|r kept]; [done|].
  cbn [map]. f_equal. by rewrite map_map.
Qed.

Lemma roi_of_rows_kept sizes cac tbl :
  Exists (roi_keeps cac) (ct_rows tbl) →
  roi_rows (roi_of sizes cac tbl)
  = map (roi_row_of cac) (filter (roi_keeps cac) (ct_rows tbl)).
Proof.
  intros Hex. rewrite roi_of_rows.
  destruct (filter (roi_keeps cac) (ct_rows tbl)) as [|r kept] eqn:Hf;
    [|done].
  apply Exists_exists in Hex as (r & Hr & Hk).
  assert (r ∈ filter (roi_keeps cac) (ct_rows tbl)) as Hin
    by (by apply list_elem_of_filter).
  rewrite Hf in Hin. by apply elem_of_nil in Hin.
Qed.

Lemma roi_of_rows_blank sizes cac tbl :
  ¬ Exists (roi_keeps cac) (ct_rows tbl) →
  roi_rows (roi_of sizes cac tbl)
  = map (blank_roi_row cac (ct_days tbl)) sizes.
Proof.
  intros Hno. rewrite roi_of_rows.
  destruct (filter (roi_keeps cac) (ct_rows tbl)) as [|r kept] eqn:Hf;
    [done|].
  exfalso. apply Hno, Exists_exists. exists r.
  assert (r ∈ filter (roi_keeps cac) (ct_rows tbl)) as Hin
    by (rewrite Hf; left).
  apply list_elem_of_filter in Hin as [? ?]. done.
Qed.

Lemma elem_of_roi_rows sizes cac tbl rr :
  rr ∈ roi_rows (roi_of sizes cac tbl) →
  (∃ r, r ∈ ct_rows tbl ∧ roi_keeps cac r ∧ rr = roi_row_of cac r) ∨
  (¬ Exists (roi_keeps cac) (ct_rows tbl) ∧
   ∃ s, s ∈ sizes ∧ rr = blank_roi_row cac (ct_days tbl) s).
Proof.
  destruct (decide (Exists (roi_keeps cac) (ct_rows tbl))) as [Hex|Hno].
  - rewrite (roi_of_rows_kept _ _ _ Hex).
    change (map ?f ?x) with (f <$> x).
    intros (r & -> & Hr)%list_elem_of_fmap.
    apply list_elem_of_filter in Hr as [Hk Hr]. left. by exists r.
  - rewrite (roi_of_rows_blank _ _ _ Hno).
    change (map ?f ?x) with (f <$> x).
    intros (s & -> & Hs)%list_elem_of_fmap. right. split; [done|]. by exists s.
Qed.

(** What the rows of the LTV table bring along. *)
Lemma ltv_rows_facts h w tbl r :
  finish_table h (cohort_sizes cohort dims df) w = Ok tbl →
  r ∈ ct_rows tbl →
  (0 < Qnat (cr_cohort_size r))%Q ∧
  ∃ c, cac_at (cac_table cohort dims df) (cr_key r) = Some c.
Proof.
  intros Hok Hr. pose proof (finish_table_sizes _ _ _ _ Hok) as Hs.
  assert ((cr_key r, cr_cohort_size r) ∈ table_sizes tbl) as Hin.
  { unfold table_sizes. change (map ?f ?x) with (f <$> x).
    apply list_elem_of_fmap. by exists r. }
  apply Hs, cohort_sizes_pos in Hin as (Hn & r0 & Hr0 & Hk).
  split; [by apply Qnat_pos|].
  destruct (cac_table_covers r0 Hr0) as (c & Hc). rewrite Hk in Hc.
  exists c. apply cac_at_unique; [apply NoDup_cac_table|done].
Qed.

Lemma roi_keeps_usable h w tbl r :
  finish_table h (cohort_sizes cohort dims df) w = Ok tbl →
  r ∈ ct_rows tbl →
  roi_keeps (cac_table cohort dims df) r ↔
  cac_usable (cac_table cohort dims df) r.
Proof.
  intros Hok Hr. destruct (ltv_rows_facts _ _ _ _ Hok Hr) as [Hn (c & Hc)].
  unfold roi_keeps, cac_usable. rewrite Hc. cbn [fdiv_aligned].
  pose proof (fdiv_pos_inf _ c Hn) as Hinf. split.
  - intros Hk. exists c. split; [by apply cac_at_elem|].
    split; intros H.
    + assert (is_pos_inf (fdiv (Qnat (cr_cohort_size r)) c) = true)
        by (apply Hinf; by left).
      congruence.
    + assert (is_pos_inf (fdiv (Qnat (cr_cohort_size r)) c) = true)
        by (apply Hinf; by right).
      congruence.
  - intros (c' & Hin & Hnz & Hov).
    rewrite (cac_at_unique _ _ _ NoDup_cac_table Hin) in Hc.
    injection Hc as ->. apply not_true_is_false. intros Hi.
    apply Hinf in Hi as [?|?]; done.
Qed.

Lemma roi_of_excludes h w tbl :
  finish_table h (cohort_sizes cohort dims df) w = Ok tbl →
  Exists (cac_usable (cac_table cohort dims df)) (ct_rows tbl) →
  roi_excludes_zero_cac (cac_table cohort dims df) tbl
    (roi_of (cohort_sizes cohort dims df) (cac_table cohort dims df) tbl).
Proof.
  intros Hok Hex.
  assert (Exists (roi_keeps (cac_table cohort dims df)) (ct_rows tbl)) as Hk.
  { apply Exists_exists in Hex as (r & Hr & Hu). apply Exists_exists.
    exists r. split; [done|]. by eapply roi_keeps_usable. }
  unfold roi_excludes_zero_cac. rewrite (roi_of_rows_kept _ _ _ Hk).
  split; [|split].
  - intros k c Hkc Hz Hin. change (map ?f ?x) with (f <$> x) in Hin.
    apply list_elem_of_fmap in Hin as (rr & -> & Hrr).
    apply list_elem_of_fmap in Hrr as (r & -> & Hr).
    apply list_elem_of_filter in Hr as [Hkeep Hr].
    apply (roi_keeps_usable _ _ _ _ Hok Hr) in Hkeep as (c' & Hin & Hnz & _).
    simpl in Hkc.
    pose proof (cac_at_unique _ _ _ NoDup_cac_table Hkc) as H1.
    pose proof (cac_at_unique _ _ _ NoDup_cac_table Hin) as H2.
    rewrite H1 in H2. injection H2 as ->. done.
  - intros rr Hrr. change (map ?f ?x) with (f <$> x) in Hrr.
    apply list_elem_of_fmap in Hrr as (r & -> & Hr).
    apply list_elem_of_filter in Hr as [Hkeep Hr].
    apply (roi_keeps_usable _ _ _ _ Hok Hr) in Hkeep as (c & Hin & Hnz & _).
    exists c. simpl. split; [|done].
    apply cac_at_unique; [apply NoDup_cac_table|done].
  - intros r Hr Hu. change (map ?f ?x) with (f <$> x).
    apply list_elem_of_fmap. exists (roi_row_of (cac_table cohort dims df) r).
    split; [done|]. apply list_elem_of_fmap. exists r. split; [done|].
    apply list_elem_of_filter. split; [|done]. by eapply roi_keeps_usable.
Qed.

Lemma ltv_group_excludes h tbl roi :
  ltv_group_by_dimensions cohort dims df h = Ok (tbl, roi) →
  Exists (cac_usable (cac_table cohort dims df)) (ct_rows tbl) →
  roi_excludes_zero_cac (cac_table cohort dims df) tbl roi.
Proof.
  unfold ltv_group_by_dimensions.
  destruct (check_dims cohort dims _) as [[]|e]; [|done].
  cbn [mbind result_bind].
  destruct (finish_table h _ _) as [t|e] eqn:Hf; [|done].
  cbn [mbind result_bind]. intros [= <- <-].
  by eapply roi_of_excludes.
Qed.
End RoiFacts.

(** C8. Where every cohort has a mean acquisition cost of 0 the ROI tables
    are not empty.  On the organic user alone (no ad-cost row for the
    channel, so an acquisition cost of 0, and a purchase on lifetime day 0),
    the filter leaves the ROI frame without rows and the assignment of the
    cohort sizes that follows brings every cohort back: both ROI tables
    [get_ltv] returns have the row of the organic cohort, its [cac] 0 and
    its cells missing. *)
Theorem zero_cac_cohort_comes_back :
  get_profiles Example.visits_organic Example.purchases_organic
    Example.ad_costs = Ok Example.profiles_organic ∧
  Forall (fun p => (acquisition_cost p == 0)%Q) Example.profiles_organic ∧
  ∃ raw grouped in_time roi_grouped roi_in_time,
    get_ltv 0 1 false Example.profiles_organic Example.purchases_organic
      ["channel"] = Ok (raw, grouped, in_time, roi_grouped, roi_in_time) ∧
    cac_table None ["channel"]
      (ltv_rows 0 1 false Example.profiles_organic
         Example.purchases_organic) = [([CStr "organic"], 0%Q)] ∧
    roi_rows roi_grouped =
      [ {| rr_key := [CStr "organic"]; rr_cohort_size := 1;
           rr_cac := Some 0%Q; rr_cells := [NaN] |} ] ∧
    roi_rows roi_in_time =
      [ {| rr_key := [CStr "organic"; CDate 0]; rr_cohort_size := 1;
           rr_cac := Some 0%Q; rr_cells := [NaN] |} ].
Proof.
  split; [reflexivity|]. split.
  - unfold Example.profiles_organic. repeat constructor.
  - eexists _, _, _, _, _. split; [vm_compute; reflexivity|].
    split; [vm_compute; reflexivity|]. split; reflexivity.
Qed.

(** X9. Beside a cohort whose mean acquisition cost is usable, the cohorts
    whose cost is 0 have no row in the ROI table, every row of the table has
    a nonzero [cac], and every cohort with a usable cost has its row. *)
Theorem zero_cac_cohorts_are_dropped
    (observation_date horizon_days : Z) (ignore_horizon : bool)
    (profiles : list profile) (purchases : list purchase)
    (dimensions : list string)
    (raw : raw_table) (grouped in_time : cohort_table)
    (roi_grouped roi_in_time : roi_table) :
  get_ltv observation_date horizon_days ignore_horizon profiles purchases
    dimensions = Ok (raw, grouped, in_time, roi_grouped, roi_in_time) →
  let rows := ltv_rows observation_date horizon_days ignore_horizon
                profiles purchases in
  let cohort := cohort_column dimensions in
  let static := static_dimensions dimensions in
  (Exists (cac_usable (cac_table cohort static rows)) (ct_rows grouped) →
   roi_excludes_zero_cac (cac_table cohort static rows) grouped roi_grouped) ∧
  (Exists (cac_usable (cac_table cohort (dynamic_dimensions static) rows))
          (ct_rows in_time) →
   roi_excludes_zero_cac (cac_table cohort (dynamic_dimensions static) rows)
     in_time roi_in_time).
Proof.
  intros Hok rows cohort static. apply get_ltv_Ok in Hok as [Hg Ht].
  split; intros Hex; by eapply ltv_group_excludes.
Qed.

(** ** Cells along the lifetime axis *)

Lemma omap_lookup_total {A B} (f : A → option B) (l : list A) i :
  Forall (fun a => is_Some (f a)) l → omap f l !! i = l !! i ≫= f.
Proof.
  intros Hall. revert i. induction Hall as [|a l [b Hb] _ IH]; intros i.
  - done.
  - simpl. rewrite Hb. destruct i as [|i]; simpl; [done|]. apply IH.
Qed.

Lemma lookup_day_range h i :
  (i < Z.to_nat h)%nat → day_range h !! i = Some (Z.of_nat i).
Proof.
  intros Hi. unfold day_range. change (map ?f ?x) with (f <$> x).
  by rewrite list_lookup_fmap, lookup_seq_lt.
Qed.

Lemma length_day_range h : length (day_range h) = Z.to_nat h.
Proof. unfold day_range. by rewrite length_map, length_seq. Qed.

Lemma lookup_col_Some {A} cols (cells : list A) d x :
  lookup_col cols cells d = Some x →
  ∃ i, cols !! i = Some d ∧ cells !! i = Some x.
Proof.
  revert cells. induction cols as [|c cols IH]; intros [|y cells] Hl;
    simpl in Hl; try done.
  destruct (decide (c = d)) as [->|Hne].
  - injection Hl as ->. by exists 0%nat.
  - destruct (IH _ Hl) as (i & ? & ?). by exists (S i).
Qed.

Lemma lookup_col_is_Some {A} cols (cells : list A) d :
  d ∈ cols → length cols = length cells → is_Some (lookup_col cols cells d).
Proof.
  revert cells. induction cols as [|c cols IH]; intros [|y cells] Hd Hlen;
    simpl in *; try done.
  - by apply elem_of_nil in Hd.
  - destruct (decide (c = d)) as [->|Hne]; [by eexists|].
    apply elem_of_cons in Hd as [->|Hd]; [done|]. apply IH; [done|lia].
Qed.

Lemma sorted_lookup_lt cols i j d d' :
  StronglySorted Z.le cols →
  cols !! i = Some d → cols !! j = Some d' → d < d' → (i < j)%nat.
Proof.
  intros Hs. revert i j. induction Hs as [|c cols Hs IH Hall]; intros i j Hi Hj Hlt.
  - done.
  - destruct i as [|i], j as [|j]; simpl in *.
    + injection Hi as ->. injection Hj as ->. lia.
    + lia.
    + injection Hj as ->. apply list_elem_of_lookup_2 in Hi.
      eapply Forall_forall in Hall; [|exact Hi]. lia.
    + apply -> Nat.succ_lt_mono. by apply IH.
Qed.

Lemma no_missing_days cols h d :
  missing_days cols h = [] → 0 <= d < h → d ∈ cols.
Proof.
  intros Hm Hd. destruct (decide (d ∈ cols)) as [|Hn]; [done|].
  assert (d ∈ missing_days cols h) as Hin.
  { apply list_elem_of_filter. split; [done|]. by apply elem_of_day_range. }
  rewrite Hm in Hin. by apply elem_of_nil in Hin.
Qed.

Lemma select_days_lookup cols h cells i x :
  missing_days cols h = [] → length cols = length cells →
  select_days cols h cells !! i = Some x →
  (i < Z.to_nat h)%nat ∧ lookup_col cols cells (Z.of_nat i) = Some x.
Proof.
  intros Hm Hlen. unfold select_days. rewrite omap_lookup_total.
  - intros Hl. destruct (day_range h !! i) as [d|] eqn:Hd; [|done].
    simpl in Hl. apply lookup_lt_Some in Hd as Hi.
    rewrite length_day_range in Hi. rewrite lookup_day_range in Hd by done.
    injection Hd as <-. done.
  - apply Forall_forall. intros d Hd. apply elem_of_day_range in Hd.
    apply lookup_col_is_Some; [|done]. by eapply no_missing_days.
Qed.

Lemma length_select_days cols h cells :
  missing_days cols h = [] → length cols = length cells →
  length (select_days cols h cells) = Z.to_nat h.
Proof.
  intros Hm Hlen. apply Nat.le_antisymm.
  - destruct (decide (length (select_days cols h cells) ≤ Z.to_nat h)%nat)
      as [|Hgt]; [done|].
    destruct (lookup_lt_is_Some_2 (select_days cols h cells) (Z.to_nat h))
      as [x Hx]; [lia|].
    apply select_days_lookup in Hx as [? _]; [lia|done..].
  - remember (length (select_days cols h cells)) as n eqn:Hn.
    destruct (decide (Z.to_nat h ≤ n)%nat) as [|Hlt]; [done|].
    assert (select_days cols h cells !! n = None) as Hnone
      by (apply lookup_ge_None; lia).
    unfold select_days in Hnone. rewrite omap_lookup_total in Hnone.
    + rewrite lookup_day_range in Hnone by lia. simpl in Hnone.
      destruct (lookup_col_is_Some cols cells (Z.of_nat n))
        as [y Hy]; [|done|congruence].
      eapply no_missing_days; [done|lia].
    + apply Forall_forall. intros d Hd. apply elem_of_day_range in Hd.
      apply lookup_col_is_Some; [|done]. by eapply no_missing_days.
Qed.

(** Selecting the horizon from a row that never decreases along sorted
    columns gives cells that never decrease. *)
Lemma select_days_nondecreasing cols h cells :
  StronglySorted Z.le cols → missing_days cols h = [] →
  length cols = length cells → nondecreasing cells →
  nondecreasing (select_days cols h cells).
Proof.
  intros Hs Hm Hlen Hmono i j x y Hij Hi Hj.
  apply select_days_lookup in Hi as [_ Hi]; [|done..].
  apply select_days_lookup in Hj as [_ Hj]; [|done..].
  destruct (decide (i = j)) as [->|Hne].
  - rewrite Hi in Hj. injection Hj as ->. apply Qle_refl.
  - apply lookup_col_Some in Hi as (pi & Hci & Hxi).
    apply lookup_col_Some in Hj as (pj & Hcj & Hxj).
    assert (pi < pj)%nat as Hlt
      by (eapply (sorted_lookup_lt cols); [done..|lia]).
    eapply Hmono; [|done..]. lia.
Qed.

Lemma cumsum_from_lookup_ge acc l i x :
  Forall (fun v => (0 <= v)%Q) l →
  cumsum_from acc l !! i = Some x → (acc <= x)%Q.
Proof.
  intros Hall. revert acc i. induction Hall as [|v l Hv _ IH]; intros acc i Hi.
  - done.
  - simpl in Hi. destruct i as [|i]; simpl in Hi.
    + injection Hi as <-. rewrite <- (Qplus_0_r acc) at 1.
      apply Qplus_le_compat; [apply Qle_refl|done].
    + apply IH in Hi. eapply Qle_trans; [|exact Hi].
      rewrite <- (Qplus_0_r acc) at 1.
      apply Qplus_le_compat; [apply Qle_refl|done].
Qed.

Lemma cumsum_from_nondecreasing acc l :
  Forall (fun v => (0 <= v)%Q) l → nondecreasing (cumsum_from acc l).
Proof.
  intros Hall. revert acc. induction Hall as [|v l Hv Hall IH]; intros acc.
  - intros i j x y _ Hi. done.
  - intros i j x y Hij Hi Hj. simpl in *.
    destruct i as [|i], j as [|j]; simpl in *; try lia.
    + injection Hi as <-. injection Hj as <-. apply Qle_refl.
    + injection Hi as <-. by eapply cumsum_from_lookup_ge.
    + eapply IH; [|done..]. lia.
Qed.

Lemma length_cumsum_from acc l : length (cumsum_from acc l) = length l.
Proof. revert acc. induction l; intros acc; simpl; [done|]. by rewrite IHl. Qed.

Lemma div_by_size_nondecreasing n cells :
  nondecreasing cells → nondecreasing (div_by_size n cells).
Proof.
  intros Hmono i j x y Hij Hi Hj. unfold div_by_size in *.
  change (map ?f ?x) with (f <$> x) in *.
  rewrite list_lookup_fmap in Hi, Hj.
  destruct (cells !! i) as [a|] eqn:Ha; [|done].
  destruct (cells !! j) as [b|] eqn:Hb; [|done].
  simpl in *. injection Hi as <-. injection Hj as <-.
  unfold Qdiv. apply Qmult_le_compat_r; [by eapply Hmono|].
  apply Qinv_le_0_compat, Qnat_nonneg.
Qed.

Lemma map_fillna0_Some (l : list Q) : map fillna0 (map Some l) = l.
Proof. rewrite map_map. simpl. apply map_id. Qed.

Lemma zeros_nondecreasing (cols : list Z) :
  nondecreasing (map fillna0 (map (fun _ => None) cols)).
Proof.
  intros i j x y _ Hi Hj. rewrite map_map in Hi, Hj. simpl in *.
  change (map ?f ?x) with (f <$> x) in *.
  rewrite list_lookup_fmap in Hi, Hj.
  destruct (cols !! i); [|done]. destruct (cols !! j); [|done].
  simpl in *. injection Hi as <-. injection Hj as <-. apply Qle_refl.
Qed.

Lemma fillna0_pivot_nunique_nonneg cohort dims df k (cols : list Z) :
  Forall (fun v => (0 <= v)%Q)
    (map fillna0 (map (pivot_cell cohort dims (agg_nunique) df k) cols)).
Proof.
  apply Forall_forall. intros v Hv. rewrite map_map in Hv.
  change (map ?f ?x) with (f <$> x) in Hv.
  apply list_elem_of_fmap in Hv as (c & -> & _).
  unfold pivot_cell. destruct (cell_rows cohort dims df k c); simpl.
  - apply Qle_refl.
  - apply Qnat_nonneg.
Qed.

Section ConversionCells.
Context (cohort : option string) (dims : list string)
        (df : list jrow) (h : Z).

Lemma conversion_group_rows tbl row :
  conversion_group_by_dimensions cohort dims df h = Ok tbl →
  row ∈ ct_rows tbl →
  missing_days (pivot_columns df) h = [] ∧
  (cr_key row, cr_cohort_size row) ∈ cohort_sizes cohort dims df ∧
  ∃ cells,
    cr_cells row = select_days (pivot_columns df) h
                     (div_by_size (cr_cohort_size row) cells) ∧
    (cells = cumsum (map fillna0
               (map (pivot_cell cohort dims agg_nunique df (cr_key row))
                    (pivot_columns df)))
     ∨ cells = map fillna0 (map (fun _ => None) (pivot_columns df))).
Proof.
  unfold conversion_group_by_dimensions.
  destruct (check_dims cohort dims _) as [[]|e]; [|done].
  cbn [mbind result_bind]. intros Hok Hrow.
  apply finish_table_Ok in Hok as (Hm & _ & Hrows). simpl in Hm.
  split; [done|]. rewrite Hrows in Hrow.
  change (map ?f ?x) with (f <$> x) in Hrow.
  apply list_elem_of_fmap in Hrow as ([[k n] cells] & -> & Hin). simpl.
  apply elem_of_merge_sizes in Hin as [Hs Hcells]. split; [done|].
  exists cells. split; [done|].
  destruct Hcells as [(cs & Hcs & ->)|[_ ->]]; [left|by right].
  simpl in Hcs. change (map ?f ?x) with (f <$> x) in Hcs at 1.
  apply list_elem_of_fmap in Hcs as ([k' pcs] & [= -> ->] & Hp).
  simpl in *. change (map ?f ?x) with (f <$> x) in Hp.
  apply list_elem_of_fmap in Hp as (k'' & [= -> ->] & _).
  by rewrite map_fillna0_Some.
Qed.

Lemma conversion_group_nondecreasing tbl row :
  conversion_group_by_dimensions cohort dims df h = Ok tbl →
  row ∈ ct_rows tbl →
  length (cr_cells row) = Z.to_nat h ∧ nondecreasing (cr_cells row).
Proof.
  intros Hok Hrow.
  destruct (conversion_group_rows _ _ Hok Hrow)
    as (Hm & _ & cells & -> & Hcells).
  assert (length (pivot_columns df) = length cells) as Hlen.
  { destruct Hcells as [-> | ->].
    - unfold cumsum. by rewrite length_cumsum_from, !length_map.
    - by rewrite !length_map. }
  assert (length (pivot_columns df)
          = length (div_by_size (cr_cohort_size row) cells)) as Hlen'
    by (unfold div_by_size; by rewrite length_map).
  split; [by apply length_select_days|].
  apply select_days_nondecreasing; [apply sort_by_Z_sorted|done..|].
  apply div_by_size_nondecreasing.
  destruct Hcells as [-> | ->].
  - apply cumsum_from_nondecreasing, fillna0_pivot_nunique_nonneg.
  - apply zeros_nondecreasing.
Qed.
End ConversionCells.

(** In both tables [get_conversion] returns, every row has one cell per
    lifetime day below the horizon, and the cells never decrease as the day
    grows. *)
Lemma get_conversion_nondecreasing
    (observation_date horizon_days : Z) (ignore_horizon : bool)
    (profiles : list profile) (purchases : list purchase)
    (dimensions : list string)
    (raw : raw_table) (grouped in_time : cohort_table) :
  get_conversion observation_date horizon_days ignore_horizon profiles
    purchases dimensions = Ok (raw, grouped, in_time) →
  ∀ row, row ∈ ct_rows grouped ∨ row ∈ ct_rows in_time →
    length (cr_cells row) = Z.to_nat horizon_days ∧
    nondecreasing (cr_cells row).
Proof.
  intros Hok row Hrow. apply get_conversion_Ok in Hok as [Hg Ht].
  destruct Hrow as [Hrow|Hrow].
  - eapply conversion_group_nondecreasing; [exact Hg|exact Hrow].
  - eapply conversion_group_nondecreasing; [exact Ht|exact Hrow].
Qed.

(** ** Rates *)

Lemma NoDup_map_filter {A B} (f : A → B) (P : A → Prop)
    `{∀ x, Decision (P x)} (l : list A) :
  NoDup (map f l) → NoDup (map f (filter P l)).
Proof.
  intros Hnd. eapply sublist_NoDup; [exact Hnd|].
  change (map ?g ?x) with (g <$> x). apply fmap_sublist, sublist_filter.
Qed.

Lemma sum_list_with_plus {A} (f g : A → nat) (l : list A) :
  sum_list_with (fun c => f c + g c)%nat l
  = (sum_list_with f l + sum_list_with g l)%nat.
Proof. induction l as [|c l IH]; simpl; [done|]. rewrite IH. lia. Qed.

Lemma sum_list_with_pointwise {A} (f g : A → nat) (l : list A) :
  (∀ c, f c = g c) → sum_list_with f l = sum_list_with g l.
Proof. intros Hfg. induction l as [|c l IH]; simpl; [done|]. by rewrite Hfg, IH. Qed.

Lemma sum_list_with_zero {A} (f : A → nat) (l : list A) :
  (∀ c, c ∈ l → f c = 0%nat) → sum_list_with f l = 0%nat.
Proof.
  induction l as [|c l IH]; intros Hz; simpl; [done|].
  rewrite (Hz c) by left. rewrite IH; [done|]. intros c' Hc'. apply Hz. by right.
Qed.

(** A row falls into at most one of the distinct columns. *)
Lemma sum_indicator (cols : list Z) (P : Z → Prop) `{∀ c, Decision (P c)} :
  NoDup cols → (∀ c c', P c → P c' → c = c') →
  (sum_list_with (fun c => if decide (P c) then 1 else 0) cols ≤ 1)%nat.
Proof.
  intros Hnd Huniq. induction Hnd as [|c cols Hc Hnd IH]; simpl; [lia|].
  destruct (decide (P c)) as [Hp|Hp]; [|lia].
  rewrite sum_list_with_zero; [lia|].
  intros c' Hc'. destruct (decide (P c')) as [Hp'|]; [|done].
  rewrite (Huniq _ _ Hp Hp') in Hc. done.
Qed.

Lemma Qsum_Qnat {A} (f : A → nat) (l : list A) :
  (Qsum (map (fun c => Qnat (f c)) l) == Qnat (sum_list_with f l))%Q.
Proof.
  induction l as [|c l IH]; simpl; [reflexivity|].
  rewrite IH. unfold Qnat. rewrite Nat2Z.inj_add, inject_Z_plus. reflexivity.
Qed.

Lemma cumsum_from_lookup_le acc l i x :
  Forall (fun v => (0 <= v)%Q) l →
  cumsum_from acc l !! i = Some x → (x <= acc + Qsum l)%Q.
Proof.
  intros Hall. revert acc i. induction Hall as [|v l Hv Hall IH]; intros acc i Hi.
  - done.
  - simpl in Hi. destruct i as [|i]; simpl in *.
    + injection Hi as <-. apply Qplus_le_compat; [apply Qle_refl|].
      rewrite <- (Qplus_0_r v) at 1. apply Qplus_le_compat; [apply Qle_refl|].
      clear -Hall. induction Hall as [|w l Hw _ IH]; simpl; [apply Qle_refl|].
      rewrite <- (Qplus_0_r 0). by apply Qplus_le_compat.
    + apply IH in Hi. by rewrite Qplus_assoc.
Qed.

Lemma elem_of_select_days cols h cells x :
  x ∈ select_days cols h cells → x ∈ cells.
Proof.
  unfold select_days. rewrite list_elem_of_omap. intros (d & _ & Hl).
  apply lookup_col_Some in Hl as (i & _ & Hi).
  by eapply list_elem_of_lookup_2.
Qed.

(** Dividing counts that do not exceed the cohort size gives rates. *)
Lemma rates_within_unit cols h n cells :
  (0 < n)%nat →
  (∀ c, c ∈ cells → (0 <= c)%Q ∧ (c <= Qnat n)%Q) →
  within_unit (select_days cols h (div_by_size n cells)).
Proof.
  intros Hn Hb. apply Forall_forall. intros x Hx.
  apply elem_of_select_days in Hx. unfold div_by_size in Hx.
  change (map ?f ?x) with (f <$> x) in Hx.
  apply list_elem_of_fmap in Hx as (c & -> & Hc).
  destruct (Hb c Hc) as [H0 H1]. pose proof (Qnat_pos n Hn) as Hpos. split.
  - apply Qle_shift_div_l; [done|]. by rewrite Qmult_0_l.
  - apply Qle_shift_div_r; [done|]. by rewrite Qmult_1_l.
Qed.

Section Rates.
Context (cohort : option string) (dims : list string)
        (df : list jrow) (h : Z).

Lemma fillna0_pivot_nunique k c :
  fillna0 (pivot_cell cohort dims agg_nunique df k c)
  = Qnat (nunique (map j_user_id (cell_rows cohort dims df k c))).
Proof.
  unfold pivot_cell. by destruct (cell_rows cohort dims df k c).
Qed.

Lemma cell_rows_group k c r :
  r ∈ cell_rows cohort dims df k c →
  r ∈ group_rows (key_of cohort dims) k df.
Proof.
  unfold cell_rows. rewrite list_elem_of_filter, elem_of_group_rows. tauto.
Qed.

(** Distinct users active on one day are users of the cohort. *)
Lemma day_count_le_size k c :
  (Qnat (nunique (map j_user_id (cell_rows cohort dims df k c)))
   <= Qnat (nunique (map j_user_id
                       (group_rows (key_of cohort dims) k df))))%Q.
Proof.
  apply Qnat_le, nunique_subseteq. intros u.
  change (map ?f ?x) with (f <$> x). rewrite !list_elem_of_fmap.
  intros (r & -> & Hr). exists r. split; [done|]. by eapply cell_rows_group.
Qed.

Lemma retention_group_rows tbl row :
  retention_group_by_dimensions cohort dims df h = Ok tbl →
  row ∈ ct_rows tbl →
  (cr_key row, cr_cohort_size row) ∈ cohort_sizes cohort dims df ∧
  ∃ cells,
    cr_cells row = select_days (pivot_columns df) h
                     (div_by_size (cr_cohort_size row) cells) ∧
    (cells = map fillna0
               (map (pivot_cell cohort dims agg_nunique df (cr_key row))
                    (pivot_columns df))
     ∨ cells = map fillna0 (map (fun _ => None) (pivot_columns df))).
Proof.
  unfold retention_group_by_dimensions.
  destruct (check_dims cohort dims _) as [[]|e]; [|done].
  cbn [mbind result_bind]. intros Hok Hrow.
  apply finish_table_Ok in Hok as (Hm & _ & Hrows). simpl in Hm.
  rewrite Hrows in Hrow.
  change (map ?f ?x) with (f <$> x) in Hrow.
  apply list_elem_of_fmap in Hrow as ([[k n] cells] & -> & Hin). simpl.
  apply elem_of_merge_sizes in Hin as [Hs Hcells]. split; [done|].
  exists cells. split; [done|].
  destruct Hcells as [(cs & Hcs & ->)|[_ ->]]; [left|by right].
  simpl in Hcs. change (map ?f ?x) with (f <$> x) in Hcs.
  apply list_elem_of_fmap in Hcs as (k'' & [= -> ->] & _). done.
Qed.

Lemma zeros_bounded n c :
  c ∈ map fillna0 (map (fun _ : Z => None) (pivot_columns df)) →
  (0 <= c)%Q ∧ (c <= Qnat n)%Q.
Proof.
  rewrite map_map. change (map ?f ?x) with (f <$> x).
  intros (d & -> & _)%list_elem_of_fmap. simpl.
  split; [apply Qle_refl|apply Qnat_nonneg].
Qed.

Lemma retention_group_within_unit tbl row :
  retention_group_by_dimensions cohort dims df h = Ok tbl →
  row ∈ ct_rows tbl → within_unit (cr_cells row).
Proof.
  intros Hok Hrow.
  destruct (retention_group_rows _ _ Hok Hrow) as (Hs & cells & -> & Hcells).
  apply cohort_sizes_pos in Hs as Hn. destruct Hn as [Hn _].
  apply elem_of_cohort_sizes in Hs as [_ Hsize].
  apply rates_within_unit; [done|]. intros c Hc.
  destruct Hcells as [-> | ->]; [|by apply zeros_bounded].
  rewrite map_map in Hc. change (map ?f ?x) with (f <$> x) in Hc.
  apply list_elem_of_fmap in Hc as (d & -> & _).
  rewrite fillna0_pivot_nunique. split; [apply Qnat_nonneg|].
  rewrite Hsize. apply day_count_le_size.
Qed.

(** From here on no user has two joined rows. *)
Hypothesis Huniq : NoDup (map j_user_id df).

Lemma cell_count_one_user k c :
  nunique (map j_user_id (cell_rows cohort dims df k c))
  = length (cell_rows cohort dims df k c).
Proof.
  rewrite nunique_NoDup; [by rewrite length_map|].
  by apply NoDup_map_filter.
Qed.

Lemma group_count_one_user k :
  nunique (map j_user_id (group_rows (key_of cohort dims) k df))
  = length (group_rows (key_of cohort dims) k df).
Proof.
  rewrite nunique_NoDup; [by rewrite length_map|].
  by apply NoDup_map_filter.
Qed.

Lemma cells_partition_group k (cols : list Z) (l : list jrow) :
  NoDup cols →
  (sum_list_with (fun c => length (cell_rows cohort dims l k c)) cols
   ≤ length (group_rows (key_of cohort dims) k l))%nat.
Proof.
  intros Hnd. induction l as [|r l IH].
  - rewrite sum_list_with_zero; [simpl; lia|done].
  - unfold cell_rows, group_rows in *.
    erewrite (sum_list_with_pointwise _
      (fun c => ((if decide (key_of cohort dims r = k ∧ j_lifetime r = Some c)
                  then 1 else 0)
                 + length (filter (fun r0 => key_of cohort dims r0 = k
                                             ∧ j_lifetime r0 = Some c) l))%nat)).
    2:{ intros c. rewrite filter_cons.
        destruct (decide (key_of cohort dims r = k ∧ j_lifetime r = Some c));
          simpl; lia. }
    rewrite sum_list_with_plus, filter_cons.
    pose proof (sum_indicator cols
      (fun c => key_of cohort dims r = k ∧ j_lifetime r = Some c) Hnd) as Hind.
    destruct (decide (key_of cohort dims r = k)) as [Hk|Hk].
    + simpl. etransitivity; [apply Nat.add_le_mono; [apply Hind|apply IH]|lia].
      intros c c' [_ Hc] [_ Hc']. congruence.
    + rewrite sum_list_with_zero; [simpl; apply IH|].
      intros c _. by rewrite decide_False by tauto.
Qed.

Lemma NoDup_pivot_columns : NoDup (pivot_columns df).
Proof. apply NoDup_sort_by, NoDup_remove_dups. Qed.

Lemma conversion_total_le_size k :
  (Qsum (map fillna0
           (map (pivot_cell cohort dims agg_nunique df k) (pivot_columns df)))
   <= Qnat (nunique (map j_user_id
                       (group_rows (key_of cohort dims) k df))))%Q.
Proof.
  rewrite map_map.
  rewrite (map_ext _ (fun c => Qnat (length (cell_rows cohort dims df k c)))).
  2:{ intros c. by rewrite fillna0_pivot_nunique, cell_count_one_user. }
  rewrite Qsum_Qnat, group_count_one_user.
  apply Qnat_le, cells_partition_group, NoDup_pivot_columns.
Qed.

Lemma conversion_group_within_unit tbl row :
  conversion_group_by_dimensions cohort dims df h = Ok tbl →
  row ∈ ct_rows tbl → within_unit (cr_cells row).
Proof.
  intros Hok Hrow.
  destruct (conversion_group_rows _ _ _ _ _ _ Hok Hrow)
    as (_ & Hs & cells & -> & Hcells).
  apply cohort_sizes_pos in Hs as Hn. destruct Hn as [Hn _].
  apply elem_of_cohort_sizes in Hs as [_ Hsize].
  apply rates_within_unit; [done|]. intros c Hc.
  destruct Hcells as [-> | ->]; [|by apply zeros_bounded].
  apply list_elem_of_lookup in Hc as (i & Hi). unfold cumsum in Hi.
  pose proof (fillna0_pivot_nunique_nonneg cohort dims df (cr_key row)
                (pivot_columns df)) as Hnn.
  split.
  - by eapply cumsum_from_lookup_ge.
  - eapply Qle_trans; [by eapply cumsum_from_lookup_le|].
    rewrite Qplus_0_l, Hsize. apply conversion_total_le_size.
Qed.
End Rates.

(** ** One joined row per user in the conversion engine *)

Lemma filter_key_at_most_one {B} (f : B → Z) (u : Z) (l : list B) :
  NoDup (map f l) → (length (filter (fun b => u = f b) l) ≤ 1)%nat.
Proof.
  induction l as [|b l IH]; intros Hnd; [simpl; lia|].
  simpl in Hnd. apply NoDup_cons in Hnd as [Hb Hnd].
  rewrite filter_cons. destruct (decide (u = f b)) as [->|Hne]; [|by apply IH].
  simpl. assert (filter (fun b0 => f b = f b0) l = []) as ->; [|simpl; lia].
  destruct (filter (fun b0 => f b = f b0) l) as [|b' l'] eqn:Hf; [done|].
  assert (b' ∈ filter (fun b0 => f b = f b0) l) as Hin by (rewrite Hf; left).
  apply list_elem_of_filter in Hin as [Heq Hin]. exfalso. apply Hb.
  rewrite Heq. change (map ?g ?x) with (g <$> x). by apply list_elem_of_fmap_2.
Qed.

Lemma merge_left_one_to_one {A B C} (matches : A → B → Prop)
    `{∀ a b, Decision (matches a b)} (combine : A → option B → C)
    (proj : C → A) (left : list A) (right : list B) :
  (∀ a, (length (filter (matches a) right) ≤ 1)%nat) →
  (∀ a o, proj (combine a o) = a) →
  map proj (merge_left matches combine left right) = left.
Proof.
  intros Hone Hproj. unfold merge_left.
  induction left as [|a left IH]; [done|].
  cbn [flat_map]. rewrite map_app, IH.
  specialize (Hone a).
  destruct (filter (matches a) right) as [|b [|b' ms]]; simpl in *.
  - by rewrite Hproj.
  - by rewrite Hproj.
  - lia.
Qed.

Lemma NoDup_omap_keys {K V} (F : K → option (K * V)) (ks : list K) :
  NoDup ks → (∀ k x, F k = Some x → fst x = k) →
  NoDup (map fst (omap F ks)).
Proof.
  intros Hnd HF. induction Hnd as [|k ks Hk Hnd IH]; simpl; [constructor|].
  destruct (F k) as [x|] eqn:Hx; [|done]. simpl.
  apply NoDup_cons. split; [|done].
  intros Hin. apply Hk. change (map ?g ?x) with (g <$> x) in Hin.
  apply list_elem_of_fmap in Hin as (y & Hy & Hyin).
  apply list_elem_of_omap in Hyin as (k' & Hk' & Hy').
  apply HF in Hx. apply HF in Hy'. congruence.
Qed.

Lemma omap_map {A B C} (f : B → option C) (g : A → B) (l : list A) :
  omap f (map g l) = omap (fun a => f (g a)) l.
Proof.
  induction l as [|a l IH]; simpl; [done|].
  destruct (f (g a)); [f_equal|]; exact IH.
Qed.

Lemma NoDup_first_purchases purchases :
  NoDup (map fst (first_purchases purchases)).
Proof.
  unfold first_purchases, groupby. rewrite omap_map.
  apply NoDup_omap_keys; [apply NoDup_group_keys|].
  intros k x. simpl.
  destruct (group_rows p_user_id k (sort_by purchase_leb purchases))
    as [|p l] eqn:Hg; [done|].
  simpl. intros [= <-]. simpl.
  assert (p ∈ group_rows p_user_id k (sort_by purchase_leb purchases)) as Hin
    by (rewrite Hg; left).
  by apply elem_of_group_rows in Hin as [_ ?].
Qed.

Lemma conversion_rows_one_per_user obs h ign profiles purchases :
  NoDup (map user_id profiles) →
  NoDup (map j_user_id (conversion_rows obs h ign profiles purchases)).
Proof.
  intros Hnd. unfold conversion_rows.
  assert (map j_user_id
            (merge_left (on_user_id fst)
               (fun p e => mk_jrow p (snd <$> e) None)
               (horizon_filter profiles obs h ign)
               (first_purchases purchases))
          = map user_id (horizon_filter profiles obs h ign)) as ->.
  { rewrite <- (merge_left_one_to_one (on_user_id fst)
                 (fun p e => mk_jrow p (snd <$> e) None) j_profile
                 (horizon_filter profiles obs h ign)
                 (first_purchases purchases)) at 2.
    - by rewrite map_map.
    - intros p. apply (filter_key_at_most_one fst), NoDup_first_purchases.
    - done. }
  by apply NoDup_map_filter.
Qed.

(** C6. Every cell of the conversion tables and of the retention tables
    lies in [0, 1]; for conversion this rests on the profiles holding one
    row per user. *)
Theorem normalized_cells_within_unit
    (observation_date horizon_days : Z) (ignore_horizon : bool)
    (profiles : list profile) (purchases : list purchase)
    (sessions : list session) (dimensions : list string) :
  (NoDup (map user_id profiles) →
   ∀ raw grouped in_time,
     get_conversion observation_date horizon_days ignore_horizon
       profiles purchases dimensions = Ok (raw, grouped, in_time) →
     ∀ row, row ∈ ct_rows grouped ∨ row ∈ ct_rows in_time →
       within_unit (cr_cells row)) ∧
  (∀ raw grouped in_time,
     get_retention observation_date horizon_days ignore_horizon
       profiles sessions dimensions = Ok (raw, grouped, in_time) →
     ∀ row, row ∈ ct_rows grouped ∨ row ∈ ct_rows in_time →
       within_unit (cr_cells row)).
Proof.
  split.
  - intros Hnd raw grouped in_time Hok row Hrow.
    apply get_conversion_Ok in Hok as [Hg Ht].
    pose proof (conversion_rows_one_per_user observation_date horizon_days
                  ignore_horizon profiles purchases Hnd) as Huniq.
    destruct Hrow as [Hrow|Hrow].
    + eapply conversion_group_within_unit; [exact Huniq|exact Hg|exact Hrow].
    + eapply conversion_group_within_unit; [exact Huniq|exact Ht|exact Hrow].
  - intros raw grouped in_time Hok row Hrow.
    apply get_retention_Ok in Hok as [Hg Ht].
    destruct Hrow as [Hrow|Hrow].
    + eapply retention_group_within_unit; [exact Hg|exact Hrow].
    + eapply retention_group_within_unit; [exact Ht|exact Hrow].
Qed.

(** ** The properties at the worked inputs *)

(** C1 (as stated). [get_retention] does not accumulate: on the worked
    input the non-payers' row holds 1 on day 0 and 0 on day 1. *)
Lemma retention_cells_decrease :
  ∃ raw grouped in_time row,
    get_retention 1 2 false Example.profiles_three Example.sessions_full []
      = Ok (raw, grouped, in_time) ∧
    row ∈ ct_rows grouped ∧
    ¬ nondecreasing (cr_cells row).
Proof.
  eexists _, _, _, _. split; [vm_compute; reflexivity|].
  split; [left|]. simpl. intros Hmono.
  specialize (Hmono 0%nat 1%nat _ _ (le_S _ _ (le_n _)) eq_refl eq_refl).
  unfold Qle in Hmono. simpl in Hmono. lia.
Qed.

(** C6 (as stated). On a profile table that lists a user twice a conversion
    cell exceeds 1: the user counts once in the cohort size and once under
    each of two lifetime days. *)
Lemma conversion_cell_exceeds_one :
  ∃ raw grouped in_time,
    get_conversion 2 2 false Example.profiles_repeated
      Example.purchase_of_repeated [] = Ok (raw, grouped, in_time) ∧
    map cr_cohort_size (ct_rows grouped) = [1%nat] ∧
    map cr_cells (ct_rows grouped) = [[1%Q; 2%Q]] ∧
    ¬ (∀ row, row ∈ ct_rows grouped → within_unit (cr_cells row)).
Proof.
  eexists _, _, _. split; [vm_compute; reflexivity|].
  split; [reflexivity|]. split; [reflexivity|].
  intros Hall. specialize (Hall _ (list_elem_of_here _ _)).
  cbn [cr_cells] in Hall. apply Forall_cons in Hall as [_ Hall].
  apply Forall_cons in Hall as [[_ Hle] _].
  unfold Qle in Hle. simpl in Hle. lia.
Qed.

Lemma normalized_cells_within_unit_example :
  (∃ raw grouped in_time,
     get_conversion 1 2 false Example.profiles_three Example.purchases_full
       ["channel"] = Ok (raw, grouped, in_time) ∧
     ∀ row, row ∈ ct_rows grouped ∨ row ∈ ct_rows in_time →
       within_unit (cr_cells row)) ∧
  (∃ raw grouped in_time,
     get_retention 1 2 false Example.profiles_three Example.sessions_full
       ["channel"] = Ok (raw, grouped, in_time) ∧
     ∀ row, row ∈ ct_rows grouped ∨ row ∈ ct_rows in_time →
       within_unit (cr_cells row)).
Proof.
  destruct (normalized_cells_within_unit 1 2 false Example.profiles_three
              Example.purchases_full Example.sessions_full ["channel"])
    as [Hc Hr].
  split.
  - eexists _, _, _. split; [vm_compute; reflexivity|].
    eapply Hc.
    + compute_done.
    + vm_compute; reflexivity.
  - eexists _, _, _. split; [vm_compute; reflexivity|].
    eapply Hr. vm_compute; reflexivity.
Defined.

Lemma cohort_size_conservation_example :
  ∃ raw grouped in_time,
    get_conversion 1 2 false Example.profiles_three Example.purchases_full
      ["channel"] = Ok (raw, grouped, in_time) ∧
    table_sizes grouped = [([CStr "ads"], 2%nat); ([CStr "organic"], 1%nat)] ∧
    sizes_exact (horizon_filter Example.profiles_three 1 2 false) None
      ["channel"] (table_sizes grouped) ∧
    sizes_cover (horizon_filter Example.profiles_three 1 2 false) None
      ["channel"] (table_sizes grouped).
Proof.
  destruct (cohort_size_conservation 1 2 false Example.profiles_three
              Example.purchases_full Example.sessions_full ["channel"])
    as (Hc & _ & _).
  eexists _, _, _. split; [vm_compute; reflexivity|].
  split; [reflexivity|].
  eapply Hc. vm_compute; reflexivity.
Defined.

Lemma zero_cac_cohorts_are_dropped_example :
  ∃ raw grouped in_time roi_grouped roi_in_time,
    get_ltv 1 2 false Example.profiles_three Example.purchases_full
      ["channel"] = Ok (raw, grouped, in_time, roi_grouped, roi_in_time) ∧
    map cr_key (ct_rows grouped) = [[CStr "ads"]; [CStr "organic"]] ∧
    map rr_key (roi_rows roi_grouped) = [[CStr "ads"]] ∧
    roi_excludes_zero_cac
      (cac_table None ["channel"]
         (ltv_rows 1 2 false Example.profiles_three Example.purchases_full))
      grouped roi_grouped.
Proof.
  eexists _, _, _, _, _. split; [vm_compute; reflexivity|].
  split; [reflexivity|]. split; [reflexivity|].
  eapply (zero_cac_cohorts_are_dropped 1 2 false Example.profiles_three
            Example.purchases_full ["channel"]).
  - vm_compute; reflexivity.
  - apply Exists_cons_hd. exists (10 # 2)%Q. split; [|split].
    + vm_compute. left.
    + by vm_compute.
    + by vm_compute.
Defined.

(** ** Which objects a call writes to *)

Module ObjFacts.
Lemma bind_Ok {A B} (m : prog A) (f : A → prog B) h b h'' :
  (m ≫= f) h = Ok (b, h'') →
  ∃ a h', m h = Ok (a, h') ∧ f a h' = Ok (b, h'').
Proof.
  unfold mbind, prog_bind. destruct (m h) as [[a h']|e]; [|done]. eauto.
Qed.

Lemma expect_Ok {A} (sel : table → option A) r h a h' :
  Obj.expect sel r h = Ok (a, h') →
  h' = h ∧ ∃ t, h !! r = Some t ∧ sel t = Some a.
Proof.
  unfold Obj.expect, Obj.load, mbind, prog_bind.
  destruct (h !! r) as [t|]; [|done].
  destruct (sel t) as [a'|] eqn:Hsel; [|done].
  unfold mret, prog_ret. intros [= <- <-]. eauto.
Qed.

Lemma lift_Ok {A} (m : result A) h a h' :
  Obj.lift m h = Ok (a, h') → h' = h ∧ m = Ok a.
Proof. unfold Obj.lift. destruct m; [|done]. by intros [= -> ->]. Qed.

Lemma as_profiles_Some t l : Obj.as_profiles t = Some l → t = TProfiles l.
Proof. destruct t; simpl; congruence. Qed.
Lemma as_purchases_Some t l : Obj.as_purchases t = Some l → t = TPurchases l.
Proof. destruct t; simpl; congruence. Qed.
Lemma as_sessions_Some t l : Obj.as_sessions t = Some l → t = TSessions l.
Proof. destruct t; simpl; congruence. Qed.
Lemma as_visits_Some t l : Obj.as_visits t = Some l → t = TVisits l.
Proof. destruct t; simpl; congruence. Qed.
Lemma as_ad_costs_Some t l : Obj.as_ad_costs t = Some l → t = TAdCosts l.
Proof. destruct t; simpl; congruence. Qed.
Lemma as_num_Some t l : Obj.as_num t = Some l → t = TNum l.
Proof. destruct t; simpl; congruence. Qed.

Lemma append_leaves_old (h new : heap) (r : ref) :
  (r < length h)%nat → (h ++ new) !! r = h !! r.
Proof. intros Hr. by apply lookup_app_l. Qed.

(** [get_conversion] reads its two tables and appends its three results. *)
Lemma get_conversion_run profiles purchases obs hz dims ign h refs h' :
  Obj.get_conversion profiles purchases obs hz dims ign h = Ok (refs, h') →
  ∃ ps es raw grouped in_time,
    h !! profiles = Some (TProfiles ps) ∧
    h !! purchases = Some (TPurchases es) ∧
    get_conversion obs hz ign ps es dims = Ok (raw, grouped, in_time) ∧
    refs = (length h, S (length h), S (S (length h))) ∧
    h' = h ++ [TRaw raw; TCohort grouped; TCohort in_time].
Proof.
  unfold Obj.get_conversion. intros Hrun.
  apply bind_Ok in Hrun as (ps & h1 & Hps & Hrun).
  apply expect_Ok in Hps as (-> & t1 & Ht1 & ->%as_profiles_Some).
  apply bind_Ok in Hrun as (es & h2 & Hes & Hrun).
  apply expect_Ok in Hes as (-> & t2 & Ht2 & ->%as_purchases_Some).
  apply bind_Ok in Hrun as ([[raw g] t] & h3 & Hout & Hrun).
  apply lift_Ok in Hout as (-> & Hout).
  unfold Obj.alloc, mbind, prog_bind, mret, prog_ret in Hrun.
  injection Hrun as <- <-.
  exists ps, es, raw, g, t. repeat split; try done.
  - by rewrite !length_app, !Nat.add_1_r.
  - by rewrite <- !app_assoc.
Qed.

Lemma get_retention_run profiles sessions obs hz dims ign h refs h' :
  Obj.get_retention profiles sessions obs hz dims ign h = Ok (refs, h') →
  ∃ ps ss raw grouped in_time,
    h !! profiles = Some (TProfiles ps) ∧
    h !! sessions = Some (TSessions ss) ∧
    get_retention obs hz ign ps ss dims = Ok (raw, grouped, in_time) ∧
    refs = (length h, S (length h), S (S (length h))) ∧
    h' = h ++ [TRaw raw; TCohort grouped; TCohort in_time].
Proof.
  unfold Obj.get_retention. intros Hrun.
  apply bind_Ok in Hrun as (ps & h1 & Hps & Hrun).
  apply expect_Ok in Hps as (-> & t1 & Ht1 & ->%as_profiles_Some).
  apply bind_Ok in Hrun as (ss & h2 & Hss & Hrun).
  apply expect_Ok in Hss as (-> & t2 & Ht2 & ->%as_sessions_Some).
  apply bind_Ok in Hrun as ([[raw g] t] & h3 & Hout & Hrun).
  apply lift_Ok in Hout as (-> & Hout).
  unfold Obj.alloc, mbind, prog_bind, mret, prog_ret in Hrun.
  injection Hrun as <- <-.
  exists ps, ss, raw, g, t. repeat split; try done.
  - by rewrite !length_app, !Nat.add_1_r.
  - by rewrite <- !app_assoc.
Qed.

Lemma get_ltv_run profiles purchases obs hz dims ign h refs h' :
  Obj.get_ltv profiles purchases obs hz dims ign h = Ok (refs, h') →
  ∃ ps es raw grouped in_time roi_grouped roi_in_time,
    h !! profiles = Some (TProfiles ps) ∧
    h !! purchases = Some (TPurchases es) ∧
    get_ltv obs hz ign ps es dims
      = Ok (raw, grouped, in_time, roi_grouped, roi_in_time) ∧
    refs = (length h, S (length h), S (S (length h)),
            S (S (S (length h))), S (S (S (S (length h))))) ∧
    h' = h ++ [TRaw raw; TCohort grouped; TCohort in_time;
               TRoi roi_grouped; TRoi roi_in_time].
Proof.
  unfold Obj.get_ltv. intros Hrun.
  apply bind_Ok in Hrun as (ps & h1 & Hps & Hrun).
  apply expect_Ok in Hps as (-> & t1 & Ht1 & ->%as_profiles_Some).
  apply bind_Ok in Hrun as (es & h2 & Hes & Hrun).
  apply expect_Ok in Hes as (-> & t2 & Ht2 & ->%as_purchases_Some).
  apply bind_Ok in Hrun as ([[[[raw g] t] rg] rt] & h3 & Hout & Hrun).
  apply lift_Ok in Hout as (-> & Hout).
  unfold Obj.alloc, mbind, prog_bind, mret, prog_ret in Hrun.
  injection Hrun as <- <-.
  exists ps, es, raw, g, t, rg, rt. repeat split; try done.
  - by rewrite !length_app, !Nat.add_1_r.
  - by rewrite <- !app_assoc.
Qed.

(** The loop of [filter_data] leaves in the object [df] the table the
    variable went through, and touches nothing else. *)
Lemma for_each_smooth df w (l : list string) (t : num_table) (h : heap) :
  h !! df = Some (TNum t) →
  Obj.for_each (Obj.smooth_step df w) l h
  = Ok (tt, <[df := TNum (fold_left (smooth_column w) l t)]> h).
Proof.
  revert t h. induction l as [|i l IH]; intros t h Hdf.
  - simpl. unfold mret, prog_ret. by rewrite list_insert_id.
  - simpl. unfold mbind, prog_bind at 1.
    unfold Obj.smooth_step at 1, Obj.expect, Obj.load, Obj.store, mbind, prog_bind.
    rewrite Hdf. simpl. unfold mret, prog_ret.
    rewrite (IH (smooth_column w t i)).
    + by rewrite list_insert_insert_eq.
    + apply list_lookup_insert_eq. by eapply lookup_lt_Some.
Qed.

Lemma filter_data_run df w h r h' :
  Obj.filter_data df w h = Ok (r, h') →
  r = df ∧ ∃ t, h !! df = Some (TNum t) ∧
                h' = <[df := TNum (filter_data_table t w)]> h.
Proof.
  unfold Obj.filter_data. intros Hrun.
  apply bind_Ok in Hrun as (t & h1 & Ht & Hrun).
  apply expect_Ok in Ht as (-> & t1 & Ht1 & ->%as_num_Some).
  unfold mbind, prog_bind in Hrun.
  rewrite (for_each_smooth df w _ t h Ht1) in Hrun.
  unfold mret, prog_ret in Hrun. injection Hrun as <- <-.
  split; [done|]. exists t. done.
Qed.

Lemma get_profiles_run visits orders ad_costs h r h' :
  Obj.get_profiles visits orders ad_costs h = Ok (r, h') →
  ∃ vs os ac ds,
    h !! visits = Some (TVisits vs) ∧
    h !! orders = Some (TPurchases os) ∧
    h !! ad_costs = Some (TAdCosts ac) ∧
    dt_dates ac = Ok ds ∧
    r = length h ∧
    h' = <[ad_costs := TAdCosts (set_dt ac ds)]> h
         ++ [TProfiles (build_profiles vs os (set_dt ac ds))].
Proof.
  unfold Obj.get_profiles. intros Hrun.
  apply bind_Ok in Hrun as (vs & h1 & Hvs & Hrun).
  apply expect_Ok in Hvs as (-> & t1 & Ht1 & ->%as_visits_Some).
  apply bind_Ok in Hrun as (os & h2 & Hos & Hrun).
  apply expect_Ok in Hos as (-> & t2 & Ht2 & ->%as_purchases_Some).
  apply bind_Ok in Hrun as (ac & h3 & Hac & Hrun).
  apply expect_Ok in Hac as (-> & t3 & Ht3 & ->%as_ad_costs_Some).
  apply bind_Ok in Hrun as (ds & h4 & Hds & Hrun).
  apply lift_Ok in Hds as (-> & Hds).
  apply bind_Ok in Hrun as ([] & h5 & Hst & Hrun).
  unfold Obj.store in Hst. injection Hst as <-.
  apply bind_Ok in Hrun as (ac' & h6 & Hac' & Hrun).
  apply expect_Ok in Hac' as (-> & t4 & Ht4 & Hsel).
  rewrite list_lookup_insert_eq in Ht4 by (by eapply lookup_lt_Some).
  injection Ht4 as <-. simpl in Hsel. injection Hsel as <-.
  unfold Obj.alloc in Hrun. injection Hrun as <- <-.
  exists vs, os, ac, ds. rewrite length_insert. done.
Qed.
End ObjFacts.

(** C4 (as the code has it). [get_conversion], [get_retention] and [get_ltv]
    compute their results from the tables passed in, return them as fresh
    objects and leave every object that existed before the call as it was;
    [get_profiles] returns a fresh table and leaves every object other than
    [ad_costs] as it was; [filter_data] returns the very object it was given,
    now holding the smoothed table, and leaves the other objects as they
    were. *)
Theorem calls_and_caller_tables :
  (∀ profiles purchases obs hz dims ign,
     Obj.leaves_heap_unmodified
       (Obj.get_conversion profiles purchases obs hz dims ign) ∧
     ∀ h r1 r2 r3 h',
       Obj.get_conversion profiles purchases obs hz dims ign h
         = Ok ((r1, r2, r3), h') →
       ∃ ps es raw grouped in_time,
         h !! profiles = Some (TProfiles ps) ∧
         h !! purchases = Some (TPurchases es) ∧
         get_conversion obs hz ign ps es dims = Ok (raw, grouped, in_time) ∧
         fresh_results h h' [r1; r2; r3]
           [TRaw raw; TCohort grouped; TCohort in_time]) ∧
  (∀ profiles sessions obs hz dims ign,
     Obj.leaves_heap_unmodified
       (Obj.get_retention profiles sessions obs hz dims ign) ∧
     ∀ h r1 r2 r3 h',
       Obj.get_retention profiles sessions obs hz dims ign h
         = Ok ((r1, r2, r3), h') →
       ∃ ps ss raw grouped in_time,
         h !! profiles = Some (TProfiles ps) ∧
         h !! sessions = Some (TSessions ss) ∧
         get_retention obs hz ign ps ss dims = Ok (raw, grouped, in_time) ∧
         fresh_results h h' [r1; r2; r3]
           [TRaw raw; TCohort grouped; TCohort in_time]) ∧
  (∀ profiles purchases obs hz dims ign,
     Obj.leaves_heap_unmodified
       (Obj.get_ltv profiles purchases obs hz dims ign) ∧
     ∀ h r1 r2 r3 r4 r5 h',
       Obj.get_ltv profiles purchases obs hz dims ign h
         = Ok ((r1, r2, r3, r4, r5), h') →
       ∃ ps es raw grouped in_time roi_grouped roi_in_time,
         h !! profiles = Some (TProfiles ps) ∧
         h !! purchases = Some (TPurchases es) ∧
         get_ltv obs hz ign ps es dims
           = Ok (raw, grouped, in_time, roi_grouped, roi_in_time) ∧
         fresh_results h h' [r1; r2; r3; r4; r5]
           [TRaw raw; TCohort grouped; TCohort in_time;
            TRoi roi_grouped; TRoi roi_in_time]) ∧
  (∀ visits orders ad_costs h r h',
     Obj.get_profiles visits orders ad_costs h = Ok (r, h') →
     (∃ vs os ac profiles,
        h !! visits = Some (TVisits vs) ∧
        h !! orders = Some (TPurchases os) ∧
        h !! ad_costs = Some (TAdCosts ac) ∧
        get_profiles vs os ac = Ok profiles ∧
        r = length h ∧ h' !! r = Some (TProfiles profiles)) ∧
     ∀ l : ref, (l < length h)%nat → l ≠ ad_costs → h' !! l = h !! l) ∧
  (∀ df window h r h',
     Obj.filter_data df window h = Ok (r, h') →
     r = df ∧
     (∃ t, h !! df = Some (TNum t) ∧
           h' !! df = Some (TNum (filter_data_table t window))) ∧
     length h' = length h ∧
     ∀ l : ref, l ≠ df → h' !! l = h !! l).
Proof.
  split; [|split; [|split; [|split]]].
  - intros profiles purchases obs hz dims ign. split.
    + intros h refs h' Hrun r Hr.
      apply ObjFacts.get_conversion_run in Hrun
        as (ps & es & raw & g & t & _ & _ & _ & _ & ->).
      by apply ObjFacts.append_leaves_old.
    + intros h r1 r2 r3 h' Hrun.
      apply ObjFacts.get_conversion_run in Hrun
        as (ps & es & raw & g & t & Hp & He & Hget & [= -> -> ->] & ->).
      exists ps, es, raw, g, t. done.
  - intros profiles sessions obs hz dims ign. split.
    + intros h refs h' Hrun r Hr.
      apply ObjFacts.get_retention_run in Hrun
        as (ps & ss & raw & g & t & _ & _ & _ & _ & ->).
      by apply ObjFacts.append_leaves_old.
    + intros h r1 r2 r3 h' Hrun.
      apply ObjFacts.get_retention_run in Hrun
        as (ps & ss & raw & g & t & Hp & He & Hget & [= -> -> ->] & ->).
      exists ps, ss, raw, g, t. done.
  - intros profiles purchases obs hz dims ign. split.
    + intros h refs h' Hrun r Hr.
      apply ObjFacts.get_ltv_run in Hrun
        as (ps & es & raw & g & t & rg & rt & _ & _ & _ & _ & ->).
      by apply ObjFacts.append_leaves_old.
    + intros h r1 r2 r3 r4 r5 h' Hrun.
      apply ObjFacts.get_ltv_run in Hrun
        as (ps & es & raw & g & t & rg & rt & Hp & He & Hget
            & [= -> -> -> -> ->] & ->).
      exists ps, es, raw, g, t, rg, rt. done.
  - intros visits orders ad_costs h r h' Hrun.
    apply ObjFacts.get_profiles_run in Hrun
      as (vs & os & ac & ds & Hv & Ho & Ha & Hds & -> & ->).
    split.
    + exists vs, os, ac, (build_profiles vs os (set_dt ac ds)).
      repeat split; try done.
      * unfold get_profiles. by rewrite Hds.
      * rewrite lookup_app_r by (rewrite length_insert; lia).
        by rewrite length_insert, Nat.sub_diag.
    + intros l Hl Hne.
      rewrite lookup_app_l by (rewrite length_insert; lia).
      by apply list_lookup_insert_ne.
  - intros df window h r h' Hrun.
    apply ObjFacts.filter_data_run in Hrun as (-> & t & Ht & ->).
    split; [done|]. split; [|split].
    + exists t. split; [done|].
      apply list_lookup_insert_eq. by eapply lookup_lt_Some.
    + apply length_insert.
    + intros l Hne. by apply list_lookup_insert_ne.
Qed.

Lemma calls_and_caller_tables_example :
  ∃ r1 r2 r3 h',
    Obj.get_conversion 0%nat 1%nat 1 2 ["channel"] false
      Example.heap_with_profiles
      = Ok ((r1, r2, r3), h') ∧
    (∀ r : ref, (r < 2)%nat → h' !! r = Example.heap_with_profiles !! r) ∧
    (r1, r2, r3) = (2%nat, 3%nat, 4%nat).
Proof.
  destruct calls_and_caller_tables as (Hc & _).
  destruct (Hc 0%nat 1%nat 1 2 ["channel"] false) as [Hframe Hfresh].
  eexists _, _, _, _. split; [vm_compute; reflexivity|]. split.
  - eapply (Hframe Example.heap_with_profiles). vm_compute; reflexivity.
  - reflexivity.
Defined.

(** C4 (as stated). [filter_data] writes the smoothed columns into the
    table object it was given. *)
Lemma filter_data_overwrites_its_input :
  ¬ Obj.leaves_heap_unmodified (Obj.filter_data 0%nat 2%nat).
Proof.
  intros Hpure.
  specialize (Hpure Example.heap_with_dynamics 0%nat
                [TNum [("conversion", [None; Some (4 # 2)%Q; Some (8 # 2)%Q])]]
                eq_refl 0%nat).
  simpl in Hpure. specialize (Hpure (le_n 1)). discriminate Hpure.
Qed.

(** [get_profiles] stores dates in the [dt] column of the caller's ad-cost
    table; a second call on the same objects then fails. *)
Lemma get_profiles_overwrites_ad_costs :
  ¬ Obj.leaves_heap_unmodified (Obj.get_profiles 0%nat 1%nat 2%nat) ∧
  ∃ r h', Obj.get_profiles 0%nat 1%nat 2%nat Example.heap_with_inputs = Ok (r, h') ∧
          h' !! 2%nat = Some (TAdCosts
                           [ {| ac_dt := Day 0; ac_channel := "ads";
                                ac_costs := 10%Q |} ]) ∧
          ∃ what, Obj.get_profiles 0%nat 1%nat 2%nat h' = Err (AttributeError what).
Proof.
  split.
  - intros Hpure.
    destruct (Obj.get_profiles 0%nat 1%nat 2%nat Example.heap_with_inputs)
      as [[r h']|e] eqn:Hrun; [|by vm_compute in Hrun].
    specialize (Hpure _ _ _ Hrun 2%nat). vm_compute in Hrun.
    injection Hrun as <- <-. simpl in Hpure.
    specialize (Hpure (le_n 3)). discriminate Hpure.
  - eexists _, _. split; [vm_compute; reflexivity|].
    split; [reflexivity|]. eexists. vm_compute. reflexivity.
Qed.

(** * Further properties of the engines *)

(** ** When an engine returns *)

Lemma missing_days_nil cols h :
  missing_days cols h = [] ↔ ∀ d, 0 <= d < h → d ∈ cols.
Proof.
  split.
  - intros Hm d Hd. by eapply no_missing_days.
  - intros Hall. unfold missing_days.
    destruct (filter (fun d => d ∉ cols) (day_range h)) as [|d l] eqn:Hf;
      [done|].
    assert (d ∈ filter (fun d => d ∉ cols) (day_range h)) as Hin
      by (rewrite Hf; left).
    apply list_elem_of_filter in Hin as [Hn Hd].
    apply elem_of_day_range in Hd. by apply Hall in Hd.
Qed.

Lemma days_covered_columns df h :
  days_covered df h ↔ missing_days (pivot_columns df) h = [].
Proof.
  rewrite missing_days_nil. unfold days_covered.
  by setoid_rewrite elem_of_pivot_columns.
Qed.

Lemma finish_table_is_Ok h sizes w :
  is_Ok (finish_table h sizes w) ↔ missing_days (w_columns w) h = [].
Proof.
  unfold is_Ok, finish_table.
  destruct (missing_days (w_columns w) h) as [|m ms].
  - split; [done|]. intros _. by eexists.
  - split; [by intros [? ?]|done].
Qed.

Section GroupSuccess.
Context (cohort : option string) (dims : list string)
        (df : list jrow) (h : Z).

Lemma conversion_group_is_Ok :
  is_Ok (conversion_group_by_dimensions cohort dims df h) ↔
  check_dims cohort dims "user_id" = Ok tt ∧ days_covered df h.
Proof.
  unfold conversion_group_by_dimensions. rewrite days_covered_columns.
  destruct (check_dims cohort dims "user_id") as [[]|e].
  - cbn [mbind result_bind]. rewrite finish_table_is_Ok.
    cbn [w_columns fillna_cumsum pivot_table]. split; [done|by intros [_ ?]].
  - cbn [mbind result_bind]. split; [by intros [? ?]|]. by intros [? _].
Qed.

Lemma retention_group_is_Ok :
  is_Ok (retention_group_by_dimensions cohort dims df h) ↔
  check_dims cohort dims "user_id" = Ok tt ∧ days_covered df h.
Proof.
  unfold retention_group_by_dimensions. rewrite days_covered_columns.
  destruct (check_dims cohort dims "user_id") as [[]|e].
  - cbn [mbind result_bind]. rewrite finish_table_is_Ok.
    cbn [w_columns fillna_cumsum pivot_table]. split; [done|by intros [_ ?]].
  - cbn [mbind result_bind]. split; [by intros [? ?]|]. by intros [? _].
Qed.

Lemma ltv_group_is_Ok :
  is_Ok (ltv_group_by_dimensions cohort dims df h) ↔
  check_dims cohort dims "revenue" = Ok tt ∧ days_covered df h.
Proof.
  unfold ltv_group_by_dimensions. rewrite days_covered_columns.
  destruct (check_dims cohort dims "revenue") as [[]|e].
  - cbn [mbind result_bind].
    rewrite <- (finish_table_is_Ok h (cohort_sizes cohort dims df)
                  (fillna_cumsum (pivot_table cohort dims agg_revenue df))).
    unfold is_Ok.
    destruct (finish_table h _ _) as [t|e]; cbn [mbind result_bind].
    + split; intros _; [split; [done|]|]; by eexists.
    + split; [by intros [? ?]|]. by intros [_ [? ?]].
  - cbn [mbind result_bind]. split; [by intros [? ?]|]. by intros [? _].
Qed.
End GroupSuccess.

(** An engine returns when both of its tables can be built. *)
Lemma get_conversion_is_Ok obs h ign profiles purchases dims :
  is_Ok (get_conversion obs h ign profiles purchases dims) ↔
  is_Ok (conversion_group_by_dimensions (cohort_column dims)
           (static_dimensions dims)
           (conversion_rows obs h ign profiles purchases) h) ∧
  is_Ok (conversion_group_by_dimensions (cohort_column dims)
           (dynamic_dimensions (static_dimensions dims))
           (conversion_rows obs h ign profiles purchases) h).
Proof.
  unfold get_conversion, is_Ok.
  destruct (conversion_group_by_dimensions (cohort_column dims)
              (static_dimensions dims) _ h) as [g|e]; cbn [mbind result_bind].
  - destruct (conversion_group_by_dimensions (cohort_column dims)
                (dynamic_dimensions (static_dimensions dims)) _ h) as [t|e];
      cbn [mbind result_bind].
    + split; intros _; [split|]; by eexists.
    + split; [by intros [? ?]|]. by intros [_ [? ?]].
  - split; [by intros [? ?]|]. by intros [[? ?] _].
Qed.

Lemma get_retention_is_Ok obs h ign profiles sessions dims :
  is_Ok (get_retention obs h ign profiles sessions dims) ↔
  is_Ok (retention_group_by_dimensions None ("payer" :: dims)
           (retention_rows obs h ign profiles sessions) h) ∧
  is_Ok (retention_group_by_dimensions None (("payer" :: dims) ++ ["dt"])
           (retention_rows obs h ign profiles sessions) h).
Proof.
  unfold get_retention, is_Ok.
  destruct (retention_group_by_dimensions None ("payer" :: dims) _ h)
    as [g|e]; cbn [mbind result_bind].
  - destruct (retention_group_by_dimensions None (("payer" :: dims) ++ ["dt"])
                _ h) as [t|e]; cbn [mbind result_bind].
    + split; intros _; [split|]; by eexists.
    + split; [by intros [? ?]|]. by intros [_ [? ?]].
  - split; [by intros [? ?]|]. by intros [[? ?] _].
Qed.

Lemma get_ltv_is_Ok obs h ign profiles purchases dims :
  is_Ok (get_ltv obs h ign profiles purchases dims) ↔
  is_Ok (ltv_group_by_dimensions (cohort_column dims)
           (static_dimensions dims)
           (ltv_rows obs h ign profiles purchases) h) ∧
  is_Ok (ltv_group_by_dimensions (cohort_column dims)
           (dynamic_dimensions (static_dimensions dims))
           (ltv_rows obs h ign profiles purchases) h).
Proof.
  unfold get_ltv, is_Ok.
  destruct (ltv_group_by_dimensions (cohort_column dims)
              (static_dimensions dims) _ h) as [g|e]; cbn [mbind result_bind].
  - destruct (ltv_group_by_dimensions (cohort_column dims)
                (dynamic_dimensions (static_dimensions dims)) _ h) as [t|e];
      cbn [mbind result_bind].
    + split; intros _; [split|]; by eexists.
    + split; [by intros [? ?]|]. by intros [_ [? ?]].
  - split; [by intros [? ?]|]. by intros [[? ?] _].
Qed.

Lemma dynamic_of_static dims :
  "cohort" ∉ dims →
  dynamic_dimensions (static_dimensions dims) = dims ++ ["dt"].
Proof.
  intros Hc. unfold dynamic_dimensions. destruct dims as [|n l]; [done|].
  cbn [static_dimensions]. by rewrite decide_False.
Qed.

(** Which lists of profile attributes pass the two pivots of an engine. *)
Section DimensionChecks.
Context (dims : list string) (v : string).
Hypothesis Hcols :
  Forall (fun n => n ∈ profile_columns ∧ n ≠ "user_id") dims.
Hypothesis Hv : v = "user_id" ∨ v = "revenue".

Lemma value_column_not_dimension : v ∉ dims.
Proof.
  intros Hin. rewrite Forall_forall in Hcols.
  destruct (Hcols v Hin) as [Hc Hu].
  destruct Hv as [->| ->]; [done|]. by apply revenue_not_profile_column.
Qed.

Lemma cohort_not_dimension : "cohort" ∉ dims.
Proof.
  intros Hin. rewrite Forall_forall in Hcols.
  destruct (Hcols _ Hin) as [Hc _]. by apply cohort_not_profile_column.
Qed.

Lemma dims_are_columns : Forall (fun n => n ∈ profile_columns) dims.
Proof. eapply Forall_impl; [exact Hcols|]. by intros n [? _]. Qed.

Lemma static_check_iff :
  check_dims (cohort_column dims) (static_dimensions dims) v = Ok tt ↔
  NoDup dims.
Proof.
  split.
  - intros (_ & Hnd & _)%check_dims_Ok. revert Hnd. clear.
    destruct dims; [constructor|done].
  - intros Hnd. apply static_check_Ok; [|done]. by split.
Qed.

Lemma dynamic_check_iff :
  check_dims (cohort_column dims)
    (dynamic_dimensions (static_dimensions dims)) v = Ok tt ↔
  NoDup dims ∧ "dt" ∉ dims.
Proof.
  rewrite check_dims_Ok.
  pose proof (dynamic_dimensions_known (cohort_column dims)
                (static_dimensions dims)
                (proj2 (static_dimensions_known dims) dims_are_columns))
    as Hknown.
  rewrite (dynamic_of_static dims cohort_not_dimension) in *.
  rewrite NoDup_app. split.
  - intros (_ & (Hnd & Hdis & _) & _). split; [done|].
    intros Hin. apply (Hdis _ Hin). left.
  - intros [Hnd Hdt]. split; [|split].
    + exact Hknown.
    + split; [done|]. split; [|apply NoDup_singleton].
      intros x Hx Hx'%list_elem_of_singleton. by subst x.
    + rewrite elem_of_app. intros [Hin|Hin%list_elem_of_singleton].
      * by apply value_column_not_dimension.
      * destruct Hv; subst; discriminate.
Qed.

Lemma retention_static_check_iff :
  check_dims None ("payer" :: dims) "user_id" = Ok tt ↔
  NoDup dims ∧ "payer" ∉ dims.
Proof.
  rewrite check_dims_Ok, NoDup_cons. split.
  - intros (_ & [Hp Hnd] & _). done.
  - intros [Hnd Hp]. split; [|split; [done|]].
    + apply retention_dimensions_known, dims_are_columns.
    + intros [Heq|Hin]%elem_of_cons; [discriminate|].
      rewrite Forall_forall in Hcols. by destruct (Hcols _ Hin).
Qed.

Lemma retention_dynamic_check_iff :
  check_dims None (("payer" :: dims) ++ ["dt"]) "user_id" = Ok tt ↔
  NoDup dims ∧ ("payer" ∉ dims) ∧ ("dt" ∉ dims).
Proof.
  rewrite check_dims_Ok. cbn [app]. rewrite NoDup_cons, NoDup_app. split.
  - intros (_ & [Hp (Hnd & Hdis & _)] & _). split; [done|]. split.
    + intros Hin. apply Hp, elem_of_app. by left.
    + intros Hin. apply (Hdis _ Hin). left.
  - intros (Hnd & Hp & Hdt). split; [|split].
    + apply (retention_dynamic_known dims), retention_dimensions_known,
        dims_are_columns.
    + split.
      * rewrite elem_of_app. intros [?|Hin%list_elem_of_singleton]; [done|].
        discriminate.
      * split; [done|]. split; [|apply NoDup_singleton].
        intros x Hx Hx'%list_elem_of_singleton. by subst x.
    + intros [Heq|Hin]%elem_of_cons; [discriminate|].
      apply elem_of_app in Hin as [Hin|Hin%list_elem_of_singleton];
        [|discriminate].
      rewrite Forall_forall in Hcols. by destruct (Hcols _ Hin).
Qed.
End DimensionChecks.

(** X1. For dimensions that are profile attributes ([user_id] apart) and a
    horizon of at least one day, each engine returns its tables exactly when
    no dimension is named twice, [dt] is not among them (the dynamics table
    adds it), for [get_retention] neither is [payer] (which it adds itself),
    and every lifetime day below the horizon is the lifetime of some joined
    row; otherwise it raises. *)
Theorem engines_return_exactly_when
    (observation_date horizon_days : Z) (ignore_horizon : bool)
    (profiles : list profile) (purchases : list purchase)
    (sessions : list session) (dimensions : list string) :
  1 <= horizon_days →
  Forall (fun n => n ∈ profile_columns ∧ n ≠ "user_id") dimensions →
  (is_Ok (get_conversion observation_date horizon_days ignore_horizon
            profiles purchases dimensions) ↔
   NoDup dimensions ∧ ("dt" ∉ dimensions) ∧
   days_covered (conversion_rows observation_date horizon_days
                   ignore_horizon profiles purchases) horizon_days) ∧
  (is_Ok (get_retention observation_date horizon_days ignore_horizon
            profiles sessions dimensions) ↔
   NoDup dimensions ∧ ("dt" ∉ dimensions) ∧ ("payer" ∉ dimensions) ∧
   days_covered (retention_rows observation_date horizon_days
                   ignore_horizon profiles sessions) horizon_days) ∧
  ("acquisition_cost" ∉ dimensions →
   (is_Ok (get_ltv observation_date horizon_days ignore_horizon
             profiles purchases dimensions) ↔
    NoDup dimensions ∧ ("dt" ∉ dimensions) ∧
    days_covered (ltv_rows observation_date horizon_days
                    ignore_horizon profiles purchases) horizon_days)).
Proof.
  intros _ Hcols. split; [|split].
  - rewrite get_conversion_is_Ok, !conversion_group_is_Ok.
    rewrite (static_check_iff dimensions "user_id" Hcols) by by left.
    rewrite (dynamic_check_iff dimensions "user_id" Hcols) by by left.
    split; [intros [[? ?] [[? ?] ?]]|intros (? & ? & ?)]; done.
  - rewrite get_retention_is_Ok, !retention_group_is_Ok.
    rewrite (retention_static_check_iff dimensions Hcols).
    rewrite (retention_dynamic_check_iff dimensions Hcols).
    split; [intros [[[? ?] ?] [(? & ? & ?) ?]]|intros (? & ? & ? & ?)]; done.
  - intros _. rewrite get_ltv_is_Ok, !ltv_group_is_Ok.
    rewrite (static_check_iff dimensions "revenue" Hcols) by by right.
    rewrite (dynamic_check_iff dimensions "revenue" Hcols) by by right.
    split; [intros [[? ?] [[? ?] ?]]|intros (? & ? & ?)]; done.
Qed.

Lemma engines_return_exactly_when_example :
  is_Ok (get_conversion 1 2 false Example.profiles_three
           Example.purchases_full ["channel"]) ∧
  ¬ is_Ok (get_conversion 1 2 false Example.profiles_three
             Example.purchases_full ["channel"; "channel"]) ∧
  ¬ is_Ok (get_retention 1 2 false Example.profiles_three
             Example.sessions_full ["payer"]).
Proof.
  assert (Hchannel : "channel" ∈ profile_columns ∧ "channel" ≠ "user_id").
  { split; [|discriminate]. unfold profile_columns. do 2 right. left. }
  assert (Hpayer : "payer" ∈ profile_columns ∧ "payer" ≠ "user_id").
  { split; [|discriminate]. unfold profile_columns. do 7 right. left. }
  split; [|split].
  - apply (engines_return_exactly_when 1 2 false Example.profiles_three
             Example.purchases_full Example.sessions_full ["channel"]);
      [lia|by repeat constructor|].
    split; [apply NoDup_singleton|]. split.
    + intros Hin%list_elem_of_singleton. discriminate.
    + intros d Hd. assert (d = 0 ∨ d = 1) as [-> | ->] by lia.
      * eexists. split; [vm_compute; left|]. reflexivity.
      * eexists. split; [vm_compute; right; left|]. reflexivity.
  - intros Hok.
    apply (engines_return_exactly_when 1 2 false Example.profiles_three
             Example.purchases_full Example.sessions_full
             ["channel"; "channel"]) in Hok as [Hnd _];
      [|lia|by repeat constructor].
    apply NoDup_cons in Hnd as [Hin _]. apply Hin. left.
  - intros Hok.
    apply (engines_return_exactly_when 1 2 false Example.profiles_three
             Example.purchases_full Example.sessions_full ["payer"])
      in Hok as (_ & _ & Hp & _); [|lia|by repeat constructor].
    apply Hp. left.
Defined.

(** ** Shape of the returned tables *)

Lemma finish_table_row h sizes w tbl row :
  finish_table h sizes w = Ok tbl → row ∈ ct_rows tbl →
  missing_days (w_columns w) h = [] ∧
  (cr_key row, cr_cohort_size row) ∈ sizes ∧
  ∃ cells,
    cr_cells row = select_days (w_columns w) h
                     (div_by_size (cr_cohort_size row) cells) ∧
    ((∃ cs, (cr_key row, cs) ∈ w_rows w ∧ cells = map fillna0 cs) ∨
     ((∀ kr, kr ∈ w_rows w → fst kr ≠ cr_key row) ∧
      cells = map fillna0 (map (fun _ => None) (w_columns w)))).
Proof.
  intros Hok Hrow. apply finish_table_Ok in Hok as (Hm & _ & Hrows).
  split; [done|]. rewrite Hrows in Hrow.
  change (map ?f ?x) with (f <$> x) in Hrow.
  apply list_elem_of_fmap in Hrow as ([[k n] cells] & -> & Hin). simpl.
  apply elem_of_merge_sizes in Hin as [Hs Hcells]. split; [done|].
  exists cells. done.
Qed.

Lemma pivot_table_aligned cohort dims agg df :
  aligned (pivot_table cohort dims agg df).
Proof.
  intros kr Hkr. simpl in Hkr. change (map ?f ?x) with (f <$> x) in Hkr.
  apply list_elem_of_fmap in Hkr as (k & -> & _). simpl.
  by rewrite length_map.
Qed.

Lemma fillna_cumsum_aligned w : aligned w → aligned (fillna_cumsum w).
Proof.
  intros Hal kr Hkr. simpl in Hkr. change (map ?f ?x) with (f <$> x) in Hkr.
  apply list_elem_of_fmap in Hkr as (kr0 & -> & Hin). simpl.
  unfold cumsum. rewrite length_map, length_cumsum_from, length_map.
  by apply Hal.
Qed.

Lemma finish_table_shape h sizes w tbl :
  aligned w → finish_table h sizes w = Ok tbl →
  ct_days tbl = day_range h ∧
  ∀ row, row ∈ ct_rows tbl → length (cr_cells row) = Z.to_nat h.
Proof.
  intros Hal Hok. split; [by apply finish_table_Ok in Hok as (_ & ? & _)|].
  intros row Hrow.
  destruct (finish_table_row _ _ _ _ _ Hok Hrow)
    as (Hm & _ & cells & -> & Hcells).
  apply length_select_days; [done|]. unfold div_by_size. rewrite length_map.
  destruct Hcells as [(cs & Hcs & ->)|[_ ->]].
  - rewrite length_map. symmetry. by apply (Hal _ Hcs).
  - by rewrite !length_map.
Qed.

Section GroupShape.
Context (cohort : option string) (dims : list string)
        (df : list jrow) (h : Z).

Lemma conversion_group_shape tbl :
  conversion_group_by_dimensions cohort dims df h = Ok tbl →
  table_shape h tbl.
Proof.
  unfold conversion_group_by_dimensions.
  destruct (check_dims cohort dims _) as [[]|e]; [|done].
  cbn [mbind result_bind].
  apply finish_table_shape, fillna_cumsum_aligned, pivot_table_aligned.
Qed.

Lemma retention_group_shape tbl :
  retention_group_by_dimensions cohort dims df h = Ok tbl →
  table_shape h tbl.
Proof.
  unfold retention_group_by_dimensions.
  destruct (check_dims cohort dims _) as [[]|e]; [|done].
  cbn [mbind result_bind].
  apply finish_table_shape, pivot_table_aligned.
Qed.

Lemma ltv_group_shape tbl roi :
  ltv_group_by_dimensions cohort dims df h = Ok (tbl, roi) →
  table_shape h tbl ∧ roi_shape h roi.
Proof.
  unfold ltv_group_by_dimensions.
  destruct (check_dims cohort dims _) as [[]|e]; [|done].
  cbn [mbind result_bind].
  destruct (finish_table h _ _) as [t|e] eqn:Hf; [|done].
  cbn [mbind result_bind]. intros [= <- <-].
  apply finish_table_shape in Hf as [Hd Hlen];
    [|apply fillna_cumsum_aligned, pivot_table_aligned].
  split; [done|]. split; [done|].
  intros rr Hrr.
  apply elem_of_roi_rows in Hrr as [(r & Hr & _ & ->)|(_ & s & _ & ->)].
  - simpl. rewrite length_map. by apply Hlen.
  - simpl. rewrite length_map, Hd. unfold day_range.
    by rewrite length_map, length_seq.
Qed.
End GroupShape.

(** X2. Every table an engine returns has exactly the lifetime columns
    0 .. horizon_days - 1, and every row one cell per column. *)
Theorem tables_truncated_to_horizon
    (observation_date horizon_days : Z) (ignore_horizon : bool)
    (profiles : list profile) (purchases : list purchase)
    (sessions : list session) (dimensions : list string) :
  (∀ raw grouped in_time,
     get_conversion observation_date horizon_days ignore_horizon
       profiles purchases dimensions = Ok (raw, grouped, in_time) →
     table_shape horizon_days grouped ∧ table_shape horizon_days in_time) ∧
  (∀ raw grouped in_time,
     get_retention observation_date horizon_days ignore_horizon
       profiles sessions dimensions = Ok (raw, grouped, in_time) →
     table_shape horizon_days grouped ∧ table_shape horizon_days in_time) ∧
  (∀ raw grouped in_time roi_grouped roi_in_time,
     get_ltv observation_date horizon_days ignore_horizon
       profiles purchases dimensions
       = Ok (raw, grouped, in_time, roi_grouped, roi_in_time) →
     table_shape horizon_days grouped ∧ table_shape horizon_days in_time ∧
     roi_shape horizon_days roi_grouped ∧ roi_shape horizon_days roi_in_time).
Proof.
  split; [|split].
  - intros raw g t Hok. apply get_conversion_Ok in Hok as [Hg Ht].
    split; by eapply conversion_group_shape.
  - intros raw g t Hok. apply get_retention_Ok in Hok as [Hg Ht].
    split; by eapply retention_group_shape.
  - intros raw g t rg rt Hok. apply get_ltv_Ok in Hok as [Hg Ht].
    apply ltv_group_shape in Hg as [? ?]. apply ltv_group_shape in Ht as [? ?].
    done.
Qed.

Lemma tables_truncated_to_horizon_example :
  ∃ raw grouped in_time roi_grouped roi_in_time,
    get_ltv 1 2 false Example.profiles_three Example.purchases_full
      ["channel"] = Ok (raw, grouped, in_time, roi_grouped, roi_in_time) ∧
    ct_days grouped = [0; 1] ∧
    table_shape 2 grouped ∧ roi_shape 2 roi_grouped.
Proof.
  destruct (tables_truncated_to_horizon 1 2 false Example.profiles_three
              Example.purchases_full Example.sessions_full ["channel"])
    as (_ & _ & Hl).
  eexists _, _, _, _, _. split; [vm_compute; reflexivity|].
  split; [reflexivity|].
  edestruct Hl as (Hg & _ & Hrg & _); [vm_compute; reflexivity|].
  done.
Defined.

(** ** One row per cohort *)

Lemma filter_same_key_at_most_one {A B} (a : dimkey * A)
    (l : list (dimkey * B)) :
  NoDup (map fst l) → (length (filter (same_key a) l) ≤ 1)%nat.
Proof.
  induction l as [|b l IH]; intros Hnd; [simpl; lia|].
  simpl in Hnd. apply NoDup_cons in Hnd as [Hb Hnd].
  rewrite filter_cons. destruct (decide (same_key a b)) as [Heq|Hne];
    [|by apply IH].
  simpl. assert (filter (same_key a) l = []) as ->; [|simpl; lia].
  destruct (filter (same_key a) l) as [|b' l'] eqn:Hf; [done|].
  assert (b' ∈ filter (same_key a) l) as Hin by (rewrite Hf; left).
  apply list_elem_of_filter in Hin as [Heq' Hin]. exfalso. apply Hb.
  unfold same_key in *. rewrite <- Heq, Heq'.
  change (map ?g ?x) with (g <$> x). by apply list_elem_of_fmap_2.
Qed.

Lemma pivot_table_keys cohort dims agg df :
  map fst (w_rows (pivot_table cohort dims agg df)) = pivot_index cohort dims df.
Proof. simpl. rewrite map_map. simpl. apply map_id. Qed.

Lemma fillna_cumsum_keys w :
  map fst (w_rows (fillna_cumsum w)) = map fst (w_rows w).
Proof. simpl. by rewrite map_map. Qed.

Lemma merge_sizes_keys sizes w :
  NoDup (map fst (w_rows w)) → map fst (merge_sizes sizes w) = sizes.
Proof.
  intros Hnd. unfold merge_sizes. apply merge_left_one_to_one.
  - intros a. by apply filter_same_key_at_most_one.
  - by intros [k n] o.
Qed.

Lemma finish_table_sizes_eq h sizes w tbl :
  NoDup (map fst (w_rows w)) → finish_table h sizes w = Ok tbl →
  table_sizes tbl = sizes.
Proof.
  intros Hnd Hok. apply finish_table_Ok in Hok as (_ & _ & Hrows).
  unfold table_sizes. rewrite Hrows, map_map. simpl.
  rewrite <- (merge_sizes_keys sizes w Hnd) at 2.
  apply map_ext. by intros [[k n] cells].
Qed.

Lemma cohort_sizes_keys cohort dims df :
  map fst (cohort_sizes cohort dims df)
  = group_keys key_leb (key_of cohort dims) df.
Proof.
  unfold cohort_sizes, groupby. rewrite !map_map. simpl. apply map_id.
Qed.

Lemma table_keys_of_sizes tbl :
  map cr_key (ct_rows tbl) = map fst (table_sizes tbl).
Proof. unfold table_sizes. by rewrite map_map. Qed.

Lemma NoDup_pivot_index cohort dims df : NoDup (pivot_index cohort dims df).
Proof. apply NoDup_group_keys. Qed.

Section GroupKeys.
Context (cohort : option string) (dims : list string)
        (df : list jrow) (h : Z).

Lemma conversion_group_sizes tbl :
  conversion_group_by_dimensions cohort dims df h = Ok tbl →
  table_sizes tbl = cohort_sizes cohort dims df.
Proof.
  unfold conversion_group_by_dimensions.
  destruct (check_dims cohort dims _) as [[]|e]; [|done].
  cbn [mbind result_bind]. apply finish_table_sizes_eq.
  rewrite fillna_cumsum_keys, pivot_table_keys. apply NoDup_pivot_index.
Qed.

Lemma retention_group_sizes tbl :
  retention_group_by_dimensions cohort dims df h = Ok tbl →
  table_sizes tbl = cohort_sizes cohort dims df.
Proof.
  unfold retention_group_by_dimensions.
  destruct (check_dims cohort dims _) as [[]|e]; [|done].
  cbn [mbind result_bind]. apply finish_table_sizes_eq.
  rewrite pivot_table_keys. apply NoDup_pivot_index.
Qed.

Lemma roi_keys_sublist sizes cac tbl :
  table_sizes tbl = sizes →
  map rr_key (roi_rows (roi_of sizes cac tbl))
    `sublist_of` map cr_key (ct_rows tbl).
Proof.
  intros <-. rewrite roi_of_rows.
  destruct (filter (roi_keeps cac) (ct_rows tbl)) as [|r kept] eqn:Hf.
  - unfold table_sizes. rewrite !map_map. simpl. done.
  - rewrite <- Hf, map_map. simpl. change (map ?f ?x) with (f <$> x).
    apply fmap_sublist, sublist_filter.
Qed.

Lemma ltv_group_sizes tbl roi :
  ltv_group_by_dimensions cohort dims df h = Ok (tbl, roi) →
  table_sizes tbl = cohort_sizes cohort dims df ∧
  map rr_key (roi_rows roi) `sublist_of` map cr_key (ct_rows tbl).
Proof.
  unfold ltv_group_by_dimensions.
  destruct (check_dims cohort dims _) as [[]|e]; [|done].
  cbn [mbind result_bind].
  destruct (finish_table h _ _) as [t|e] eqn:Hf; [|done].
  cbn [mbind result_bind]. intros [= <- <-].
  assert (table_sizes t = cohort_sizes cohort dims df) as Hs.
  { eapply finish_table_sizes_eq; [|exact Hf].
    rewrite fillna_cumsum_keys, pivot_table_keys. apply NoDup_pivot_index. }
  split; [done|]. by apply roi_keys_sublist.
Qed.

Lemma NoDup_keys_of_sizes tbl :
  table_sizes tbl = cohort_sizes cohort dims df →
  NoDup (map cr_key (ct_rows tbl)).
Proof.
  intros Hs. rewrite table_keys_of_sizes, Hs, cohort_sizes_keys.
  apply NoDup_group_keys.
Qed.
End GroupKeys.

(** X3. No table an engine returns has two rows for the same dimension
    tuple; the ROI tables list a part of the tuples of the LTV tables, in
    the same order. *)
Theorem one_row_per_cohort
    (observation_date horizon_days : Z) (ignore_horizon : bool)
    (profiles : list profile) (purchases : list purchase)
    (sessions : list session) (dimensions : list string) :
  (∀ raw grouped in_time,
     get_conversion observation_date horizon_days ignore_horizon
       profiles purchases dimensions = Ok (raw, grouped, in_time) →
     NoDup (map cr_key (ct_rows grouped)) ∧
     NoDup (map cr_key (ct_rows in_time))) ∧
  (∀ raw grouped in_time,
     get_retention observation_date horizon_days ignore_horizon
       profiles sessions dimensions = Ok (raw, grouped, in_time) →
     NoDup (map cr_key (ct_rows grouped)) ∧
     NoDup (map cr_key (ct_rows in_time))) ∧
  (∀ raw grouped in_time roi_grouped roi_in_time,
     get_ltv observation_date horizon_days ignore_horizon
       profiles purchases dimensions
       = Ok (raw, grouped, in_time, roi_grouped, roi_in_time) →
     NoDup (map cr_key (ct_rows grouped)) ∧
     NoDup (map cr_key (ct_rows in_time)) ∧
     map rr_key (roi_rows roi_grouped)
       `sublist_of` map cr_key (ct_rows grouped) ∧
     map rr_key (roi_rows roi_in_time)
       `sublist_of` map cr_key (ct_rows in_time) ∧
     NoDup (map rr_key (roi_rows roi_grouped)) ∧
     NoDup (map rr_key (roi_rows roi_in_time))).
Proof.
  split; [|split].
  - intros raw g t Hok. apply get_conversion_Ok in Hok as [Hg Ht].
    apply conversion_group_sizes in Hg, Ht.
    split; by eapply NoDup_keys_of_sizes.
  - intros raw g t Hok. apply get_retention_Ok in Hok as [Hg Ht].
    apply retention_group_sizes in Hg, Ht.
    split; by eapply NoDup_keys_of_sizes.
  - intros raw g t rg rt Hok. apply get_ltv_Ok in Hok as [Hg Ht].
    apply ltv_group_sizes in Hg as [Hg Hrg].
    apply ltv_group_sizes in Ht as [Ht Hrt].
    apply NoDup_keys_of_sizes in Hg, Ht.
    repeat split; try done.
    + eapply sublist_NoDup; [exact Hg|exact Hrg].
    + eapply sublist_NoDup; [exact Ht|exact Hrt].
Qed.

Lemma one_row_per_cohort_example :
  ∃ raw grouped in_time,
    get_retention 1 2 false Example.profiles_three Example.sessions_full
      ["channel"] = Ok (raw, grouped, in_time) ∧
    map cr_key (ct_rows grouped)
      = [[CBool false; CStr "ads"]; [CBool false; CStr "organic"];
         [CBool true; CStr "ads"]] ∧
    NoDup (map cr_key (ct_rows grouped)) ∧
    NoDup (map cr_key (ct_rows in_time)).
Proof.
  destruct (one_row_per_cohort 1 2 false Example.profiles_three
              Example.purchases_full Example.sessions_full ["channel"])
    as (_ & Hr & _).
  eexists _, _, _. split; [vm_compute; reflexivity|].
  split; [reflexivity|].
  eapply Hr. vm_compute; reflexivity.
Defined.

(** ** What the cells hold *)

Lemma lookup_col_map_cols {A} (g : Z → A) cols d :
  d ∈ cols → lookup_col cols (map g cols) d = Some (g d).
Proof.
  induction cols as [|c cols IH]; intros Hd; [by apply elem_of_nil in Hd|].
  simpl. destruct (decide (c = d)) as [->|Hne]; [done|].
  apply elem_of_cons in Hd as [->|Hd]; [done|]. by apply IH.
Qed.

Lemma lookup_col_fmap {A B} (f : A → B) cols (cells : list A) d :
  lookup_col cols (map f cells) d = f <$> lookup_col cols cells d.
Proof.
  revert cells. induction cols as [|c cols IH]; intros [|x cells]; simpl;
    try done.
  destruct (decide (c = d)); [done|]. apply IH.
Qed.

Lemma select_days_lookup_eq cols h cells i :
  missing_days cols h = [] → length cols = length cells →
  (i < Z.to_nat h)%nat →
  select_days cols h cells !! i = lookup_col cols cells (Z.of_nat i).
Proof.
  intros Hm Hlen Hi. unfold select_days. rewrite omap_lookup_total.
  - by rewrite lookup_day_range.
  - apply Forall_forall. intros d Hd. apply elem_of_day_range in Hd.
    apply lookup_col_is_Some; [|done]. by eapply no_missing_days.
Qed.

Lemma pivot_row_cells cohort dims agg df k cs :
  (k, cs) ∈ w_rows (pivot_table cohort dims agg df) →
  cs = map (pivot_cell cohort dims agg df k) (pivot_columns df).
Proof.
  simpl. change (map ?f ?x) with (f <$> x) at 1.
  intros (k' & [= -> ->] & _)%list_elem_of_fmap. done.
Qed.

Lemma pivot_row_absent cohort dims agg df k :
  (∀ kr, kr ∈ w_rows (pivot_table cohort dims agg df) → fst kr ≠ k) →
  ∀ r, r ∈ df → key_of cohort dims r = k → j_lifetime r = None.
Proof.
  intros Hno r Hr Hk. destruct (j_lifetime r) as [c|] eqn:Hl; [|done].
  exfalso. apply (Hno (k, map (pivot_cell cohort dims agg df k)
                            (pivot_columns df))); [|done].
  simpl. change (map ?f ?x) with (f <$> x). apply list_elem_of_fmap.
  exists k. split; [done|]. apply elem_of_group_keys. exists r.
  split; [|done]. unfold event_rows. apply list_elem_of_filter.
  split; [by rewrite Hl|done].
Qed.

Lemma cell_rows_no_event cohort dims df k c :
  (∀ r, r ∈ df → key_of cohort dims r = k → j_lifetime r = None) →
  cell_rows cohort dims df k c = [].
Proof.
  intros Hno. unfold cell_rows.
  destruct (filter _ df) as [|r l] eqn:Hf; [done|].
  assert (r ∈ filter (fun r => key_of cohort dims r = k
                               ∧ j_lifetime r = Some c) df) as Hin
    by (rewrite Hf; left).
  apply list_elem_of_filter in Hin as [[Hk Hl] Hr].
  rewrite (Hno r Hr Hk) in Hl. done.
Qed.

Section RetentionCells.
Context (cohort : option string) (dims : list string)
        (df : list jrow) (h : Z).

Lemma retention_group_cells tbl :
  retention_group_by_dimensions cohort dims df h = Ok tbl →
  daily_share_cells cohort dims df h tbl.
Proof.
  unfold retention_group_by_dimensions.
  destruct (check_dims cohort dims _) as [[]|e]; [|done].
  cbn [mbind result_bind]. intros Hok row Hrow i Hi.
  change (cr_cells row !! i =
          Some (Qnat (nunique (map j_user_id
                  (cell_rows cohort dims df (cr_key row) (Z.of_nat i))))
                / Qnat (cr_cohort_size row))%Q).
  destruct (finish_table_row _ _ _ _ _ Hok Hrow)
    as (Hm & _ & cells & -> & Hcells).
  cbn [w_columns pivot_table] in *.
  assert (Z.of_nat i ∈ pivot_columns df) as Hcol
    by (eapply no_missing_days; [done|lia]).
  destruct Hcells as [(cs & Hcs & ->)|[Hno ->]].
  - apply pivot_row_cells in Hcs as ->.
    rewrite select_days_lookup_eq; [|done| |done].
    2:{ unfold div_by_size. by rewrite !length_map. }
    unfold div_by_size. rewrite !map_map.
    rewrite lookup_col_map_cols by done.
    by rewrite fillna0_pivot_nunique.
  - rewrite select_days_lookup_eq; [|done| |done].
    2:{ unfold div_by_size. by rewrite !length_map. }
    unfold div_by_size. rewrite !map_map.
    rewrite lookup_col_map_cols by done.
    rewrite (cell_rows_no_event cohort dims df (cr_key row));
      [done|by eapply pivot_row_absent].
Qed.
End RetentionCells.

(** C1. In both tables [get_conversion] returns, every row has one cell per
    lifetime day below the horizon and the cells never decrease as the day
    grows.  The tables of [get_retention] are not accumulated along the
    lifetime axis: cell [i] of a row of either table is the number of
    distinct users of the cohort with a session on lifetime day [i] exactly,
    divided by the cohort size. *)
Theorem conversion_accumulates_retention_does_not
    (observation_date horizon_days : Z) (ignore_horizon : bool)
    (profiles : list profile) (purchases : list purchase)
    (sessions : list session) (dimensions : list string) :
  (∀ raw grouped in_time,
     get_conversion observation_date horizon_days ignore_horizon profiles
       purchases dimensions = Ok (raw, grouped, in_time) →
     ∀ row, row ∈ ct_rows grouped ∨ row ∈ ct_rows in_time →
       length (cr_cells row) = Z.to_nat horizon_days ∧
       nondecreasing (cr_cells row)) ∧
  (∀ raw grouped in_time,
     get_retention observation_date horizon_days ignore_horizon profiles
       sessions dimensions = Ok (raw, grouped, in_time) →
     let rows := retention_rows observation_date horizon_days ignore_horizon
                   profiles sessions in
     daily_share_cells None ("payer" :: dimensions) rows horizon_days
       grouped ∧
     daily_share_cells None (("payer" :: dimensions) ++ ["dt"]) rows
       horizon_days in_time).
Proof.
  split.
  - intros raw grouped in_time. apply get_conversion_nondecreasing.
  - intros raw grouped in_time Hok rows.
    apply get_retention_Ok in Hok as [Hg Ht].
    split; by apply retention_group_cells.
Qed.

Lemma conversion_accumulates_retention_does_not_example :
  (∃ raw grouped in_time,
     get_conversion 1 2 false Example.profiles_three Example.purchases_full
       ["channel"] = Ok (raw, grouped, in_time) ∧
     map cr_cells (ct_rows grouped) = [[(1 # 2)%Q; (2 # 2)%Q]; [1%Q; 1%Q]] ∧
     ∀ row, row ∈ ct_rows grouped ∨ row ∈ ct_rows in_time →
       length (cr_cells row) = Z.to_nat 2 ∧ nondecreasing (cr_cells row)) ∧
  (∃ raw grouped in_time,
     get_retention 1 2 false Example.profiles_three Example.sessions_full []
       = Ok (raw, grouped, in_time) ∧
     map cr_cells (ct_rows grouped) = [[(2 # 2)%Q; (0 # 2)%Q]; [1%Q; 1%Q]] ∧
     daily_share_cells None ["payer"]
       (retention_rows 1 2 false Example.profiles_three Example.sessions_full)
       2 grouped).
Proof.
  split.
  - eexists _, _, _. split; [vm_compute; reflexivity|].
    split; [reflexivity|].
    eapply (conversion_accumulates_retention_does_not 1 2 false
              Example.profiles_three Example.purchases_full
              Example.sessions_full ["channel"]).
    vm_compute; reflexivity.
  - eexists _, _, _. split; [vm_compute; reflexivity|].
    split; [reflexivity|].
    eapply (conversion_accumulates_retention_does_not 1 2 false
              Example.profiles_three Example.purchases_full
              Example.sessions_full []).
    vm_compute; reflexivity.
Defined.

(** ** Running totals along sorted columns *)

Lemma Qsum_map_Qeq {A} (f g : A → Q) (l : list A) :
  (∀ a, a ∈ l → (f a == g a)%Q) → (Qsum (map f l) == Qsum (map g l))%Q.
Proof.
  induction l as [|a l IH]; intros Hfg; simpl; [reflexivity|].
  rewrite (Hfg a) by left. rewrite IH; [reflexivity|].
  intros b Hb. apply Hfg. by right.
Qed.

Lemma Qsum_map_plus {A} (f g : A → Q) (l : list A) :
  (Qsum (map (fun a => f a + g a) l) == Qsum (map f l) + Qsum (map g l))%Q.
Proof.
  induction l as [|a l IH]; simpl; [reflexivity|]. rewrite IH. ring.
Qed.

Lemma Qsum_map_zero {A} (f : A → Q) (l : list A) :
  (∀ a, a ∈ l → (f a == 0)%Q) → (Qsum (map f l) == 0)%Q.
Proof.
  induction l as [|a l IH]; intros Hz; simpl; [reflexivity|].
  rewrite (Hz a) by left. rewrite IH; [ring|].
  intros b Hb. apply Hz. by right.
Qed.

(** A value placed on one column of a list of distinct columns. *)
Lemma Qsum_single_column (cs : list Z) (c0 : Z) (v : Q) :
  NoDup cs → c0 ∈ cs →
  (Qsum (map (fun c => if decide (c = c0) then v else 0) cs) == v)%Q.
Proof.
  intros Hnd. induction Hnd as [|c cs Hc Hnd IH]; intros Hin.
  - by apply elem_of_nil in Hin.
  - simpl. destruct (decide (c = c0)) as [->|Hne].
    + rewrite Qsum_map_zero; [ring|].
      intros c Hc'. destruct (decide (c = c0)) as [->|]; [done|reflexivity].
    + apply elem_of_cons in Hin as [->|Hin]; [done|].
      rewrite IH by done. ring.
Qed.

Lemma cumsum_from_closed (g : Z → Q) cols acc d y :
  StronglySorted Z.le cols → NoDup cols →
  lookup_col cols (cumsum_from acc (map g cols)) d = Some y →
  (y == acc + Qsum (map g (filter (fun c => (c <= d)%Z) cols)))%Q.
Proof.
  intros Hs. revert acc. induction Hs as [|c cols Hs IH Hall];
    intros acc Hnd Hl; [done|].
  apply NoDup_cons in Hnd as [Hc Hnd]. simpl in Hl.
  destruct (decide (c = d)) as [->|Hne].
  - injection Hl as <-. rewrite filter_cons, decide_True by lia. simpl.
    assert (filter (fun c => c <= d) cols = []) as ->; [|simpl; ring].
    destruct (filter (fun c => c <= d) cols) as [|c' l] eqn:Hf; [done|].
    assert (c' ∈ filter (fun c => c <= d) cols) as Hin by (rewrite Hf; left).
    apply list_elem_of_filter in Hin as [Hle Hin].
    eapply Forall_forall in Hall as Hge; [|exact Hin].
    assert (c' = d) as -> by lia. done.
  - apply lookup_col_Some in Hl as Hpos. destruct Hpos as (i & Hi & _).
    apply list_elem_of_lookup_2 in Hi.
    eapply Forall_forall in Hall as Hge; [|exact Hi].
    rewrite filter_cons, decide_True by lia. simpl.
    rewrite (IH _ Hnd Hl). ring.
Qed.

Section Totals.
Context (cohort : option string) (dims : list string) (m : jrow → Q).

(** The cells of the columns up to [d] add up to the rows with an event
    by day [d]. *)
Lemma columns_add_up (df : list jrow) (k : dimkey) (d : Z) (cs : list Z) :
  NoDup cs → (∀ c, c ∈ cs → c <= d) →
  (∀ r c, r ∈ df → j_lifetime r = Some c → c <= d → c ∈ cs) →
  (Qsum (map (fun c => total_of m (cell_rows cohort dims df k c)) cs)
   == total_of m (rows_by_day cohort dims df k d))%Q.
Proof.
  intros Hnd Hle. induction df as [|r df IH]; intros Hin.
  - unfold cell_rows, rows_by_day, total_of. simpl.
    apply Qsum_map_zero. intros; reflexivity.
  - assert (IH' : (Qsum (map (fun c => total_of m (cell_rows cohort dims df k c)) cs)
                   == total_of m (rows_by_day cohort dims df k d))%Q).
    { apply IH. intros r' c Hr'. apply Hin. by right. }
    clear IH.
    rewrite (Qsum_map_Qeq _
      (fun c : Z =>
         ((if decide (c = default (d + 1)%Z (j_lifetime r))
           then (if decide (key_of cohort dims r = k) then m r else 0)
           else 0)
          + total_of m (cell_rows cohort dims df k c))%Q)).
    2:{ intros c Hc. unfold cell_rows, total_of. rewrite filter_cons.
        destruct (decide (key_of cohort dims r = k ∧ j_lifetime r = Some c))
          as [[Hk Hl]|Hno].
        - rewrite Hl. simpl. rewrite !decide_True by done. reflexivity.
        - destruct (decide (c = default (d + 1) (j_lifetime r))) as [Heq|];
            [|ring].
          destruct (decide (key_of cohort dims r = k)) as [Hk|]; [|ring].
          exfalso. destruct (j_lifetime r) as [c0|] eqn:Hl; simpl in Heq.
          + subst c0. by apply Hno.
          + apply Hle in Hc. lia. }
    rewrite Qsum_map_plus, IH'.
    unfold rows_by_day at 2. rewrite filter_cons. fold (rows_by_day cohort dims df k d).
    destruct (decide (key_of cohort dims r = k ∧ lifetime_le d r))
      as [[Hk Hl]|Hno].
    + unfold lifetime_le in Hl. destruct (j_lifetime r) as [c0|] eqn:Hl0; [|done].
      simpl. rewrite Qsum_single_column; [|done|].
      * rewrite decide_True by done. unfold total_of. simpl. reflexivity.
      * eapply Hin; [left|done..].
    + rewrite Qsum_map_zero; [ring|].
      intros c Hc. destruct (decide (c = default (d + 1) (j_lifetime r)))
        as [Heq|]; [|reflexivity].
      destruct (decide (key_of cohort dims r = k)) as [Hk|]; [|reflexivity].
      exfalso. apply Hno. split; [done|]. unfold lifetime_le.
      destruct (j_lifetime r) as [c0|]; simpl in Heq.
      * subst c0. by apply Hle.
      * apply Hle in Hc. lia.
Qed.

Context (agg : list jrow → Q) (df : list jrow) (h : Z).
Hypothesis Hagg :
  ∀ k c, (agg (cell_rows cohort dims df k c)
          == total_of m (cell_rows cohort dims df k c))%Q.

Lemma fillna0_pivot_total k c :
  (fillna0 (pivot_cell cohort dims agg df k c)
   == total_of m (cell_rows cohort dims df k c))%Q.
Proof.
  unfold pivot_cell. pose proof (Hagg k c) as H.
  destruct (cell_rows cohort dims df k c); [reflexivity|exact H].
Qed.

Lemma rows_by_day_no_event k d :
  (∀ r, r ∈ df → key_of cohort dims r = k → j_lifetime r = None) →
  rows_by_day cohort dims df k d = [].
Proof.
  intros Hno. unfold rows_by_day.
  destruct (filter _ df) as [|r l] eqn:Hf; [done|].
  assert (r ∈ filter (fun r => key_of cohort dims r = k ∧ lifetime_le d r) df)
    as Hin by (rewrite Hf; left).
  apply list_elem_of_filter in Hin as [[Hk Hl] Hr].
  unfold lifetime_le in Hl. by rewrite (Hno r Hr Hk) in Hl.
Qed.

(** The cells of a cumulated table. *)
Lemma cumulated_cells sizes tbl :
  finish_table h sizes (fillna_cumsum (pivot_table cohort dims agg df))
    = Ok tbl →
  cumulative_cells (total_of m) cohort dims df h tbl.
Proof.
  intros Hok row Hrow i Hi.
  destruct (finish_table_row _ _ _ _ _ Hok Hrow)
    as (Hm & _ & cells & -> & Hcells).
  cbn [w_columns fillna_cumsum pivot_table] in Hm.
  cbn [w_columns fillna_cumsum pivot_table].
  assert (Z.of_nat i ∈ pivot_columns df) as Hcol
    by (eapply no_missing_days; [done|lia]).
  destruct Hcells as [(cs & Hcs & ->)|[Hno ->]].
  - cbn [w_rows fillna_cumsum] in Hcs.
    change (map ?f ?x) with (f <$> x) in Hcs at 1.
    apply list_elem_of_fmap in Hcs as ([k' pcs] & [= Hk ->] & Hp).
    simpl in Hk. rewrite <- Hk in Hp. apply pivot_row_cells in Hp.
    simpl in Hp. subst pcs. rewrite map_fillna0_Some.
    rewrite select_days_lookup_eq; [|done| |done].
    2:{ unfold div_by_size, cumsum.
        by rewrite length_map, length_cumsum_from, !length_map. }
    unfold div_by_size. rewrite lookup_col_fmap. unfold cumsum.
    rewrite map_map.
    destruct (lookup_col_is_Some (pivot_columns df)
                (cumsum_from 0
                   (map (fun c => fillna0 (pivot_cell cohort dims agg df
                                             (cr_key row) c))
                        (pivot_columns df))) (Z.of_nat i)) as [y Hy];
      [done|by rewrite length_cumsum_from, length_map|].
    rewrite Hy. simpl. eexists. split; [done|].
    apply cumsum_from_closed in Hy;
      [|apply sort_by_Z_sorted|apply NoDup_sort_by, NoDup_remove_dups].
    rewrite Hy, Qplus_0_l.
    rewrite (Qsum_map_Qeq _
               (fun c => total_of m (cell_rows cohort dims df (cr_key row) c)))
      by (intros; apply fillna0_pivot_total).
    rewrite columns_add_up; [reflexivity| | |].
    + apply NoDup_filter, NoDup_sort_by, NoDup_remove_dups.
    + intros c Hc. by apply list_elem_of_filter in Hc as [? _].
    + intros r c Hr Hl Hle. apply list_elem_of_filter. split; [done|].
      apply elem_of_pivot_columns. eauto.
  - rewrite select_days_lookup_eq; [|done| |done].
    2:{ unfold div_by_size. by rewrite !length_map. }
    unfold div_by_size. rewrite !map_map.
    rewrite lookup_col_map_cols by done. simpl.
    eexists. split; [done|].
    rewrite rows_by_day_no_event; [reflexivity|].
    eapply (pivot_row_absent cohort dims agg).
    intros kr Hkr. apply (Hno (fst kr, map Some (cumsum (map fillna0 (snd kr))))).
    cbn [w_rows fillna_cumsum]. change (map ?f ?x) with (f <$> x).
    apply list_elem_of_fmap. by exists kr.
Qed.
End Totals.

Lemma Qsum_ones {A} (l : list A) :
  (Qsum (map (fun _ => 1) l) == Qnat (length l))%Q.
Proof.
  induction l as [|a l IH]; simpl; [reflexivity|].
  rewrite IH. unfold Qnat. rewrite Nat2Z.inj_succ, <- Z.add_1_l, inject_Z_plus.
  reflexivity.
Qed.

Lemma Qsum_omap_revenue (rs : list jrow) :
  (Qsum (omap j_revenue rs)
   == Qsum (map (fun r => default 0 (j_revenue r)) rs))%Q.
Proof.
  induction rs as [|r rs IH]; simpl; [reflexivity|].
  destruct (j_revenue r) as [q|]; simpl; rewrite IH; ring.
Qed.

Lemma cumulative_cells_total (t1 t2 : list jrow → Q) cohort dims rows h tbl :
  (∀ rs, (t1 rs == t2 rs)%Q) →
  cumulative_cells t1 cohort dims rows h tbl →
  cumulative_cells t2 cohort dims rows h tbl.
Proof.
  intros Heq H row Hrow i Hi. destruct (H row Hrow i Hi) as (x & Hx & Hv).
  exists x. split; [done|]. by rewrite <- Heq.
Qed.

Section CumulatedGroups.
Context (cohort : option string) (dims : list string)
        (df : list jrow) (h : Z).

Lemma conversion_group_cumulative tbl :
  NoDup (map j_user_id df) →
  conversion_group_by_dimensions cohort dims df h = Ok tbl →
  cumulative_cells count_rows cohort dims df h tbl.
Proof.
  intros Hnd. unfold conversion_group_by_dimensions.
  destruct (check_dims cohort dims _) as [[]|e]; [|done].
  cbn [mbind result_bind]. intros Hok.
  apply (cumulative_cells_total (total_of (fun _ => 1%Q))).
  - intros rs. unfold total_of, count_rows. apply Qsum_ones.
  - eapply cumulated_cells; [|exact Hok].
    intros k c. unfold agg_nunique, total_of.
    rewrite (cell_count_one_user cohort dims df Hnd). by rewrite Qsum_ones.
Qed.

Lemma ltv_group_cumulative tbl roi :
  ltv_group_by_dimensions cohort dims df h = Ok (tbl, roi) →
  cumulative_cells revenue_of cohort dims df h tbl.
Proof.
  unfold ltv_group_by_dimensions.
  destruct (check_dims cohort dims _) as [[]|e]; [|done].
  cbn [mbind result_bind].
  destruct (finish_table h _ _) as [t|e] eqn:Hf; [|done].
  cbn [mbind result_bind]. intros [= <- <-].
  apply (cumulative_cells_total
           (total_of (fun r => default 0%Q (j_revenue r)))).
  - intros rs. unfold total_of, revenue_of. symmetry. apply Qsum_omap_revenue.
  - eapply cumulated_cells; [|exact Hf].
    intros k c. unfold agg_revenue, total_of. apply Qsum_omap_revenue.
Qed.
End CumulatedGroups.

(** X4. With one profile per user, cell [i] of a row of either conversion
    table is the number of users of the cohort whose first purchase came by
    lifetime day [i] (a purchase made before the first visit counts from day
    0 on), divided by the cohort size. *)
Theorem conversion_cells_are_cumulative_shares
    (observation_date horizon_days : Z) (ignore_horizon : bool)
    (profiles : list profile) (purchases : list purchase)
    (dimensions : list string)
    (raw : raw_table) (grouped in_time : cohort_table) :
  NoDup (map user_id profiles) →
  get_conversion observation_date horizon_days ignore_horizon profiles
    purchases dimensions = Ok (raw, grouped, in_time) →
  let rows := conversion_rows observation_date horizon_days ignore_horizon
                profiles purchases in
  let cohort := cohort_column dimensions in
  let static := static_dimensions dimensions in
  cumulative_cells count_rows cohort static rows horizon_days grouped ∧
  cumulative_cells count_rows cohort (dynamic_dimensions static) rows
    horizon_days in_time.
Proof.
  intros Hnd Hok rows cohort static.
  apply get_conversion_Ok in Hok as [Hg Ht].
  pose proof (conversion_rows_one_per_user observation_date horizon_days
                ignore_horizon profiles purchases Hnd) as Huniq.
  split; by apply conversion_group_cumulative.
Qed.

Lemma conversion_cells_are_cumulative_shares_example :
  ∃ raw grouped in_time,
    get_conversion 1 2 false Example.profiles_three Example.purchases_full
      ["channel"] = Ok (raw, grouped, in_time) ∧
    map cr_cells (ct_rows grouped) = [[(1 # 2)%Q; (2 # 2)%Q]; [1%Q; 1%Q]] ∧
    cumulative_cells count_rows None ["channel"]
      (conversion_rows 1 2 false Example.profiles_three
         Example.purchases_full) 2 grouped.
Proof.
  eexists _, _, _. split; [vm_compute; reflexivity|].
  split; [reflexivity|].
  eapply (conversion_cells_are_cumulative_shares 1 2 false
            Example.profiles_three Example.purchases_full ["channel"]).
  - compute_done.
  - vm_compute; reflexivity.
Defined.

(** X5. Cell [i] of a row of either LTV table is the revenue of the
    cohort's purchases made by lifetime day [i], divided by the cohort
    size. *)
Theorem ltv_cells_are_cumulative_revenue
    (observation_date horizon_days : Z) (ignore_horizon : bool)
    (profiles : list profile) (purchases : list purchase)
    (dimensions : list string)
    (raw : raw_table) (grouped in_time : cohort_table)
    (roi_grouped roi_in_time : roi_table) :
  get_ltv observation_date horizon_days ignore_horizon profiles purchases
    dimensions = Ok (raw, grouped, in_time, roi_grouped, roi_in_time) →
  let rows := ltv_rows observation_date horizon_days ignore_horizon
                profiles purchases in
  let cohort := cohort_column dimensions in
  let static := static_dimensions dimensions in
  cumulative_cells revenue_of cohort static rows horizon_days grouped ∧
  cumulative_cells revenue_of cohort (dynamic_dimensions static) rows
    horizon_days in_time.
Proof.
  intros Hok rows cohort static. apply get_ltv_Ok in Hok as [Hg Ht].
  split; by eapply ltv_group_cumulative.
Qed.

Lemma ltv_cells_are_cumulative_revenue_example :
  ∃ raw grouped in_time roi_grouped roi_in_time,
    get_ltv 1 2 false Example.profiles_three Example.purchases_full
      ["channel"] = Ok (raw, grouped, in_time, roi_grouped, roi_in_time) ∧
    map cr_cells (ct_rows grouped)
      = [[(20 # 2)%Q; (34 # 2)%Q]; [5%Q; 5%Q]] ∧
    cumulative_cells revenue_of None ["channel"]
      (ltv_rows 1 2 false Example.profiles_three Example.purchases_full)
      2 grouped.
Proof.
  eexists _, _, _, _, _. split; [vm_compute; reflexivity|].
  split; [reflexivity|].
  eapply (ltv_cells_are_cumulative_revenue 1 2 false
            Example.profiles_three Example.purchases_full ["channel"]).
  vm_compute; reflexivity.
Defined.

(** ** Lifetime value and return on investment *)

Lemma Qsum_nonneg (l : list Q) :
  Forall (fun v => (0 <= v)%Q) l → (0 <= Qsum l)%Q.
Proof.
  induction 1 as [|v l Hv _ IH]; simpl; [apply Qle_refl|].
  rewrite <- (Qplus_0_r 0). by apply Qplus_le_compat.
Qed.

Lemma cumulated_nondecreasing cohort dims agg df h sizes tbl row :
  (∀ k c, (0 <= fillna0 (pivot_cell cohort dims agg df k c))%Q) →
  finish_table h sizes (fillna_cumsum (pivot_table cohort dims agg df))
    = Ok tbl →
  row ∈ ct_rows tbl → nondecreasing (cr_cells row).
Proof.
  intros Hnn Hok Hrow.
  destruct (finish_table_row _ _ _ _ _ Hok Hrow)
    as (Hm & _ & cells & -> & Hcells).
  cbn [w_columns fillna_cumsum pivot_table] in *.
  assert (length (pivot_columns df) = length cells ∧ nondecreasing cells)
    as [Hlen Hmono].
  { destruct Hcells as [(cs & Hcs & ->)|[_ ->]].
    - cbn [w_rows fillna_cumsum] in Hcs.
      change (map ?f ?x) with (f <$> x) in Hcs at 1.
      apply list_elem_of_fmap in Hcs as ([k' pcs] & [= Hk ->] & Hp).
      simpl in Hk. rewrite <- Hk in Hp. apply pivot_row_cells in Hp.
      simpl in Hp. subst pcs. rewrite map_fillna0_Some. split.
      + unfold cumsum. by rewrite length_cumsum_from, !length_map.
      + apply cumsum_from_nondecreasing. rewrite map_map.
        apply Forall_forall. intros v Hv.
        change (map ?f ?x) with (f <$> x) in Hv.
        apply list_elem_of_fmap in Hv as (c & -> & _). apply Hnn.
    - split; [by rewrite !length_map|apply zeros_nondecreasing]. }
  apply select_days_nondecreasing; [apply sort_by_Z_sorted|done| |].
  - unfold div_by_size. by rewrite length_map.
  - by apply div_by_size_nondecreasing.
Qed.

Lemma ltv_rows_revenue obs h ign profiles purchases r q :
  Forall (fun p => (0 <= p_revenue p)%Q) purchases →
  r ∈ ltv_rows obs h ign profiles purchases →
  j_revenue r = Some q → (0 <= q)%Q.
Proof.
  intros Hall Hr Hq. unfold ltv_rows in Hr.
  apply elem_of_merge_left in Hr
    as (p & _ & [(e & He & _ & ->)|(_ & ->)]); simpl in Hq; [|done].
  injection Hq as <-. by eapply Forall_forall in Hall.
Qed.

Lemma agg_revenue_nonneg cohort dims df k c :
  (∀ r q, r ∈ df → j_revenue r = Some q → (0 <= q)%Q) →
  (0 <= fillna0 (pivot_cell cohort dims agg_revenue df k c))%Q.
Proof.
  intros Hnn. unfold pivot_cell.
  destruct (cell_rows cohort dims df k c) as [|r0 rs] eqn:Hc;
    [apply Qle_refl|].
  simpl. unfold agg_revenue. apply Qsum_nonneg, Forall_forall.
  intros q Hq. apply list_elem_of_omap in Hq as (r & Hr & Hq).
  rewrite <- Hc in Hr. unfold cell_rows in Hr.
  apply list_elem_of_filter in Hr as [_ Hr]. by eapply Hnn.
Qed.

Lemma ltv_group_nondecreasing cohort dims df h tbl roi row :
  (∀ r q, r ∈ df → j_revenue r = Some q → (0 <= q)%Q) →
  ltv_group_by_dimensions cohort dims df h = Ok (tbl, roi) →
  row ∈ ct_rows tbl → nondecreasing (cr_cells row).
Proof.
  intros Hnn. unfold ltv_group_by_dimensions.
  destruct (check_dims cohort dims _) as [[]|e]; [|done].
  cbn [mbind result_bind].
  destruct (finish_table h _ _) as [t|e] eqn:Hf; [|done].
  cbn [mbind result_bind]. intros [= <- <-] Hrow.
  eapply cumulated_nondecreasing; [|exact Hf|exact Hrow].
  intros k c. by apply agg_revenue_nonneg.
Qed.

(** X6. When no purchase has a negative revenue, the cells of every row of
    the LTV tables never decrease as the lifetime day grows. *)
Theorem ltv_cells_nondecreasing
    (observation_date horizon_days : Z) (ignore_horizon : bool)
    (profiles : list profile) (purchases : list purchase)
    (dimensions : list string)
    (raw : raw_table) (grouped in_time : cohort_table)
    (roi_grouped roi_in_time : roi_table) :
  Forall (fun p => (0 <= p_revenue p)%Q) purchases →
  get_ltv observation_date horizon_days ignore_horizon profiles purchases
    dimensions = Ok (raw, grouped, in_time, roi_grouped, roi_in_time) →
  ∀ row, row ∈ ct_rows grouped ∨ row ∈ ct_rows in_time →
    nondecreasing (cr_cells row).
Proof.
  intros Hall Hok row Hrow. apply get_ltv_Ok in Hok as [Hg Ht].
  assert (Hnn : ∀ r q,
            r ∈ ltv_rows observation_date horizon_days ignore_horizon
                  profiles purchases →
            j_revenue r = Some q → (0 <= q)%Q)
    by (intros r q; by apply ltv_rows_revenue).
  destruct Hrow as [Hrow|Hrow].
  - eapply ltv_group_nondecreasing; [exact Hnn|exact Hg|exact Hrow].
  - eapply ltv_group_nondecreasing; [exact Hnn|exact Ht|exact Hrow].
Qed.

Lemma ltv_cells_nondecreasing_example :
  ∃ raw grouped in_time roi_grouped roi_in_time,
    get_ltv 1 2 false Example.profiles_three Example.purchases_full
      ["channel"] = Ok (raw, grouped, in_time, roi_grouped, roi_in_time) ∧
    ∀ row, row ∈ ct_rows grouped ∨ row ∈ ct_rows in_time →
      nondecreasing (cr_cells row).
Proof.
  eexists _, _, _, _, _. split; [vm_compute; reflexivity|].
  eapply (ltv_cells_nondecreasing 1 2 false Example.profiles_three
            Example.purchases_full ["channel"]).
  - unfold Example.purchases_full.
    repeat (constructor; [unfold Qle; simpl; lia|]). constructor.
  - vm_compute; reflexivity.
Defined.

Lemma map_const_length {A B C} (c : C) (l : list A) (k : list B) :
  length l = length k → map (fun _ => c) l = map (fun _ => c) k.
Proof.
  revert k. induction l as [|a l IH]; intros [|b k] Hlen; try done.
  simpl. f_equal. apply IH. by injection Hlen.
Qed.

Lemma ltv_group_roi_rows cohort dims df h tbl roi rr :
  ltv_group_by_dimensions cohort dims df h = Ok (tbl, roi) →
  rr ∈ roi_rows roi →
  ∃ r c, r ∈ ct_rows tbl ∧
         rr_key rr = cr_key r ∧ rr_cohort_size rr = cr_cohort_size r ∧
         rr_cac rr = Some c ∧ (cr_key r, c) ∈ cac_table cohort dims df ∧
         (Exists (cac_usable (cac_table cohort dims df)) (ct_rows tbl) →
          cac_usable (cac_table cohort dims df) r ∧
          rr_cells rr = map (fun x => fdiv x c) (cr_cells r)) ∧
         (¬ Exists (cac_usable (cac_table cohort dims df)) (ct_rows tbl) →
          rr_cells rr = map (fun _ => NaN) (cr_cells r)).
Proof.
  intros Hok Hrr. pose proof (ltv_group_shape _ _ _ _ _ _ Hok) as [Hshape _].
  pose proof (ltv_group_sizes _ _ _ _ _ _ Hok) as [Hsizes _].
  unfold ltv_group_by_dimensions in Hok.
  destruct (check_dims cohort dims _) as [[]|e]; [|done].
  cbn [mbind result_bind] in Hok.
  destruct (finish_table h _ _) as [t|e] eqn:Hf; [|done].
  cbn [mbind result_bind] in Hok. injection Hok as <- <-.
  assert (Hiff : Exists (roi_keeps (cac_table cohort dims df)) (ct_rows t)
                 ↔ Exists (cac_usable (cac_table cohort dims df)) (ct_rows t)).
  { rewrite !Exists_exists. split; intros (r & Hr & Hk); exists r;
      (split; [done|]); by eapply (roi_keeps_usable cohort dims df h). }
  apply elem_of_roi_rows in Hrr as [(r & Hr & Hk & ->)|(Hno & s & Hs & ->)].
  - destruct (ltv_rows_facts cohort dims df _ _ _ r Hf Hr) as [_ (c & Hc)].
    exists r, c. cbn [rr_key rr_cohort_size rr_cac rr_cells roi_row_of].
    split; [done|]. split; [done|]. split; [done|]. split; [done|].
    split; [by apply cac_at_elem|]. split.
    + intros _. split; [by eapply roi_keeps_usable|].
      rewrite Hc. done.
    + intros Hnone. exfalso. apply Hnone, Hiff, Exists_exists. eauto.
  - rewrite <- Hsizes in Hs. unfold table_sizes in Hs.
    change (map ?f ?x) with (f <$> x) in Hs.
    apply list_elem_of_fmap in Hs as (r & -> & Hr).
    destruct (ltv_rows_facts cohort dims df _ _ _ r Hf Hr) as [_ (c & Hc)].
    exists r, c. cbn [rr_key rr_cohort_size rr_cac rr_cells blank_roi_row fst snd].
    split; [done|]. split; [done|]. split; [done|]. split; [done|].
    split; [by apply cac_at_elem|]. split.
    + intros Hex. exfalso. by apply Hno, Hiff.
    + intros _. apply map_const_length.
      destruct Hshape as [-> Hlen]. rewrite (Hlen r Hr).
      by rewrite length_map, length_seq.
Qed.

(** X7. Every row of a ROI table comes from the row of the same cohort of
    the LTV table: same cohort size, and the cohort's mean acquisition cost
    as [cac].  Where some cohort has a usable cost, the rows are those of
    the cohorts with a usable cost and each cell is the LTV cell divided by
    the [cac]; where no cohort has one, every cell is missing. *)
Theorem roi_is_ltv_over_cac
    (observation_date horizon_days : Z) (ignore_horizon : bool)
    (profiles : list profile) (purchases : list purchase)
    (dimensions : list string)
    (raw : raw_table) (grouped in_time : cohort_table)
    (roi_grouped roi_in_time : roi_table) :
  get_ltv observation_date horizon_days ignore_horizon profiles purchases
    dimensions = Ok (raw, grouped, in_time, roi_grouped, roi_in_time) →
  let rows := ltv_rows observation_date horizon_days ignore_horizon
                profiles purchases in
  let cohort := cohort_column dimensions in
  let static := static_dimensions dimensions in
  (∀ rr, rr ∈ roi_rows roi_grouped →
     ∃ r c, r ∈ ct_rows grouped ∧
       rr_key rr = cr_key r ∧ rr_cohort_size rr = cr_cohort_size r ∧
       rr_cac rr = Some c ∧ (cr_key r, c) ∈ cac_table cohort static rows ∧
       (Exists (cac_usable (cac_table cohort static rows))
               (ct_rows grouped) →
        cac_usable (cac_table cohort static rows) r ∧
        rr_cells rr = map (fun x => fdiv x c) (cr_cells r)) ∧
       (¬ Exists (cac_usable (cac_table cohort static rows))
                 (ct_rows grouped) →
        rr_cells rr = map (fun _ => NaN) (cr_cells r))) ∧
  (∀ rr, rr ∈ roi_rows roi_in_time →
     ∃ r c, r ∈ ct_rows in_time ∧
       rr_key rr = cr_key r ∧ rr_cohort_size rr = cr_cohort_size r ∧
       rr_cac rr = Some c ∧
       (cr_key r, c) ∈ cac_table cohort (dynamic_dimensions static) rows ∧
       (Exists (cac_usable (cac_table cohort (dynamic_dimensions static)
                              rows)) (ct_rows in_time) →
        cac_usable (cac_table cohort (dynamic_dimensions static) rows) r ∧
        rr_cells rr = map (fun x => fdiv x c) (cr_cells r)) ∧
       (¬ Exists (cac_usable (cac_table cohort (dynamic_dimensions static)
                                rows)) (ct_rows in_time) →
        rr_cells rr = map (fun _ => NaN) (cr_cells r))).
Proof.
  intros Hok rows cohort static. apply get_ltv_Ok in Hok as [Hg Ht].
  split; intros rr Hrr; by eapply ltv_group_roi_rows.
Qed.

Lemma roi_is_ltv_over_cac_example :
  ∃ raw grouped in_time roi_grouped roi_in_time,
    get_ltv 1 2 false Example.profiles_three Example.purchases_full
      ["channel"] = Ok (raw, grouped, in_time, roi_grouped, roi_in_time) ∧
    map rr_cells (roi_rows roi_grouped)
      = [[Fin (40 # 20)%Q; Fin (68 # 20)%Q]] ∧
    ∀ rr, rr ∈ roi_rows roi_grouped →
      ∃ r c, r ∈ ct_rows grouped ∧
        rr_key rr = cr_key r ∧ rr_cohort_size rr = cr_cohort_size r ∧
        rr_cac rr = Some c ∧
        (cr_key r, c) ∈ cac_table None ["channel"]
           (ltv_rows 1 2 false Example.profiles_three
              Example.purchases_full) ∧
        (Exists (cac_usable (cac_table None ["channel"]
                   (ltv_rows 1 2 false Example.profiles_three
                      Example.purchases_full))) (ct_rows grouped) →
         cac_usable (cac_table None ["channel"]
            (ltv_rows 1 2 false Example.profiles_three
               Example.purchases_full)) r ∧
         rr_cells rr = map (fun x => fdiv x c) (cr_cells r)) ∧
        (¬ Exists (cac_usable (cac_table None ["channel"]
                     (ltv_rows 1 2 false Example.profiles_three
                        Example.purchases_full))) (ct_rows grouped) →
         rr_cells rr = map (fun _ => NaN) (cr_cells r)).
Proof.
  eexists _, _, _, _, _. split; [vm_compute; reflexivity|].
  split; [reflexivity|].
  edestruct (roi_is_ltv_over_cac 1 2 false Example.profiles_three
               Example.purchases_full ["channel"]) as [Hg _];
    [vm_compute; reflexivity|].
  exact Hg.
Defined.

(** ** Cohorts without events *)






Section EventlessGroups.
Context (cohort : option string) (dims : list string)
        (df : list jrow) (h : Z).
Hypothesis Hlife : ∀ r, r ∈ df → (j_lifetime r = None ↔ j_event r = None).



End EventlessGroups.



(** * Further properties of the profile builder *)

(** ** Sorting by user and time *)

Section SortedBy.
Context {A : Type} (leb : A → A → bool).
Hypothesis leb_total : ∀ x y, leb x y = false → leb y x = true.
Hypothesis leb_trans : ∀ x y z, leb x y = true → leb y z = true → leb x z = true.

Lemma insert_sorted_sorted x l :
  StronglySorted (fun a b => leb a b = true) l →
  StronglySorted (fun a b => leb a b = true) (insert_sorted leb x l).
Proof.
  induction 1 as [|y l Hs IH Hall]; simpl.
  - repeat constructor.
  - destruct (leb x y) eqn:Hxy.
    + constructor; [by constructor|].
      constructor; [done|].
      eapply Forall_impl; [exact Hall|]. simpl. intros z Hz.
      by eapply leb_trans.
    + constructor; [done|].
      apply Forall_forall. intros z Hz.
      rewrite (insert_sorted_perm leb x l) in Hz.
      apply elem_of_cons in Hz as [->|Hz]; [by apply leb_total|].
      by eapply Forall_forall in Hall.
Qed.

Lemma sort_by_sorted l :
  StronglySorted (fun a b => leb a b = true) (sort_by leb l).
Proof.
  induction l; simpl; [constructor|]. by apply insert_sorted_sorted.
Qed.
End SortedBy.

Section EarliestPerUser.
Context {A : Type} (uid ts : A → Z) (leb : A → A → bool).
Hypothesis leb_spec : ∀ a b,
  leb a b = true ↔ uid a < uid b ∨ (uid a = uid b ∧ ts a <= ts b).

Lemma lex_total x y : leb x y = false → leb y x = true.
Proof.
  intros Hxy. apply leb_spec.
  destruct (leb x y) eqn:H; [done|].
  assert (¬ (uid x < uid y ∨ (uid x = uid y ∧ ts x <= ts y))) as Hn
    by (rewrite <- leb_spec; congruence).
  lia.
Qed.

Lemma lex_trans x y z : leb x y = true → leb y z = true → leb x z = true.
Proof. rewrite !leb_spec. lia. Qed.

Lemma sorted_head_earliest l k v :
  StronglySorted (fun a b => leb a b = true) l →
  head (filter (fun a => uid a = k) l) = Some v →
  ∀ v', v' ∈ l → uid v' = k → ts v <= ts v'.
Proof.
  induction 1 as [|x l Hs IH Hall]; intros Hh v' Hv' Hk; [done|].
  rewrite filter_cons in Hh. destruct (decide (uid x = k)) as [Hx|Hx].
  - simpl in Hh. injection Hh as <-.
    apply elem_of_cons in Hv' as [->|Hv']; [lia|].
    eapply Forall_forall in Hall; [|exact Hv']. apply leb_spec in Hall. lia.
  - apply elem_of_cons in Hv' as [->|Hv']; [done|]. by apply IH.
Qed.

(** The first row of a user's group after the sort is a row of that user,
    and no row of the user is earlier. *)
Lemma group_head_earliest (l : list A) k v :
  head (group_rows uid k (sort_by leb l)) = Some v →
  v ∈ l ∧ uid v = k ∧ ∀ v', v' ∈ l → uid v' = k → ts v <= ts v'.
Proof.
  intros Hh.
  assert (v ∈ group_rows uid k (sort_by leb l)) as Hin.
  { destruct (group_rows uid k (sort_by leb l)) as [|x rest]; [done|].
    injection Hh as ->. left. }
  apply elem_of_group_rows in Hin as [Hin Hk].
  apply elem_of_sort_by in Hin. split; [done|]. split; [done|].
  intros v' Hv' Hk'. eapply (sorted_head_earliest (sort_by leb l)).
  - apply sort_by_sorted; [apply lex_total|apply lex_trans].
  - exact Hh.
  - by apply elem_of_sort_by.
  - done.
Qed.

(** Every user with a row has a first row. *)
Lemma group_head_exists (l : list A) k :
  k ∈ group_keys Z.leb uid (sort_by leb l) →
  is_Some (head (group_rows uid k (sort_by leb l))).
Proof.
  intros Hk. apply elem_of_group_keys in Hk as (r & Hr & Hkr).
  assert (r ∈ group_rows uid k (sort_by leb l)) as Hin
    by (by apply elem_of_group_rows).
  destruct (group_rows uid k (sort_by leb l)); [by apply elem_of_nil in Hin|].
  by eexists.
Qed.
End EarliestPerUser.

Lemma visit_leb_spec a b :
  visit_leb a b = true ↔
  v_user_id a < v_user_id b
  ∨ (v_user_id a = v_user_id b ∧ v_session_start a <= v_session_start b).
Proof.
  unfold visit_leb.
  rewrite orb_true_iff, andb_true_iff, Z.ltb_lt, Z.eqb_eq, Z.leb_le. done.
Qed.

Lemma purchase_leb_spec a b :
  purchase_leb a b = true ↔
  p_user_id a < p_user_id b
  ∨ (p_user_id a = p_user_id b ∧ p_event_dt a <= p_event_dt b).
Proof.
  unfold purchase_leb.
  rewrite orb_true_iff, andb_true_iff, Z.ltb_lt, Z.eqb_eq, Z.leb_le. done.
Qed.

Lemma elem_of_first_visits visits v :
  v ∈ first_visits visits →
  v ∈ visits ∧
  ∀ v', v' ∈ visits → v_user_id v' = v_user_id v →
        v_session_start v <= v_session_start v'.
Proof.
  unfold first_visits, groupby. rewrite omap_map, list_elem_of_omap.
  intros (k & _ & Hh). simpl in Hh.
  apply (group_head_earliest v_user_id v_session_start visit_leb
           visit_leb_spec) in Hh as (Hin & <- & Hmin).
  done.
Qed.

Lemma first_visits_users visits :
  map v_user_id (first_visits visits)
  = group_keys Z.leb v_user_id (sort_by visit_leb visits).
Proof.
  unfold first_visits, groupby. rewrite omap_map. simpl.
  pose proof (group_head_exists v_user_id visit_leb visits) as Hex.
  pose proof (fun k => group_head_earliest v_user_id v_session_start
                visit_leb visit_leb_spec visits k) as Hhd.
  induction (group_keys Z.leb v_user_id (sort_by visit_leb visits))
    as [|k ks IH]; [done|].
  simpl. destruct (Hex k) as [v Hv]; [left|]. rewrite Hv. simpl.
  destruct (Hhd k v Hv) as (_ & -> & _). f_equal.
  apply IH. intros k' Hk'. apply Hex. by right.
Qed.

Lemma NoDup_first_visits visits :
  NoDup (map v_user_id (first_visits visits)).
Proof. rewrite first_visits_users. apply NoDup_group_keys. Qed.

Lemma first_visits_cover visits u :
  u ∈ map v_user_id (first_visits visits) ↔ u ∈ map v_user_id visits.
Proof.
  rewrite first_visits_users, elem_of_group_keys.
  change (map ?f ?x) with (f <$> x). rewrite list_elem_of_fmap.
  setoid_rewrite elem_of_sort_by. split; intros (v & ? & ?); eauto.
Qed.

(** ** First touch *)

Lemma build_profiles_row visits orders ads p :
  p ∈ build_profiles visits orders ads →
  ∃ v cost, v ∈ first_visits visits ∧ p = mk_profile orders v cost.
Proof.
  unfold build_profiles. rewrite elem_of_merge_left.
  intros (v & Hv & [(b & _ & _ & ->)|(_ & ->)]); eauto.
Qed.

Lemma get_profiles_Ok visits orders ad_costs profiles :
  get_profiles visits orders ad_costs = Ok profiles →
  ∃ ds, dt_dates ad_costs = Ok ds ∧
        profiles = build_profiles visits orders (set_dt ad_costs ds).
Proof.
  unfold get_profiles. destruct (dt_dates ad_costs) as [ds|e]; [|done].
  cbn [mbind result_bind]. intros [= <-]. eauto.
Qed.

Lemma is_payer_spec orders u :
  is_payer orders u = true ↔ u ∈ map p_user_id orders.
Proof.
  unfold is_payer. by rewrite bool_decide_eq_true, elem_of_remove_dups.
Qed.

(** X10. A profile carries the attributes of a visit of its user, and no
    visit of that user started earlier; its date and month are those of
    that visit, and it is flagged a payer exactly when the user has an
    order. *)
Theorem first_touch_attribution
    (visits : list visit) (orders : list purchase) (ad_costs : list ad_cost)
    (profiles : list profile) (p : profile) :
  get_profiles visits orders ad_costs = Ok profiles →
  p ∈ profiles →
  (∃ v, v ∈ visits ∧ user_id p = v_user_id v ∧
        first_ts p = v_session_start v ∧ channel p = v_channel v ∧
        device p = v_device v ∧ region p = v_region v) ∧
  (∀ v', v' ∈ visits → v_user_id v' = user_id p →
         first_ts p <= v_session_start v') ∧
  dt p = date_of (first_ts p) ∧ month p = month_of (first_ts p) ∧
  (payer p = true ↔ user_id p ∈ map p_user_id orders).
Proof.
  intros Hok Hp. apply get_profiles_Ok in Hok as (ds & _ & ->).
  apply build_profiles_row in Hp as (v & cost & Hv & ->).
  apply elem_of_first_visits in Hv as [Hin Hmin]. simpl.
  split; [by exists v|]. split; [done|]. split; [done|]. split; [done|].
  apply is_payer_spec.
Qed.

Lemma first_touch_attribution_example :
  ∃ p, p ∈ Example.profiles_two ∧ user_id p = 1 ∧ first_ts p = 100 ∧
       ∀ v', v' ∈ Example.visits_two → v_user_id v' = user_id p →
             first_ts p <= v_session_start v'.
Proof.
  eexists. split; [left|]. split; [reflexivity|]. split; [reflexivity|].
  eapply (first_touch_attribution Example.visits_two Example.one_purchase
            Example.ad_costs Example.profiles_two).
  - reflexivity.
  - left.
Defined.

(** ** One profile per visitor, unless ad-cost rows repeat *)

Lemma merge_left_projection {A B C D} (matches : A → B → Prop)
    `{∀ a b, Decision (matches a b)} (combine : A → option B → C)
    (proj : C → D) (g : A → D) (left : list A) (right : list B) :
  (∀ a, (length (filter (matches a) right) ≤ 1)%nat) →
  (∀ a o, proj (combine a o) = g a) →
  map proj (merge_left matches combine left right) = map g left.
Proof.
  intros Hone Hproj. unfold merge_left.
  induction left as [|a left IH]; [done|].
  cbn [flat_map]. rewrite map_app, IH.
  specialize (Hone a).
  destruct (filter (matches a) right) as [|b [|b' ms]]; simpl in *.
  - by rewrite Hproj.
  - by rewrite Hproj.
  - lia.
Qed.

Lemma length_filter_map {A B} (f : A → B) (Q : B → Prop)
    `{∀ b, Decision (Q b)} (l : list A) :
  length (filter (fun a => Q (f a)) l) = length (filter Q (map f l)).
Proof.
  induction l as [|a l IH]; [done|].
  simpl. rewrite !filter_cons. destruct (decide (Q (f a))); simpl; by rewrite IH.
Qed.

Lemma new_users_keys firsts :
  map fst (new_users firsts) = group_keys acq_key_leb visit_acq_key firsts.
Proof. unfold new_users, groupby. rewrite !map_map. simpl. apply map_id. Qed.

Lemma ad_matches_at_most_one a (users : list (acq_key * nat)) :
  NoDup (map fst users) →
  (length (filter (ad_matches_users a) users) ≤ 1)%nat.
Proof.
  induction users as [|n users IH]; intros Hnd; [simpl; lia|].
  simpl in Hnd. apply NoDup_cons in Hnd as [Hn Hnd].
  rewrite filter_cons. destruct (decide (ad_matches_users a n)) as [Hm|Hm];
    [|by apply IH].
  simpl. assert (filter (ad_matches_users a) users = []) as ->; [|simpl; lia].
  destruct (filter (ad_matches_users a) users) as [|n' l'] eqn:Hf; [done|].
  assert (n' ∈ filter (ad_matches_users a) users) as Hin by (rewrite Hf; left).
  apply list_elem_of_filter in Hin as [Hm' Hin]. exfalso. apply Hn.
  destruct Hm as [Hd Hc], Hm' as [Hd' Hc'].
  assert (fst n = fst n') as ->.
  { destruct n as [[d c] k], n' as [[d' c'] k']. simpl in *.
    rewrite Hd in Hd'. injection Hd' as ->. congruence. }
  change (map ?g ?x) with (g <$> x). by apply list_elem_of_fmap_2.
Qed.

Lemma with_acquisition_cost_keys ads firsts :
  map (fun b => (acr_dt b, acr_channel b))
      (with_acquisition_cost ads (new_users firsts))
  = map (fun a => (ac_dt a, ac_channel a)) ads.
Proof.
  unfold with_acquisition_cost. apply merge_left_projection; [|done].
  intros a. apply ad_matches_at_most_one.
  rewrite new_users_keys. apply NoDup_group_keys.
Qed.

Lemma set_dt_keys ad_costs ds :
  dt_dates ad_costs = Ok ds →
  map (fun a => (ac_dt a, ac_channel a)) (set_dt ad_costs ds)
  = map (fun a => (Day (ad_cost_date a), ac_channel a)) ad_costs.
Proof.
  revert ds. induction ad_costs as [|a l IH]; intros ds Hds.
  - simpl in Hds. by injection Hds as <-.
  - simpl in Hds. destruct (ac_dt a) as [ts|d] eqn:Hdt; [|done].
    destruct (dt_dates l) as [ds'|e] eqn:Hl; simpl in Hds; [|done].
    injection Hds as <-. unfold set_dt. simpl. f_equal.
    + unfold ad_cost_date. by rewrite Hdt.
    + by apply IH.
Qed.

Lemma filter_all {A} (P : A → Prop) `{∀ a, Decision (P a)} (l : list A) :
  (∀ a, a ∈ l → P a) → filter P l = l.
Proof.
  induction l as [|a l IH]; intros Hall; [done|].
  rewrite filter_cons, decide_True by (apply Hall; left).
  f_equal. apply IH. intros b Hb. apply Hall. by right.
Qed.

Lemma filter_none {A} (P : A → Prop) `{∀ a, Decision (P a)} (l : list A) :
  (∀ a, a ∈ l → ¬ P a) → filter P l = [].
Proof.
  induction l as [|a l IH]; intros Hall; [done|].
  rewrite filter_cons, decide_False by (apply Hall; left).
  apply IH. intros b Hb. apply Hall. by right.
Qed.

(** How many cost rows a first visit is merged with. *)
Lemma matched_cost_rows ad_costs ds firsts v :
  dt_dates ad_costs = Ok ds →
  length (filter (profile_matches_ad v)
            (with_acquisition_cost (set_dt ad_costs ds) (new_users firsts)))
  = length (matching_ads ad_costs (visit_dt v) (v_channel v)).
Proof.
  intros Hds.
  pose (Q := fun k : datecell * string =>
               fst k = Day (visit_dt v) ∧ snd k = v_channel v).
  transitivity
    (length (filter Q
       (map (fun b => (acr_dt b, acr_channel b))
          (with_acquisition_cost (set_dt ad_costs ds) (new_users firsts))))).
  { rewrite <- (length_filter_map (fun b => (acr_dt b, acr_channel b)) Q).
    done. }
  rewrite with_acquisition_cost_keys, (set_dt_keys _ _ Hds).
  rewrite <- (length_filter_map
                (fun a => (Day (ad_cost_date a), ac_channel a)) Q).
  unfold matching_ads. f_equal. apply list_filter_iff. intros a.
  unfold Q. simpl. split; intros [Hd Hc]; (split; [congruence|done]).
Qed.

Lemma filter_flat_map_block {A B} (f : B → Z) (g : A → Z)
    (F : A → list B) (l : list A) (v : A) :
  NoDup (map g l) → v ∈ l →
  (∀ a b, b ∈ F a → f b = g a) →
  filter (fun b => f b = g v) (flat_map F l) = F v.
Proof.
  intros Hnd Hv HF. induction l as [|a l IH]; [by apply elem_of_nil in Hv|].
  simpl in Hnd. apply NoDup_cons in Hnd as [Ha Hnd].
  cbn [flat_map]. rewrite filter_app.
  destruct (decide (g a = g v)) as [Heq|Hne].
  - assert (v = a ∨ v ∈ l) as [->|Hin] by (by apply elem_of_cons).
    + rewrite filter_all by (intros b Hb; by apply HF).
      rewrite filter_none; [by rewrite app_nil_r|].
      intros b Hb Hfb. apply Ha.
      apply list_elem_of_In, in_flat_map in Hb as (a' & Ha' & Hb).
      apply list_elem_of_In in Ha', Hb. apply HF in Hb.
      change (map ?h ?x) with (h <$> x). apply list_elem_of_fmap.
      exists a'. split; [congruence|done].
    + exfalso. apply Ha. rewrite Heq.
      change (map ?h ?x) with (h <$> x). by apply list_elem_of_fmap_2.
  - rewrite filter_none.
    + simpl. apply IH; [done|].
      apply elem_of_cons in Hv as [->|Hv]; [done|done].
    + intros b Hb Hfb. apply HF in Hb. congruence.
Qed.

Lemma elem_of_build_profiles visits orders ads p :
  p ∈ build_profiles visits orders ads ↔
  ∃ v, v ∈ first_visits visits ∧
    ((∃ b, b ∈ with_acquisition_cost ads (new_users (first_visits visits)) ∧
           profile_matches_ad v b ∧
           p = mk_profile orders v (acr_acquisition_cost b)) ∨
     ((∀ b, b ∈ with_acquisition_cost ads (new_users (first_visits visits)) →
            ¬ profile_matches_ad v b) ∧
      p = mk_profile orders v None)).
Proof. unfold build_profiles. by rewrite elem_of_merge_left. Qed.

Lemma build_profiles_users visits orders ads u :
  u ∈ map user_id (build_profiles visits orders ads) ↔
  u ∈ map v_user_id visits.
Proof.
  rewrite <- first_visits_cover.
  change (map ?f ?x) with (f <$> x). rewrite !list_elem_of_fmap. split.
  - intros (p & -> & Hp). apply build_profiles_row in Hp as (v & c & Hv & ->).
    by exists v.
  - intros (v & -> & Hv).
    destruct (decide (Exists (profile_matches_ad v)
                (with_acquisition_cost ads (new_users (first_visits visits)))))
      as [Hex|Hno].
    + apply Exists_exists in Hex as (b & Hb & Hm).
      exists (mk_profile orders v (acr_acquisition_cost b)). split; [done|].
      apply elem_of_build_profiles. exists v. split; [done|]. left. eauto.
    + exists (mk_profile orders v None). split; [done|].
      apply elem_of_build_profiles. exists v. split; [done|]. right.
      split; [|done]. intros b Hb Hm. apply Hno, Exists_exists. eauto.
Qed.

(** X11. The users with a profile are exactly the users with a visit. *)
Theorem profiles_cover_the_visitors
    (visits : list visit) (orders : list purchase) (ad_costs : list ad_cost)
    (profiles : list profile) :
  get_profiles visits orders ad_costs = Ok profiles →
  ∀ u, u ∈ map user_id profiles ↔ u ∈ map v_user_id visits.
Proof.
  intros Hok u. apply get_profiles_Ok in Hok as (ds & _ & ->).
  apply build_profiles_users.
Qed.

Lemma profiles_cover_the_visitors_example :
  map user_id Example.profiles_three = [1; 2; 3] ∧
  (3 ∈ map user_id Example.profiles_three
   ↔ 3 ∈ map v_user_id Example.visits_three).
Proof.
  split; [reflexivity|].
  apply (profiles_cover_the_visitors Example.visits_three
           Example.one_purchase Example.ad_costs Example.profiles_three).
  reflexivity.
Defined.

Section ProfileRows.
Context (visits : list visit) (orders : list purchase)
        (ad_costs : list ad_cost) (ds : list Z).
Hypothesis Hds : dt_dates ad_costs = Ok ds.

Let costs :=
  with_acquisition_cost (set_dt ad_costs ds) (new_users (first_visits visits)).

Let block (v : visit) : list profile :=
  match filter (profile_matches_ad v) costs with
  | [] => [mk_profile orders v None]
  | ms => map (fun b => mk_profile orders v (Some b ≫= acr_acquisition_cost)) ms
  end.

Lemma build_profiles_blocks :
  build_profiles visits orders (set_dt ad_costs ds)
  = flat_map block (first_visits visits).
Proof. reflexivity. Qed.

Lemma block_rows v p :
  p ∈ block v →
  user_id p = v_user_id v ∧ dt p = visit_dt v ∧ channel p = v_channel v.
Proof.
  unfold block. destruct (filter (profile_matches_ad v) costs) as [|b ms].
  - intros ->%list_elem_of_singleton. done.
  - change (map ?f ?x) with (f <$> x).
    intros (b' & -> & _)%list_elem_of_fmap. done.
Qed.

Lemma length_block v :
  length (block v)
  = Nat.max 1 (length (matching_ads ad_costs (visit_dt v) (v_channel v))).
Proof.
  rewrite <- (matched_cost_rows ad_costs ds (first_visits visits) v Hds).
  unfold block. fold costs.
  destruct (filter (profile_matches_ad v) costs) as [|b ms]; [done|].
  rewrite length_map. simpl. lia.
Qed.

Lemma profile_row_count p :
  p ∈ build_profiles visits orders (set_dt ad_costs ds) →
  length (rows_of_user (build_profiles visits orders (set_dt ad_costs ds))
            (user_id p))
  = Nat.max 1 (length (matching_ads ad_costs (dt p) (channel p))).
Proof.
  rewrite build_profiles_blocks. intros Hp.
  apply list_elem_of_In, in_flat_map in Hp as (v & Hv & Hp).
  apply list_elem_of_In in Hv, Hp.
  destruct (block_rows v p Hp) as (-> & -> & ->).
  unfold rows_of_user.
  rewrite (filter_flat_map_block user_id v_user_id block
             (first_visits visits) v).
  - apply length_block.
  - apply NoDup_first_visits.
  - done.
  - intros a b Hb. by apply block_rows in Hb as [? _].
Qed.

Lemma profiles_one_per_user :
  (∀ d ch, (length (matching_ads ad_costs d ch) ≤ 1)%nat) →
  map user_id (build_profiles visits orders (set_dt ad_costs ds))
  = map v_user_id (first_visits visits).
Proof.
  intros Hone. unfold build_profiles. apply merge_left_projection; [|done].
  intros v. rewrite (matched_cost_rows _ _ _ _ Hds). apply Hone.
Qed.
End ProfileRows.

(** X12. A user has as many profile rows as the ad-cost table has rows for
    the user's acquisition date and channel, and one when it has none.  So
    the profile table has one row per user as soon as no two ad-cost rows
    share date and channel. *)
Theorem profile_rows_per_user
    (visits : list visit) (orders : list purchase) (ad_costs : list ad_cost)
    (profiles : list profile) :
  get_profiles visits orders ad_costs = Ok profiles →
  (∀ p, p ∈ profiles →
     length (rows_of_user profiles (user_id p))
     = Nat.max 1 (length (matching_ads ad_costs (dt p) (channel p)))) ∧
  ((∀ d ch, (length (matching_ads ad_costs d ch) ≤ 1)%nat) →
   NoDup (map user_id profiles)).
Proof.
  intros Hok. apply get_profiles_Ok in Hok as (ds & Hds & ->). split.
  - intros p Hp. by apply profile_row_count.
  - intros Hone. rewrite (profiles_one_per_user _ _ _ _ Hds Hone).
    apply NoDup_first_visits.
Qed.

Lemma profile_rows_per_user_example :
  (∀ p, p ∈ Example.profiles_three →
     length (rows_of_user Example.profiles_three (user_id p))
     = Nat.max 1 (length (matching_ads Example.ad_costs (dt p) (channel p)))) ∧
  NoDup (map user_id Example.profiles_three).
Proof.
  destruct (profile_rows_per_user Example.visits_three Example.one_purchase
              Example.ad_costs Example.profiles_three eq_refl) as [Hc Hn].
  split; [exact Hc|]. apply Hn. intros d ch.
  unfold matching_ads, Example.ad_costs. rewrite filter_cons.
  destruct (decide _); simpl; lia.
Defined.

Lemma filter_flat_map_key {A B} (P : B → Prop) `{∀ b, Decision (P b)}
    (Q : A → Prop) `{∀ a, Decision (Q a)} (F : A → list B) (l : list A) :
  (∀ a b, b ∈ F a → (P b ↔ Q a)) →
  filter P (flat_map F l) = flat_map F (filter Q l).
Proof.
  intros HF. induction l as [|a l IH]; [done|].
  cbn [flat_map]. rewrite filter_app, filter_cons, IH.
  destruct (decide (Q a)) as [Hq|Hq].
  - rewrite filter_all; [done|]. intros b Hb. by apply (HF a b Hb).
  - rewrite filter_none; [done|]. intros b Hb Hp. by apply Hq, (HF a b Hb).
Qed.

Lemma elem_of_set_dt ad_costs ds a' :
  dt_dates ad_costs = Ok ds →
  a' ∈ set_dt ad_costs ds →
  ∃ a, a ∈ ad_costs ∧ ac_dt a' = Day (ad_cost_date a) ∧
       ac_channel a' = ac_channel a ∧ ac_costs a' = ac_costs a.
Proof.
  revert ds. induction ad_costs as [|a l IH]; intros ds Hds Hin.
  - simpl in Hds. injection Hds as <-. by apply elem_of_nil in Hin.
  - simpl in Hds. destruct (ac_dt a) as [ts|d] eqn:Hdt; [|done].
    destruct (dt_dates l) as [ds'|e] eqn:Hl; simpl in Hds; [|done].
    injection Hds as <-. unfold set_dt in Hin. simpl in Hin.
    apply elem_of_cons in Hin as [->|Hin].
    + exists a. split; [left|]. simpl. unfold ad_cost_date. by rewrite Hdt.
    + destruct (IH ds' eq_refl Hin) as (a0 & Ha0 & ?). exists a0.
      split; [by right|done].
Qed.

Lemma elem_of_new_users firsts k cnt :
  (k, cnt) ∈ new_users firsts →
  cnt = nunique (map v_user_id (group_rows visit_acq_key k firsts)).
Proof.
  unfold new_users. change (map ?f ?x) with (f <$> x).
  intros ([k' g] & [= -> ->] & Hg)%list_elem_of_fmap.
  apply elem_of_groupby in Hg as [_ ->]. done.
Qed.

Lemma new_users_has_key firsts v :
  v ∈ firsts →
  (visit_acq_key v,
   nunique (map v_user_id (group_rows visit_acq_key (visit_acq_key v) firsts)))
  ∈ new_users firsts.
Proof.
  intros Hv. unfold new_users. change (map ?f ?x) with (f <$> x).
  apply list_elem_of_fmap.
  exists (visit_acq_key v, group_rows visit_acq_key (visit_acq_key v) firsts).
  split; [done|]. apply elem_of_groupby. split; [eauto|done].
Qed.

Lemma group_rows_users_NoDup {K} `{EqDecision K} (key : visit → K) k firsts :
  NoDup (map v_user_id firsts) →
  NoDup (map v_user_id (group_rows key k firsts)).
Proof.
  intros Hnd. eapply sublist_NoDup; [exact Hnd|].
  change (map ?f ?x) with (f <$> x). apply fmap_sublist.
  unfold group_rows. apply sublist_filter.
Qed.

Section Amortisation.
Context (visits : list visit) (orders : list purchase)
        (ad_costs : list ad_cost) (ds : list Z) (a : ad_cost)
        (d : Z) (ch : string).
Hypothesis Hds : dt_dates ad_costs = Ok ds.
Hypothesis Hone : matching_ads ad_costs d ch = [a].

Let firsts := first_visits visits.
Let cohort_visits := group_rows visit_acq_key (d, ch) firsts.
Let share : Q := (ac_costs a / inject_Z (Z.of_nat (length cohort_visits)))%Q.

Lemma cohort_cost_row v :
  v ∈ cohort_visits →
  ∃ b, filter (profile_matches_ad v)
         (with_acquisition_cost (set_dt ad_costs ds) (new_users firsts)) = [b]
       ∧ acr_acquisition_cost b = Some share.
Proof.
  intros Hv. apply elem_of_group_rows in Hv as [Hv Hk].
  unfold visit_acq_key in Hk. injection Hk as Hd Hc.
  pose proof (matched_cost_rows ad_costs ds firsts v Hds) as Hlen.
  rewrite Hd, Hc, Hone in Hlen.
  destruct (filter _ _) as [|b [|b' ms]] eqn:Hf; [done| |done].
  exists b. split; [done|].
  assert (b ∈ filter (profile_matches_ad v)
            (with_acquisition_cost (set_dt ad_costs ds) (new_users firsts)))
    as Hb by (rewrite Hf; left).
  apply list_elem_of_filter in Hb as [[Hbd Hbc] Hb].
  unfold with_acquisition_cost in Hb.
  apply elem_of_merge_left in Hb as (a' & Ha' & Hcase).
  destruct (elem_of_set_dt _ _ _ Hds Ha') as (a0 & Ha0 & Hdt0 & Hch0 & Hco0).
  assert (ac_dt a' = Day d ∧ ac_channel a' = ch) as [Hkd Hkc].
  { destruct Hcase as [(n & _ & _ & ->)|(_ & ->)]; simpl in *;
      (split; congruence). }
  assert (a0 = a) as ->.
  { assert (a0 ∈ matching_ads ad_costs d ch) as Hin.
    { apply list_elem_of_filter. split; [|done]. split; congruence. }
    rewrite Hone in Hin. by apply list_elem_of_singleton in Hin. }
  destruct Hcase as [([k cnt] & Hn & [Hmd Hmc] & ->)|(Hno & ->)].
  - simpl in *. assert (k = (d, ch)) as ->.
    { destruct k as [kd kc]. simpl in *. congruence. }
    apply elem_of_new_users in Hn. subst cnt.
    rewrite nunique_NoDup
      by (apply group_rows_users_NoDup, NoDup_first_visits).
    rewrite length_map. unfold share, cohort_visits. by rewrite Hco0.
  - exfalso. eapply Hno; [by apply (new_users_has_key firsts v)|].
    split; simpl; congruence.
Qed.

Lemma cohort_profiles :
  acquired_on (build_profiles visits orders (set_dt ad_costs ds)) d ch
  = map (fun v => mk_profile orders v (Some share)) cohort_visits.
Proof.
  unfold acquired_on, build_profiles, merge_left. fold firsts.
  rewrite (filter_flat_map_key _ (fun v => visit_acq_key v = (d, ch))).
  - fold (group_rows visit_acq_key (d, ch) firsts). fold cohort_visits.
    cut (∀ l, (∀ v, v ∈ l → v ∈ cohort_visits) →
           flat_map (fun v =>
             match filter (profile_matches_ad v)
                     (with_acquisition_cost (set_dt ad_costs ds)
                        (new_users firsts)) with
             | [] => [mk_profile orders v (None ≫= acr_acquisition_cost)]
             | ms => map (fun b => mk_profile orders v
                                     (Some b ≫= acr_acquisition_cost)) ms
             end) l
           = map (fun v => mk_profile orders v (Some share)) l).
    { intros Haux. by apply Haux. }
    induction l as [|v l IH]; intros Hall; [done|].
    change (flat_map ?F (v :: l)) with (F v ++ flat_map F l).
    rewrite IH by (intros; apply Hall; by right).
    destruct (cohort_cost_row v) as (b & -> & Hb); [apply Hall; left|].
    simpl. by rewrite Hb.
  - intros v q Hq. unfold visit_acq_key.
    assert (dt q = visit_dt v ∧ channel q = v_channel v) as [-> ->].
    { destruct (filter _ _) as [|b ms].
      - apply list_elem_of_singleton in Hq as ->. done.
      - change (map ?f ?x) with (f <$> x) in Hq.
        apply list_elem_of_fmap in Hq as (b' & -> & _). done. }
    split; [intros [-> ->]; done|intros [= -> ->]; done].
Qed.

Lemma cohort_shares :
  let cohort :=
    acquired_on (build_profiles visits orders (set_dt ad_costs ds)) d ch in
  NoDup (map user_id cohort) ∧
  (∀ q, q ∈ cohort →
     (acquisition_cost q == ac_costs a / Qnat (length cohort))%Q) ∧
  (cohort ≠ [] → (Qsum (map acquisition_cost cohort) == ac_costs a)%Q).
Proof.
  intros cohort. unfold cohort. rewrite cohort_profiles.
  rewrite length_map, !map_map. simpl. split; [|split].
  - apply group_rows_users_NoDup, NoDup_first_visits.
  - change (map ?f ?x) with (f <$> x).
    intros q (v & -> & _)%list_elem_of_fmap. simpl. reflexivity.
  - intros Hne.
    assert (0 < length cohort_visits)%nat as Hpos
      by (destruct cohort_visits; [done|simpl; lia]).
    transitivity (share * Qnat (length cohort_visits))%Q.
    + rewrite <- Qsum_ones. generalize cohort_visits as l.
      induction l as [|v l IH]; simpl; [ring|]. rewrite IH. ring.
    + unfold share, Qnat. field. intros Hz.
      unfold Qeq in Hz. simpl in Hz. lia.
Qed.
End Amortisation.

(** X13. When the ad-cost table has exactly one row for a profile's
    acquisition date and channel, the users acquired on that date through
    that channel have one profile each, every one of them carries the row's
    costs divided by their number, and their costs add up to the row's
    costs. *)
Theorem ad_spend_is_shared_equally
    (visits : list visit) (orders : list purchase) (ad_costs : list ad_cost)
    (profiles : list profile) (p : profile) (a : ad_cost) :
  get_profiles visits orders ad_costs = Ok profiles →
  p ∈ profiles →
  matching_ads ad_costs (dt p) (channel p) = [a] →
  let cohort := acquired_on profiles (dt p) (channel p) in
  NoDup (map user_id cohort) ∧
  (∀ q, q ∈ cohort →
     (acquisition_cost q
      == ac_costs a / inject_Z (Z.of_nat (length cohort)))%Q) ∧
  (fold_right Qplus 0 (map acquisition_cost cohort) == ac_costs a)%Q.
Proof.
  intros Hok Hp Hone. apply get_profiles_Ok in Hok as (ds & Hds & ->).
  destruct (cohort_shares visits orders ad_costs ds a (dt p) (channel p)
              Hds Hone) as (Hnd & Hshare & Hsum).
  intros cohort. split; [done|]. split; [exact Hshare|]. apply Hsum.
  assert (p ∈ cohort) as Hin by (apply list_elem_of_filter; done).
  intros Hnil. unfold cohort in Hin. rewrite Hnil in Hin.
  by apply elem_of_nil in Hin.
Qed.

Lemma ad_spend_is_shared_equally_example :
  let cohort := acquired_on Example.profiles_three 0 "ads" in
  map acquisition_cost cohort = [(10 # 2)%Q; (10 # 2)%Q] ∧
  NoDup (map user_id cohort) ∧
  (∀ q, q ∈ cohort →
     (acquisition_cost q == 10 / inject_Z (Z.of_nat (length cohort)))%Q) ∧
  (fold_right Qplus 0 (map acquisition_cost cohort) == 10)%Q.
Proof.
  split; [reflexivity|].
  apply (ad_spend_is_shared_equally Example.visits_three Example.one_purchase
           Example.ad_costs Example.profiles_three
           (mk_profile Example.one_purchase Example.visit_a (Some (10 # 2)%Q))
           {| ac_dt := Stamp 0; ac_channel := "ads"; ac_costs := 10%Q |}).
  - reflexivity.
  - vm_compute. left.
  - reflexivity.
Defined.

(** ** Calling the profile builder again *)

Lemma dt_dates_of_dates ad_costs ds :
  dt_dates ad_costs = Ok ds → ad_costs ≠ [] →
  ∃ what, dt_dates (set_dt ad_costs ds) = Err (AttributeError what).
Proof.
  destruct ad_costs as [|a l]; [done|]. intros Hds _. simpl in Hds.
  destruct (ac_dt a) as [ts|d]; [|done].
  destruct (dt_dates l) as [ds'|e]; simpl in Hds; [|done].
  injection Hds as <-. unfold set_dt. simpl. eauto.
Qed.

Lemma expect_run {A} (sel : table → option A) r h t a :
  h !! r = Some t → sel t = Some a → Obj.expect sel r h = Ok (a, h).
Proof.
  intros Ht Hsel. unfold Obj.expect, Obj.load, mbind, prog_bind.
  by rewrite Ht, Hsel.
Qed.

(** X14. After a call of [get_profiles] that returned, on an ad-cost table
    with at least one row, a second call on the same table objects raises
    AttributeError: the first call has left dates in its [dt] column. *)
Theorem second_get_profiles_call_raises
    (visits orders ad_costs : ref) (h h' : heap) (r : ref) :
  Obj.get_profiles visits orders ad_costs h = Ok (r, h') →
  h !! ad_costs ≠ Some (TAdCosts []) →
  ∃ what,
    Obj.get_profiles visits orders ad_costs h' = Err (AttributeError what).
Proof.
  intros Hrun Hne.
  apply ObjFacts.get_profiles_run in Hrun
    as (vs & os & ac & ds & Hv & Ho & Ha & Hds & -> & ->).
  assert (ac ≠ []) as Hac by (intros ->; done).
  destruct (dt_dates_of_dates ac ds Hds Hac) as (what & Hwhat).
  exists what.
  assert (ad_costs < length h)%nat as Hlt by (by eapply lookup_lt_Some).
  assert (visits ≠ ad_costs) as Hva by (intros ->; congruence).
  assert (orders ≠ ad_costs) as Hoa by (intros ->; congruence).
  set (h1 := <[ad_costs := TAdCosts (set_dt ac ds)]> h
             ++ [TProfiles (build_profiles vs os (set_dt ac ds))]).
  assert (h1 !! visits = Some (TVisits vs)) as Hv1.
  { unfold h1. rewrite lookup_app_l
      by (rewrite length_insert; by eapply lookup_lt_Some).
    by rewrite list_lookup_insert_ne. }
  assert (h1 !! orders = Some (TPurchases os)) as Ho1.
  { unfold h1. rewrite lookup_app_l
      by (rewrite length_insert; by eapply lookup_lt_Some).
    by rewrite list_lookup_insert_ne. }
  assert (h1 !! ad_costs = Some (TAdCosts (set_dt ac ds))) as Ha1.
  { unfold h1. rewrite lookup_app_l by (by rewrite length_insert).
    by apply list_lookup_insert_eq. }
  unfold Obj.get_profiles, mbind, prog_bind.
  rewrite (expect_run Obj.as_visits visits h1 _ vs Hv1 eq_refl).
  rewrite (expect_run Obj.as_purchases orders h1 _ os Ho1 eq_refl).
  rewrite (expect_run Obj.as_ad_costs ad_costs h1 _ _ Ha1 eq_refl).
  unfold Obj.lift. by rewrite Hwhat.
Qed.

Lemma second_get_profiles_call_raises_example :
  ∃ what,
    Obj.get_profiles 0%nat 1%nat 2%nat
      (<[2%nat := TAdCosts [ {| ac_dt := Day 0; ac_channel := "ads";
                                ac_costs := 10%Q |} ]]>
         Example.heap_with_inputs
       ++ [TProfiles Example.profiles_two])
    = Err (AttributeError what).
Proof.
  apply (second_get_profiles_call_raises 0%nat 1%nat 2%nat
           Example.heap_with_inputs _ 3%nat).
  - vm_compute. reflexivity.
  - discriminate.
Defined.

(** ** The purchase a conversion row carries *)

Lemma elem_of_first_purchases purchases u t :
  (u, t) ∈ first_purchases purchases →
  (∃ e, e ∈ purchases ∧ p_user_id e = u ∧ p_event_dt e = t) ∧
  ∀ e', e' ∈ purchases → p_user_id e' = u → t <= p_event_dt e'.
Proof.
  unfold first_purchases, groupby. rewrite omap_map, list_elem_of_omap.
  intros (k & _ & Hh). simpl in Hh.
  destruct (head _) as [e|] eqn:Hhd; [|done]. injection Hh as <- <-.
  apply (group_head_earliest p_user_id p_event_dt purchase_leb
           purchase_leb_spec) in Hhd as (Hin & Hk & Hmin).
  split; [by exists e|]. intros e' He' Hu. apply Hmin; [done|congruence].
Qed.

Lemma first_purchases_users purchases :
  map fst (first_purchases purchases)
  = group_keys Z.leb p_user_id (sort_by purchase_leb purchases).
Proof.
  unfold first_purchases, groupby. rewrite omap_map. simpl.
  pose proof (group_head_exists p_user_id purchase_leb purchases) as Hex.
  pose proof (fun k => group_head_earliest p_user_id p_event_dt
                purchase_leb purchase_leb_spec purchases k) as Hhd.
  induction (group_keys Z.leb p_user_id (sort_by purchase_leb purchases))
    as [|k ks IH]; [done|].
  simpl. destruct (Hex k) as [e He]; [left|]. rewrite He. simpl.
  destruct (Hhd k e He) as (_ & -> & _). f_equal.
  apply IH. intros k' Hk'. apply Hex. by right.
Qed.

Lemma first_purchases_cover purchases u :
  u ∈ map fst (first_purchases purchases) ↔ u ∈ map p_user_id purchases.
Proof.
  rewrite first_purchases_users, elem_of_group_keys.
  change (map ?f ?x) with (f <$> x). rewrite list_elem_of_fmap.
  setoid_rewrite elem_of_sort_by. split; intros (e & ? & ?); eauto.
Qed.

Lemma first_purchase_at_most_one purchases (p : profile) :
  (length (filter (on_user_id fst p) (first_purchases purchases)) ≤ 1)%nat.
Proof.
  pose proof (NoDup_group_keys Z.leb p_user_id
                (sort_by purchase_leb purchases)) as Hnd.
  rewrite <- first_purchases_users in Hnd.
  induction (first_purchases purchases) as [|x l IH]; [simpl; lia|].
  simpl in Hnd. apply NoDup_cons in Hnd as [Hx Hnd].
  rewrite filter_cons. destruct (decide (on_user_id fst p x)) as [Hm|Hm];
    [|by apply IH].
  rewrite filter_none; [simpl; lia|].
  intros y Hy Hmy. apply Hx. unfold on_user_id in Hm, Hmy.
  change (map ?g ?z) with (g <$> z). apply list_elem_of_fmap.
  exists y. split; [congruence|done].
Qed.

Lemma get_conversion_raw obs h ign profiles purchases dims raw grouped in_time :
  get_conversion obs h ign profiles purchases dims = Ok (raw, grouped, in_time) →
  rt_rows raw = conversion_rows obs h ign profiles purchases.
Proof.
  unfold get_conversion.
  destruct (conversion_group_by_dimensions (cohort_column dims)
              (static_dimensions dims) _ h) as [g|e]; [|done].
  cbn [mbind result_bind].
  destruct (conversion_group_by_dimensions (cohort_column dims)
              (dynamic_dimensions (static_dimensions dims)) _ h) as [t|e];
    [|done]. cbn [mbind result_bind].
  by intros [= <- <- <-].
Qed.

(** X15. The raw table of [get_conversion] has one row for each profile
    inside the horizon, in the order of the profile table.  A row with an
    event carries the earliest purchase of its user, whatever the number of
    purchases, and the lifetime counted from the first visit; a row without
    an event is the row of a user who never bought. *)
Theorem conversion_rows_carry_first_purchase
    (observation_date horizon_days : Z) (ignore_horizon : bool)
    (profiles : list profile) (purchases : list purchase)
    (dimensions : list string)
    (raw : raw_table) (grouped in_time : cohort_table) :
  get_conversion observation_date horizon_days ignore_horizon
    profiles purchases dimensions = Ok (raw, grouped, in_time) →
  map j_profile (rt_rows raw)
  = horizon_filter profiles observation_date horizon_days ignore_horizon ∧
  ∀ r, r ∈ rt_rows raw →
    match j_event r with
    | Some t =>
        (∃ e, e ∈ purchases ∧ p_user_id e = user_id (j_profile r)
              ∧ p_event_dt e = t) ∧
        (∀ e', e' ∈ purchases → p_user_id e' = user_id (j_profile r) →
               t <= p_event_dt e') ∧
        j_lifetime r = Some (days_between t (first_ts (j_profile r)))
    | None =>
        (user_id (j_profile r) ∉ map p_user_id purchases) ∧
        j_lifetime r = None
    end.
Proof.
  intros Hok. rewrite (get_conversion_raw _ _ _ _ _ _ _ _ _ Hok).
  unfold conversion_rows. split.
  - rewrite (merge_left_projection _ _ j_profile (fun p => p)).
    + apply map_id.
    + apply first_purchase_at_most_one.
    + done.
  - intros r Hr.
    apply elem_of_merge_left in Hr
      as (p & Hp & [([u t] & He & Hm & ->)|(Hno & ->)]); simpl.
    + unfold on_user_id in Hm. simpl in Hm. subst u.
      apply elem_of_first_purchases in He as [Hex Hmin]. done.
    + split; [|done]. intros Hin. apply first_purchases_cover in Hin.
      change (map ?f ?x) with (f <$> x) in Hin.
      apply list_elem_of_fmap in Hin as (e & Hu & He).
      by apply (Hno e He).
Qed.

Lemma conversion_rows_carry_first_purchase_example :
  ∃ raw,
    map j_event (rt_rows raw) = [Some 200; Some 93700; Some 400] ∧
    map j_profile (rt_rows raw) = Example.profiles_three ∧
    ∀ r, r ∈ rt_rows raw →
      match j_event r with
      | Some t =>
          (∃ e, e ∈ Example.purchases_full
                ∧ p_user_id e = user_id (j_profile r) ∧ p_event_dt e = t) ∧
          (∀ e', e' ∈ Example.purchases_full →
                 p_user_id e' = user_id (j_profile r) → t <= p_event_dt e') ∧
          j_lifetime r = Some (days_between t (first_ts (j_profile r)))
      | None =>
          (user_id (j_profile r) ∉ map p_user_id Example.purchases_full) ∧
          j_lifetime r = None
      end.
Proof.
  destruct (get_conversion 1 2 false Example.profiles_three
              Example.purchases_full ["channel"]) as [[[raw g] t]|e] eqn:Hrun;
    [|by vm_compute in Hrun].
  exists raw. split.
  - vm_compute in Hrun. injection Hrun as <- _ _. reflexivity.
  - by apply (conversion_rows_carry_first_purchase 1 2 false
                Example.profiles_three Example.purchases_full ["channel"]
                raw g t).
Defined.

(** * Further properties of the time smoother *)

Lemma mapM_id_Some (l : list (option Q)) xs :
  mapM id l = Some xs ↔ l = Some <$> xs.
Proof.
  rewrite mapM_Some. split.
  - induction 1 as [|o x l xs Ho _ IH]; [done|]. simpl in Ho. by subst.
  - intros ->. induction xs; constructor; done.
Qed.

Lemma rolling_mean_at_Some w col i x :
  rolling_mean_at w col i = Some x ↔
  (1 ≤ w ≤ S i)%nat ∧
  ∃ xs, take w (drop (S i - w) col) = Some <$> xs ∧ x = Qmean xs.
Proof.
  unfold rolling_mean_at, window_at.
  destruct (decide (w ≤ S i)%nat) as [Hw|Hw]; simpl.
  - destruct (mapM id (take w (drop (S i - w) col))) as [xs|] eqn:Hm; simpl.
    + apply mapM_id_Some in Hm.
      destruct (decide (w = 0)%nat) as [->|Hz].
      * split; [done|]. intros [? _]. lia.
      * split.
        -- intros [= <-]. split; [lia|]. by exists xs.
        -- intros [_ (xs' & Heq & ->)]. rewrite Hm in Heq.
           apply (inj (fmap Some)) in Heq. by subst.
    + split; [done|]. intros [_ (xs & Heq & _)].
      apply mapM_id_Some in Heq. congruence.
  - split; [done|]. intros [? _]. lia.
Qed.

Lemma rolling_mean_cell w col i x :
  rolling_mean w col !! i = Some (Some x) ↔
  (1 ≤ w ≤ S i)%nat ∧ (i < length col)%nat ∧
  ∃ xs, take w (drop (S i - w) col) = Some <$> xs ∧ x = Qmean xs.
Proof.
  split.
  - intros Hx.
    assert (i < length col)%nat as Hi.
    { apply lookup_lt_Some in Hx. unfold rolling_mean in Hx.
      by rewrite length_map, length_seq in Hx. }
    rewrite rolling_mean_lookup in Hx by done. injection Hx as Hx.
    apply rolling_mean_at_Some in Hx as [? ?]. done.
  - intros (Hw & Hi & Hxs). rewrite rolling_mean_lookup by done. f_equal.
    by apply rolling_mean_at_Some.
Qed.

Lemma rolling_mean_blank w col i j :
  col !! j = Some None → (j ≤ i < j + w)%nat → (i < length col)%nat →
  rolling_mean w col !! i = Some None.
Proof.
  intros Hj Hij Hi. rewrite rolling_mean_lookup by done. f_equal.
  destruct (rolling_mean_at w col i) as [x|] eqn:Hx; [|done]. exfalso.
  apply rolling_mean_at_Some in Hx as (Hw & xs & Hwin & _).
  assert (take w (drop (S i - w) col) !! (j - (S i - w))%nat = Some None)
    as Hcell.
  { rewrite lookup_take_lt by lia. rewrite lookup_drop.
    replace (S i - w + (j - (S i - w)))%nat with j by lia. done. }
  rewrite Hwin, list_lookup_fmap in Hcell.
  by destruct (xs !! _).
Qed.

Lemma fmap_Some_defined (l : list (option Q)) :
  (∃ xs, l = Some <$> xs) ↔ Forall is_Some l.
Proof.
  split.
  - intros (xs & ->). apply Forall_fmap, Forall_forall. intros x _. by eexists.
  - intros Hall. destruct (mapM_id_defined l Hall) as (xs & _ & ->). eauto.
Qed.

(** X16. On a table with distinct column labels, smoothing keeps the labels
    and the length of every column.  A missing input cell blanks the output
    rows of the [window] rows starting at it: an output cell is defined
    exactly at the rows whose window is full and holds no missing cell, and
    it is then the sum of the cells of the window divided by [window]. *)
Theorem missing_cells_blank_their_windows (df : num_table) (window : nat) :
  NoDup (map fst df) →
  Forall2 (fun nc nc' =>
    fst nc' = fst nc ∧
    length (snd nc') = length (snd nc) ∧
    (∀ i j, snd nc !! j = Some None → (j ≤ i < j + window)%nat →
            (i < length (snd nc))%nat → snd nc' !! i = Some None) ∧
    (∀ i, (∃ x, snd nc' !! i = Some (Some x)) ↔
       (1 ≤ window ≤ S i)%nat ∧ (i < length (snd nc))%nat ∧
       Forall is_Some (take window (drop (S i - window) (snd nc)))) ∧
    (∀ i x xs, snd nc' !! i = Some (Some x) →
       take window (drop (S i - window) (snd nc)) = Some <$> xs →
       (x == fold_right Qplus 0 xs / inject_Z (Z.of_nat window))%Q))
    df (filter_data_table df window).
Proof.
  intros Hnd. unfold filter_data_table. rewrite smooth_columns_map by done.
  change (map ?f ?x) with (f <$> x). apply Forall2_fmap_r.
  apply Forall_Forall2_diag, Forall_forall. intros [name col] _. simpl.
  split; [done|]. split; [|split; [|split]].
  - unfold rolling_mean. by rewrite length_map, length_seq.
  - intros i j. apply rolling_mean_blank.
  - intros i. rewrite <- fmap_Some_defined. split.
    + intros (x & Hx). apply rolling_mean_cell in Hx as (? & ? & xs & ? & _).
      eauto.
    + intros (Hw & Hi & xs & Hxs). exists (Qmean xs).
      apply rolling_mean_cell. eauto.
  - intros i x xs Hx Hxs.
    apply rolling_mean_cell in Hx as (Hw & Hi & xs' & Hxs' & ->).
    rewrite Hxs in Hxs'. apply (inj (fmap Some)) in Hxs'. subst xs'.
    assert (length xs = window) as Hlen.
    { rewrite <- (length_fmap Some xs), <- Hxs, length_take, length_drop.
      lia. }
    unfold Qmean, Qsum. rewrite Hlen. reflexivity.
Qed.

Lemma missing_cells_blank_their_windows_example :
  let df := [("ltv", [Some 1%Q; None; Some 3%Q; Some 5%Q])] in
  (∃ x, filter_data_table df 2 = [("ltv", [None; None; None; Some x])]
        ∧ (x == 4)%Q) ∧
  Forall2 (fun nc nc' =>
    fst nc' = fst nc ∧
    length (snd nc') = length (snd nc) ∧
    (∀ i j, snd nc !! j = Some None → (j ≤ i < j + 2)%nat →
            (i < length (snd nc))%nat → snd nc' !! i = Some None) ∧
    (∀ i, (∃ x, snd nc' !! i = Some (Some x)) ↔
       (1 ≤ 2 ≤ S i)%nat ∧ (i < length (snd nc))%nat ∧
       Forall is_Some (take 2 (drop (S i - 2) (snd nc)))) ∧
    (∀ i x xs, snd nc' !! i = Some (Some x) →
       take 2 (drop (S i - 2) (snd nc)) = Some <$> xs →
       (x == fold_right Qplus 0 xs / inject_Z (Z.of_nat 2))%Q))
    df (filter_data_table df 2).
Proof.
  split.
  - eexists. split; [vm_compute; reflexivity|]. reflexivity.
  - apply (missing_cells_blank_their_windows
             [("ltv", [Some 1%Q; None; Some 3%Q; Some 5%Q])] 2).
    apply NoDup_singleton.
Defined.
